(** * YouTube comment analyzer: ingestion engine and aggregation engine

    A shallow embedding of the background script (fetch with retry, the
    reply walker, the comment-thread walker, the message listener), of the
    older background script that is appended to [popup.js], and of the
    popup's aggregation functions, followed by the properties proved about
    them.

    Conventions of the embedding.
    - JavaScript values that come out of [JSON.parse] are terms of [Json];
      [undefined] is [None] in [JsVal].  JSON numbers are integers here (the
      numeric fields the code reads are counts and HTTP statuses).
    - Strings are [string], sequences of bytes.  On ASCII text [length],
      [substring], [toLowerCase] and the class [\s] of the embedding are
      those of JavaScript; the theorems about the words of the texts are
      stated for ASCII texts.
    - The numbers that the popup computes with (percentages, sizes) are
      doubles, [Num]: an operation rounds its exact result to the nearest
      binary64 number.
    - ECMAScript and browser built-ins that the repository does not define
      ([JSON.parse], [Date], the emoji regular expression, [URL]) are the
      fields of the class [Runtime].
    - Asynchronous functions are computations in the monad [M]: a state
      (the number of [fetch] calls issued and the trace of observable
      events), an outcome that is a returned value or a thrown error, and
      [None] when the loop budget (fuel) of a [do ... while] is used up.

    The second part of the development covers [sendAllComments] and the
    listener path by path, the other aggregations of the popup (topics,
    emojis, the overall sentiment, the titles of the timeline), the
    notification logic of the content script, and the walkers of the older
    background script.  Its theorems are numbered X1, X2, ... *)

From Stdlib Require Import ZArith QArith Qround Qabs Qpower List String Ascii Bool Lia.
From Stdlib Require Import DecimalString Permutation Sorted Lqa.
From Stdlib Require DecimalZ DecimalPos.
Import ListNotations.

Set Warnings "-register-all".
Local Open Scope string_scope.
Local Open Scope Z_scope.

(** ** JavaScript values *)

Module Js.

Inductive Json : Type :=
| JNull
| JBool (b : bool)
| JNum (n : Z)
| JStr (s : string)
| JArr (items : list Json)
| JObj (fields : list (string * Json)).

(** [None] is [undefined]. *)
Definition JsVal : Type := option Json.

(** ToBoolean. *)
Definition truthy (v : JsVal) : bool :=
  match v with
  | None => false
  | Some JNull => false
  | Some (JBool b) => b
  | Some (JNum n) => negb (n =? 0)
  | Some (JStr s) => negb (s =? "")%string
  | Some (JArr _) => true
  | Some (JObj _) => true
  end.

Fixpoint lookup (k : string) (fs : list (string * Json)) : JsVal :=
  match fs with
  | [] => None
  | (k', v) :: fs' => if (k =? k')%string then Some v else lookup k fs'
  end.

(** [v.k] for a value [v] that is neither [null] nor [undefined], and for
    the property names the code reads (none of them is inherited from a
    prototype): own properties of objects, [undefined] everywhere else. *)
Definition getProp (v : Json) (k : string) : JsVal :=
  match v with
  | JObj fs => lookup k fs
  | _ => None
  end.

(** [v?.k] *)
Definition optGet (v : JsVal) (k : string) : JsVal :=
  match v with
  | None => None
  | Some JNull => None
  | Some j => getProp j k
  end.

Definition showZ (z : Z) : string := NilZero.string_of_int (Z.to_int z).

Definition join (sep : string) (l : list string) : string :=
  match l with
  | [] => ""
  | x :: r => fold_left (fun acc y => acc ++ sep ++ y) r x
  end.

(** ToString on the values [JSON.parse] produces. *)
Fixpoint toString (j : Json) : string :=
  match j with
  | JNull => "null"
  | JBool true => "true"
  | JBool false => "false"
  | JNum n => showZ n
  | JStr s => s
  | JArr l =>
      join "," (map (fun x => match x with JNull => "" | _ => toString x end) l)
  | JObj _ => "[object Object]"
  end.

Definition toStringV (v : JsVal) : string :=
  match v with
  | None => "undefined"
  | Some j => toString j
  end.

(** [a || b] on strings. *)
Definition orElse (a b : string) : string :=
  if (a =? "")%string then b else a.

(** Thrown values.  Everything the code throws or catches is an [Error]
    instance: a name and a message. *)
Record JsError : Type := { name : string; message : string }.

Definition mkError (msg : string) : JsError :=
  {| name := "Error"; message := msg |}.

Definition TypeError (msg : string) : JsError :=
  {| name := "TypeError"; message := msg |}.

Definition SyntaxError (msg : string) : JsError :=
  {| name := "SyntaxError"; message := msg |}.

(** [String(err)], that is [Error.prototype.toString]. *)
Definition String_of_error (e : JsError) : string :=
  if (name e =? "")%string then message e
  else if (message e =? "")%string then name e
  else name e ++ ": " ++ message e.

(** [err?.message || String(err)] *)
Definition errText (e : JsError) : string :=
  orElse (message e) (String_of_error e).

End Js.

(** ** The background script *)

Module Background.
Import Js.

(** Built-ins of the platform, not code of the repository. *)
Class Runtime : Type := {
  (** [JSON.parse]; [None] when it throws a [SyntaxError]. *)
  JSON_parse : string -> option Json;
  (** [new Date(v).getTime()]; [None] is [NaN]. *)
  Date_getTime : JsVal -> option Z;
  (** [Array.from(text.matchAll(/[\p{Emoji_Presentation}\p{Extended_Pictographic}]/gu), m => m[0])] *)
  matchEmojis : string -> list string;
  (** serialisation of one query value by [URLSearchParams] *)
  encodeParam : string -> string;
  (** [new URL(u).searchParams.get(k)]: [None] when [new URL] throws,
      [Some None] when the parameter is absent ([null]). *)
  URL_searchParam : string -> string -> option (option string);
  (** [Number(s)] on a string; [None] is [NaN]. *)
  Number_ofString : string -> option Z
}.

Record HttpResponse : Type := {
  ok : bool;
  status : Z;
  statusText : string;
  (** [resp.text()]; [None] when the promise rejects. *)
  body : option string
}.

Inductive FetchOutcome : Type :=
| Rejected (e : JsError)
| Responded (r : HttpResponse).

(** The remote source: what the [n]-th [fetch] of a run answers to [url]. *)
Definition Network : Type := nat -> string -> FetchOutcome.

(** A normalized comment as [fetchReplies] and [fetchAllComments] build it. *)
Record Comment : Type := {
  id : JsVal;
  text : JsVal;
  (** [getTime() / 1000]; [None] is [NaN]. *)
  timestamp : option Q;
  sentiment : Json;
  sentimentStrength : Json;
  topic : string;
  emojis : list string
}.

Inductive Level : Type := Info | Warn | Error.

Inductive Message : Type :=
| ProgressUpdate (processedComments : nat)
| UpdateUIResults (analysisResults : Json)
| UpdateUIError (error : string).

Inductive Response : Type :=
| RespError (error : string)
| RespSuccess (totalComments : nat).

(** Observable events, in the order they happen.  Log labels are the fixed
    part of the logged text. *)
Inductive Event : Type :=
| EvFetch (url : string)
| EvSleep (ms : Z)
| EvLog (lvl : Level) (label : string)
| EvSendMessage (m : Message)
| EvPost (comments : list Comment)
| EvStorageSet (analysisResults : Json)
| EvResponse (r : Response).

Record World : Type := { calls : nat; trace : list Event }.

Definition world0 : World := {| calls := 0%nat; trace := [] |}.

Inductive Outcome (A : Type) : Type :=
| Return (a : A)
| Throw (e : JsError).
Arguments Return {A} a.
Arguments Throw {A} e.

(** Computations: [None] means that a loop ran out of fuel. *)
Definition M (A : Type) : Type := World -> option (Outcome A * World).

Definition ret {A} (a : A) : M A := fun w => Some (Return a, w).

Definition throw {A} (e : JsError) : M A := fun w => Some (Throw e, w).

Definition bind {A B} (c : M A) (k : A -> M B) : M B :=
  fun w =>
    match c w with
    | None => None
    | Some (Return a, w') => k a w'
    | Some (Throw e, w') => Some (Throw e, w')
    end.

(** [try { c } catch (e) { h e }] *)
Definition tryCatch {A} (c : M A) (h : JsError -> M A) : M A :=
  fun w =>
    match c w with
    | None => None
    | Some (Return a, w') => Some (Return a, w')
    | Some (Throw e, w') => h e w'
    end.

Definition emit (ev : Event) : M unit :=
  fun w => Some (Return tt, {| calls := calls w; trace := trace w ++ [ev] |}).

Declare Scope js_scope.
Delimit Scope js_scope with js.
Notation "x <- c ;; k" := (bind c (fun x => k))
  (at level 61, c at next level, right associativity) : js_scope.
Notation "c ;; k" := (bind c (fun _ => k))
  (at level 61, right associativity) : js_scope.
Local Open Scope js_scope.

Definition log (lvl : Level) (label : string) : M unit := emit (EvLog lvl label).
Definition logInfo : string -> M unit := log Info.
Definition logWarn : string -> M unit := log Warn.
Definition logError : string -> M unit := log Error.

(** [await new Promise((r) => setTimeout(r, ms))] *)
Definition sleep (ms : Z) : M unit := emit (EvSleep ms).

Section WithRuntime.
Context {RT : Runtime}.
Variable net : Network.

(** [await fetch(url)] *)
Definition fetch (url : string) : M HttpResponse :=
  fun w =>
    let w' := {| calls := S (calls w); trace := trace w ++ [EvFetch url] |} in
    match net (calls w) url with
    | Rejected e => Some (Throw e, w')
    | Responded r => Some (Return r, w')
    end.

(** The body of the [try] block of one iteration of [fetchWithRetry]. *)
Definition attempt (url : string) : M Json :=
  resp <- fetch url ;;
  let text := match body resp with Some t => t | None => "" end in
  (if negb (ok resp) then
     let snippet := substring 0 300 (orElse text "") in
     logWarn "HTTP error on attempt" ;;
     tryCatch
       (match JSON_parse (orElse text "{}") with
        | None => throw (SyntaxError "Unexpected token")
        | Some apiError =>
            let msg := optGet (optGet (Some apiError) "error") "message" in
            if truthy msg
            then throw (mkError ("YouTube API error: " ++ toStringV msg))
            else ret tt
        end)
       (fun jsonErr =>
          throw (mkError ("HTTP " ++ showZ (status resp) ++ ": "
                          ++ orElse snippet (statusText resp))))
   else ret tt) ;;
  match JSON_parse (orElse text "{}") with
  | Some json => logInfo "Fetch successful on attempt" ;; ret json
  | None => throw (mkError "Failed to parse JSON response")
  end.

(** The [for (let i = 0; i < retries; i++)] loop: [n] iterations are left
    and the loop variable is [i]. *)
Fixpoint attempts (url : string) (retries delay : Z) (n : nat) (i : Z) : M Json :=
  match n with
  | O => throw (mkError "fetchWithRetry reached unexpected end")
  | S n' =>
      tryCatch (attempt url)
        (fun err =>
           logWarn "Attempt failed" ;;
           if i <? retries - 1 then
             logInfo "Retrying after delay" ;;
             sleep (delay * (1 + i)) ;;
             attempts url retries delay n' (i + 1)
           else
             logError "fetchWithRetry exhausted all attempts" ;;
             throw (mkError ("Failed fetching URL after " ++ showZ retries
                             ++ " attempts: " ++ errText err)))
  end.

Definition fetchWithRetry (url : string) (retries delay : Z) : M Json :=
  logInfo "Starting fetchWithRetry" ;;
  attempts url retries delay (Z.to_nat retries) 0.

(** *** Reading the parsed payload *)

(** [v.k]: a [TypeError] on [null]. *)
Definition propOf (v : Json) (k : string) : Outcome JsVal :=
  match v with
  | JNull => Throw (TypeError ("Cannot read properties of null (reading '" ++ k ++ "')"))
  | _ => Return (getProp v k)
  end.

(** [v.k] where [v] may also be [undefined]. *)
Definition propOfV (v : JsVal) (k : string) : Outcome JsVal :=
  match v with
  | None => Throw (TypeError ("Cannot read properties of undefined (reading '" ++ k ++ "')"))
  | Some j => propOf j k
  end.

(** ToNumber. *)
Definition toNumber (v : JsVal) : option Z :=
  match v with
  | None => None
  | Some JNull => Some 0
  | Some (JBool b) => Some (if b then 1 else 0)
  | Some (JNum n) => Some n
  | Some (JStr s) => Number_ofString s
  | Some j => Number_ofString (toString j)
  end.

(** [v > 0] *)
Definition gtZero (v : JsVal) : bool :=
  match toNumber v with
  | Some n => 0 <? n
  | None => false
  end.

(** [new Date(v).getTime() / 1000] *)
Definition publishedSeconds (v : JsVal) : option Q :=
  match Date_getTime v with
  | Some ms => Some (inject_Z ms / inject_Z 1000)%Q
  | None => None
  end.

(** [(v || "").matchAll(...)], collected: a [TypeError] when [v] is truthy
    and not a string. *)
Definition emojisOf (v : JsVal) : Outcome (list string) :=
  if truthy v then
    match v with
    | Some (JStr s) => Return (matchEmojis s)
    | _ => Throw (TypeError "matchAll is not a function")
    end
  else Return (matchEmojis "").

(** [data.nextPageToken || ""] *)
Definition nextPageToken (data : Json) : Outcome Json :=
  match propOf data "nextPageToken" with
  | Throw e => Throw e
  | Return (Some t) => Return (if truthy (Some t) then t else JStr "")
  | Return None => Return (JStr "")
  end.

(** *** fetchReplies *)

Definition repliesUrl (parentId : JsVal) (apiKey : string) (pageToken : Json) : string :=
  "https://www.googleapis.com/youtube/v3/comments"
  ++ "?part=snippet"
  ++ "&parentId=" ++ encodeParam (toStringV parentId)
  ++ "&key=" ++ encodeParam apiKey
  ++ "&maxResults=100"
  ++ (if truthy (Some pageToken)
      then "&pageToken=" ++ encodeParam (toString pageToken) else "").

(** The callback of [forEach]: [Return None] is the early [return]. *)
Definition replyOfItem (item : Json) : Outcome (option Comment) :=
  match propOf item "snippet" with
  | Throw e => Throw e
  | Return snippet =>
      if negb (truthy snippet) then Return None
      else
        let textDisplay := optGet snippet "textDisplay" in
        match emojisOf textDisplay with
        | Throw e => Throw e
        | Return emojis =>
            Return (Some {| id := getProp item "id";
                            text := if truthy textDisplay then textDisplay
                                    else Some (JStr "");
                            timestamp := publishedSeconds (optGet snippet "publishedAt");
                            sentiment := JNull;
                            sentimentStrength := JNull;
                            topic := "General";
                            emojis := emojis |})
        end
  end.

(** [(data.items || []).forEach(...)]: the receiver. *)
Definition forEachItems (data : Json) : Outcome (list Json) :=
  match propOf data "items" with
  | Throw e => Throw e
  | Return v =>
      if truthy v then
        match v with
        | Some (JArr l) => Return l
        | _ => Throw (TypeError "(data.items || []).forEach is not a function")
        end
      else Return []
  end.

(** The [forEach] over one page.  [replies] is the array being pushed to:
    what was pushed before an exception stays pushed. *)
Fixpoint pushReplies (items : list Json) (replies : list Comment)
  : list Comment * option JsError :=
  match items with
  | [] => (replies, None)
  | item :: rest =>
      match replyOfItem item with
      | Throw e => (replies, Some e)
      | Return None => pushReplies rest replies
      | Return (Some c) => pushReplies rest (replies ++ [c])%list
      end
  end.

(** [c] run inside a [try]: the thrown error becomes a value. *)
Definition caught {A} (c : M A) : M (Outcome A) :=
  fun w =>
    match c w with
    | None => None
    | Some (o, w') => Some (Return o, w')
    end.

(** The [do ... while (pageToken)] of [fetchReplies], with the array
    [replies] and the error that left the loop, if any. *)
Fixpoint repliesLoop (fuel : nat) (parentId : JsVal) (apiKey : string)
    (pageToken : Json) (replies : list Comment)
  : M (list Comment * option JsError) :=
  match fuel with
  | O => fun _ => None
  | S fuel' =>
      r <- caught (fetchWithRetry (repliesUrl parentId apiKey pageToken) 3 1000) ;;
      match r with
      | Throw e => ret (replies, Some e)
      | Return data =>
          match forEachItems data with
          | Throw e => ret (replies, Some e)
          | Return items =>
              match pushReplies items replies with
              | (replies', Some e) => ret (replies', Some e)
              | (replies', None) =>
                  match nextPageToken data with
                  | Throw e => ret (replies', Some e)
                  | Return pageToken' =>
                      if truthy (Some pageToken')
                      then repliesLoop fuel' parentId apiKey pageToken' replies'
                      else ret (replies', None)
                  end
              end
          end
      end
  end.

Definition fetchReplies (fuel : nat) (parentId : JsVal) (apiKey : string)
  : M (list Comment) :=
  logInfo "Fetching replies for comment ID:" ;;
  r <- repliesLoop fuel parentId apiKey (JStr "") [] ;;
  match r with
  | (replies, None) => logInfo "Total replies fetched" ;; ret replies
  | (replies, Some err) => logError "Error fetching replies" ;; ret replies
  end.

(** *** fetchAllComments *)

Definition threadsUrl (videoId apiKey : string) (pageToken : Json) : string :=
  "https://www.googleapis.com/youtube/v3/commentThreads"
  ++ "?part=snippet"
  ++ "&videoId=" ++ encodeParam videoId
  ++ "&key=" ++ encodeParam apiKey
  ++ "&maxResults=100"
  ++ (if truthy (Some pageToken)
      then "&pageToken=" ++ encodeParam (toString pageToken) else "").

(** [item?.snippet?.topLevelComment?.snippet] *)
Definition topLevelSnippet (item : Json) : JsVal :=
  optGet (optGet (optGet (Some item) "snippet") "topLevelComment") "snippet".

(** The object literal pushed for a top-level comment; [snippet] is truthy. *)
Definition commentOfItem (item : Json) (snippet : JsVal) : Outcome Comment :=
  let textDisplay := optGet snippet "textDisplay" in
  match emojisOf textDisplay with
  | Throw e => Throw e
  | Return emojis =>
      Return {| id := optGet (optGet (optGet (Some item) "snippet") "topLevelComment") "id";
                text := textDisplay;
                timestamp := publishedSeconds (optGet snippet "publishedAt");
                sentiment := JNull;
                sentimentStrength := JNull;
                topic := "General";
                emojis := emojis |}
  end.

(** [for (const item of data.items || [])]: the iterated values. *)
Definition forOfItems (data : Json) : Outcome (list Json) :=
  match propOf data "items" with
  | Throw e => Throw e
  | Return v =>
      if truthy v then
        match v with
        | Some (JArr l) => Return l
        | Some (JStr s) =>
            Return (map (fun c => JStr (String c "")) (list_ascii_of_string s))
        | _ => Throw (TypeError "data.items is not iterable")
        end
      else Return []
  end.

(** The first statement of the body of the [for ... of]:
    [if (snippet) { try { comments.push(...) } catch (innerErr) { ... } }];
    the result is the array [comments] afterwards. *)
Definition pushTopLevel (item : Json) (comments : list Comment) : M (list Comment) :=
  let snippet := topLevelSnippet item in
  if truthy snippet then
    match commentOfItem item snippet with
    | Return c => ret (comments ++ [c])%list
    | Throw innerErr =>
        logWarn "Skipping a comment due to parse error" ;; ret comments
    end
  else ret comments.

(** The body of the [for ... of] over one page of threads; [rfuel] is the
    loop budget of each nested reply walk. *)
Fixpoint commentsOfItems (rfuel : nat) (apiKey : string) (items : list Json)
    (comments : list Comment) : M (list Comment * option JsError) :=
  match items with
  | [] => ret (comments, None)
  | item :: rest =>
      comments1 <- pushTopLevel item comments ;;
      match propOf item "snippet" with
      | Throw e => ret (comments1, Some e)
      | Return s =>
          if truthy s && gtZero (optGet s "totalReplyCount") then
            match propOfV (optGet s "topLevelComment") "id" with
            | Throw e => ret (comments1, Some e)
            | Return parentId =>
                logInfo "Fetching replies for parent ID:" ;;
                replies <-
                  tryCatch (fetchReplies rfuel parentId apiKey)
                    (fun e => logWarn "fetchReplies failed but continuing" ;; ret []) ;;
                commentsOfItems rfuel apiKey rest (comments1 ++ replies)%list
            end
          else commentsOfItems rfuel apiKey rest comments1
      end
  end.

(** The [do ... while (pageToken)] of [fetchAllComments]. *)
Fixpoint commentsLoop (rfuel fuel : nat) (videoId apiKey : string)
    (pageToken : Json) (comments : list Comment)
  : M (list Comment * option JsError) :=
  match fuel with
  | O => fun _ => None
  | S fuel' =>
      logInfo "Fetching comments batch with pageToken:" ;;
      r <- caught (fetchWithRetry (threadsUrl videoId apiKey pageToken) 3 1000) ;;
      match r with
      | Throw e => ret (comments, Some e)
      | Return data =>
          match forOfItems data with
          | Throw e => ret (comments, Some e)
          | Return items =>
              r' <- commentsOfItems rfuel apiKey items comments ;;
              match r' with
              | (comments', Some e) => ret (comments', Some e)
              | (comments', None) =>
                  match nextPageToken data with
                  | Throw e => ret (comments', Some e)
                  | Return pageToken' =>
                      emit (EvSendMessage (ProgressUpdate (List.length comments'))) ;;
                      logInfo "Fetched comments so far..." ;;
                      sleep 200 ;;
                      if truthy (Some pageToken')
                      then commentsLoop rfuel fuel' videoId apiKey pageToken' comments'
                      else ret (comments', None)
                  end
              end
          end
      end
  end.

Definition fetchAllComments (fuel : nat) (videoId apiKey : string)
  : M (list Comment) :=
  logInfo "Starting fetchAllComments" ;;
  r <- commentsLoop fuel fuel videoId apiKey (JStr "") [] ;;
  match r with
  | (comments, None) => logInfo "Total comments fetched" ;; ret comments
  | (comments, Some err) =>
      logError "Error fetching all comments" ;;
      throw (mkError ("Failed to fetch comments for video " ++ videoId ++ ": "
                      ++ errText err))
  end.

End WithRuntime.

(** *** The collaborators of the message listener

    The callbacks of [chrome.tabs.query] and of [chrome.storage.local], and
    the promises of [fetch], are taken to settle. *)

Record Tab : Type := { tab_url : option string }.

(** [chrome.storage.local.get]: the read fails ([chrome.runtime.lastError]
    or a synchronous exception), or yields the stored value, [None] when
    there is none. *)
Inductive StorageRead : Type :=
| ReadFails (e : JsError)
| ReadValue (v : option string).

Record Env : Type := {
  (** the YouTube Data API *)
  net : Network;
  (** what [chrome.tabs.query] passes to its callback *)
  activeTabs : option (list Tab);
  (** the read of the key [ytApiKey] *)
  ytApiKey : StorageRead;
  (** the answer of the [/analyze] service to the posted batch *)
  analyze : list Comment -> FetchOutcome;
  (** [None] when [chrome.storage.local.set] succeeds *)
  storageSetError : option JsError
}.

Record Request : Type := { action : string; videoId : option string }.

Section Listener.
Context {RT : Runtime}.
Variable env : Env.

Definition storageGet : M (option string) :=
  match ytApiKey env with
  | ReadFails e => throw e
  | ReadValue v => ret v
  end.

Definition storageSet (data : Json) : M unit :=
  emit (EvStorageSet data) ;;
  match storageSetError env with
  | Some e => throw e
  | None => ret tt
  end.

Definition sendMessage (m : Message) : M unit := emit (EvSendMessage m).

Definition sendResponse (r : Response) : M unit := emit (EvResponse r).

(** [await fetch("http://127.0.0.1:8000/analyze", { method: "POST", ... })] *)
Definition post (comments : list Comment) : M HttpResponse :=
  emit (EvPost comments) ;;
  match analyze env comments with
  | Rejected e => throw e
  | Responded r => ret r
  end.

Definition sendAllComments (comments : list Comment) : M unit :=
  logInfo "Sending all comments to /analyze API..." ;;
  tryCatch
    (resp <- post comments ;;
     (if negb (ok resp) then
        let text := match body resp with Some t => t | None => "" end in
        throw (mkError ("Analysis API error: " ++ showZ (status resp) ++ " " ++ text))
      else ret tt) ;;
     data <-
       match body resp with
       | Some t =>
           match JSON_parse t with
           | Some d => ret d
           | None => throw (mkError "Invalid JSON from analysis API")
           end
       | None => throw (mkError "Invalid JSON from analysis API")
       end ;;
     tryCatch (storageSet data)
       (fun e => logWarn "Failed to save analysis to storage") ;;
     sendMessage (UpdateUIResults data) ;;
     logInfo "All comments successfully sent and analyzed.")
    (fun err =>
       logError "Error sending comments to /analyze API" ;;
       tryCatch (sendMessage (UpdateUIError (errText err)))
         (fun e => logWarn "Failed to send updateUI message after analysis error")).

(** [!s] on an optional string. *)
Definition nonEmpty (s : option string) : bool :=
  match s with
  | Some v => negb (v =? "")%string
  | None => false
  end.

(** The pipeline once the video id is known. *)
Definition analyzeVideo (fuel : nat) (videoId : string) : M unit :=
  apiKey <-
    tryCatch storageGet
      (fun e => logWarn "storageGet failed for ytApiKey" ;; ret None) ;;
  if nonEmpty apiKey then
    allComments <-
      fetchAllComments (net env) fuel videoId
        (match apiKey with Some k => k | None => "" end) ;;
    sendAllComments allComments ;;
    logInfo "Finished full comment pipeline for video:" ;;
    sendResponse (RespSuccess (List.length allComments))
  else sendResponse (RespError "YouTube API key not set.").

(** The branch [if (!videoId) { ... }] with what follows it: the id is
    read from the active tab. *)
Definition fromActiveTab (fuel : nat) : M unit :=
  match activeTabs env with
  | Some (tab :: _) =>
      match tab_url tab with
      | Some u =>
          if negb (u =? "")%string then
            videoId <-
              tryCatch
                (match URL_searchParam u "v" with
                 | None => throw (TypeError "Invalid URL")
                 | Some p => logInfo "Extracted video ID from tab:" ;; ret p
                 end)
                (fun err => logWarn "Failed to parse tab URL" ;; ret None) ;;
            if nonEmpty videoId
            then analyzeVideo fuel (match videoId with Some v => v | None => "" end)
            else sendResponse (RespError "Video ID not provided.")
          else sendResponse (RespError "Could not determine active tab or URL")
      | None => sendResponse (RespError "Could not determine active tab or URL")
      end
  | _ => sendResponse (RespError "Could not determine active tab or URL")
  end.

(** The body of the [try] of the asynchronous function. *)
Definition fetchCommentsBody (fuel : nat) (request : Request) : M unit :=
  logInfo "Starting fetchComments process for video ID:" ;;
  if nonEmpty (videoId request)
  then analyzeVideo fuel (match videoId request with Some v => v | None => "" end)
  else fromActiveTab fuel.

(** The listener registered with [chrome.runtime.onMessage]; the result is
    what the listener returns ([true] keeps the channel open), and the
    effects are those of the asynchronous function it starts. *)
Definition onMessage (fuel : nat) (request : Request) : M bool :=
  logInfo "Received message from content script:" ;;
  if (action request =? "fetchComments")%string then
    tryCatch
      (tryCatch (fetchCommentsBody fuel request)
         (fun err =>
            logError "Unhandled error during fetchComments pipeline" ;;
            tryCatch (sendResponse (RespError (errText err)))
              (fun e => logWarn "Failed to send response in catch")))
      (fun err =>
         logError "IIFE for fetchComments failed to start" ;;
         tryCatch (sendResponse (RespError (String_of_error err)))
           (fun _ => ret tt)) ;;
    ret true
  else ret false.

End Listener.

End Background.

(** ** The older background script appended to popup.js

    Only its [fetchWithRetry] differs in what is proved below: the delay is
    constant and the final error does not carry the last failure. *)

Module Legacy.
Import Js.
Import Background.
Local Open Scope js_scope.

Section WithRuntime.
Context {RT : Runtime}.
Variable net : Network.

(** The body of the [try] block of one iteration. *)
Definition attempt (url : string) : M Json :=
  resp <- fetch net url ;;
  text <-
    match body resp with
    | Some t => ret t
    | None => throw (TypeError "Failed to read the response body")
    end ;;
  (if negb (ok resp) then
     let snippet := substring 0 300 text in
     logWarn "HTTP error on attempt" ;;
     tryCatch
       (match JSON_parse text with
        | None => throw (SyntaxError "Unexpected token")
        | Some apiError =>
            let msg := optGet (optGet (Some apiError) "error") "message" in
            if truthy msg
            then throw (mkError ("YouTube API error: " ++ toStringV msg))
            else ret tt
        end)
       (fun jsonErr =>
          throw (mkError ("HTTP " ++ showZ (status resp) ++ ": " ++ snippet)))
   else ret tt) ;;
  match JSON_parse text with
  | Some json => logInfo "Fetch successful on attempt" ;; ret json
  | None => throw (SyntaxError "Unexpected token")
  end.

Fixpoint attempts (url : string) (retries delay : Z) (n : nat) (i : Z) : M Json :=
  match n with
  | O => throw (mkError ("Failed fetching URL after " ++ showZ retries ++ " attempts"))
  | S n' =>
      r <- caught (attempt url) ;;
      match r with
      | Return json => ret json
      | Throw err =>
          logWarn "Attempt failed" ;;
          (if i <? retries - 1 then
             logInfo "Retrying after delay" ;; sleep delay
           else logError "FetchWithRetry failed all attempts") ;;
          attempts url retries delay n' (i + 1)
      end
  end.

Definition fetchWithRetry (url : string) (retries delay : Z) : M Json :=
  logInfo "Starting fetchWithRetry" ;;
  attempts url retries delay (Z.to_nat retries) 0.

End WithRuntime.

End Legacy.

(** ** The popup: aggregation of the classified comments *)

Module Popup.
Import Js.

(** Built-ins used by [toDateFromAny]. *)
Class Builtins : Type := {
  (** [Number(s)] on a string; [None] is [NaN]. *)
  Number : string -> option Q;
  (** the time value of [new Date(s)] for a string; [None] is an invalid date *)
  Date_parse : string -> option Z
}.

(** *** Objects used as maps

    An object is the list of its own properties in insertion order.  The
    property names that [Object.prototype] defines are not modelled: no key
    is inherited. *)

Definition Obj (V : Type) : Type := list (string * V).

Section Objects.
Context {V : Type}.

(** [o[k]] *)
Fixpoint get (k : string) (o : Obj V) : option V :=
  match o with
  | [] => None
  | (k', v) :: o' => if (k =? k')%string then Some v else get k o'
  end.

(** [o[k] = v]: an existing property keeps its place, a new one is added
    last. *)
Fixpoint set (k : string) (v : V) (o : Obj V) : Obj V :=
  match o with
  | [] => [(k, v)]
  | (k', v') :: o' =>
      if (k =? k')%string then (k, v) :: o' else (k', v') :: set k v o'
  end.

End Objects.

Definition isDigit (c : ascii) : bool :=
  let n := nat_of_ascii c in (48 <=? n)%nat && (n <=? 57)%nat.

Fixpoint digitsValue (s : string) (acc : Z) : option Z :=
  match s with
  | EmptyString => Some acc
  | String c r =>
      if isDigit c
      then digitsValue r (10 * acc + Z.of_nat (nat_of_ascii c - 48))
      else None
  end.

(** The array index that a property name denotes, if any: a canonical
    decimal numeral below [2^32 - 1]. *)
Definition arrayIndex (k : string) : option Z :=
  match k with
  | EmptyString => None
  | _ =>
      match digitsValue k 0 with
      | Some z => if (showZ z =? k)%string && (z <? 2 ^ 32 - 1) then Some z else None
      | None => None
      end
  end.

Definition isArrayIndex (k : string) : bool :=
  match arrayIndex k with Some _ => true | None => false end.

Definition indexValue (k : string) : Z :=
  match arrayIndex k with Some z => z | None => 0 end.

(** [Array.prototype.sort] with a comparator, as a stable insertion sort:
    for a consistent comparator every stable sort gives this result. *)
Section Sorting.
Context {A : Type}.
Variable cmp : A -> A -> Z.

Fixpoint insertBy (x : A) (l : list A) : list A :=
  match l with
  | [] => [x]
  | y :: l' => if cmp x y <=? 0 then x :: y :: l' else y :: insertBy x l'
  end.

Definition sortBy (l : list A) : list A := fold_right insertBy [] l.

End Sorting.

(** [Object.entries(o)]: the array indices in ascending order, then the
    other names in insertion order. *)
Definition Object_entries {V} (o : Obj V) : list (string * V) :=
  (sortBy (fun a b => indexValue (fst a) - indexValue (fst b))
     (filter (fun e => isArrayIndex (fst e)) o)
   ++ filter (fun e => negb (isArrayIndex (fst e))) o)%list.

Definition Object_values {V} (o : Obj V) : list V := map snd (Object_entries o).

(** *** Strings *)

(** [s.toLowerCase()] on ASCII text: the letters A to Z are the characters
    that change. *)
Definition lowerAscii (c : ascii) : ascii :=
  let n := nat_of_ascii c in
  if (65 <=? n)%nat && (n <=? 90)%nat then ascii_of_nat (n + 32) else c.

Fixpoint toLowerCase (s : string) : string :=
  match s with
  | EmptyString => EmptyString
  | String c r => String (lowerAscii c) (toLowerCase r)
  end.

(** *** Numbers

    A number of the popup is a double: a rational that binary64 represents,
    an infinity, or [NaN].  The sign of zero is not represented: the
    operands below are counts.  An operation rounds the exact result to the
    nearest double, ties to even. *)

Inductive Num : Type :=
| Finite (q : Q)
| Infinity (negative : bool)
| NaN.

(** A count or an integer literal: an integer below [2^53], which a double
    holds exactly. *)
Definition ofZ (z : Z) : Num := Finite (inject_Z z).

Coercion ofZ : Z >-> Num.

Definition pow2 (e : Z) : Q := (2 ^ e)%Q.

(** For [0 < q]: the exponent [e] with [2^e <= q < 2^(e+1)]. *)
Definition ilog2 (q : Q) : Z :=
  let k := Z.log2 (Qnum q) - Z.log2 (Zpos (Qden q)) in
  if Qle_bool (pow2 k) q then k else k - 1.

(** The integer nearest to [q]; of two nearest integers, the even one. *)
Definition roundEven (q : Q) : Z :=
  let f := Qfloor q in
  match Qcompare (q - inject_Z f) (1 # 2) with
  | Lt => f
  | Gt => f + 1
  | Eq => if Z.even f then f else f + 1
  end.

(** The exponent of the last place of the doubles around [q], for [0 < q]:
    the significand has 53 bits, the smallest exponent is [-1074]. *)
Definition expOf (q : Q) : Z := Z.max (ilog2 q - 52) (-1074).

(** For [0 <= q]: the nearest multiple of [2^(expOf q)]. *)
Definition nearest (q : Q) : Q :=
  if Qle_bool q 0 then 0%Q
  else (inject_Z (roundEven (q / pow2 (expOf q))) * pow2 (expOf q))%Q.

Definition isNegative (q : Q) : bool := negb (Qle_bool 0 q).

(** The double that an exact result [q] is rounded to: the nearest one, an
    infinity from [2^1024] on. *)
Definition round64 (q : Q) : Num :=
  let r := nearest (Qabs q) in
  if Qle_bool (pow2 1024) r then Infinity (isNegative q)
  else Finite (Qred (if isNegative q then - r else r)).

(** [a / b] *)
Definition Num_div (a b : Num) : Num :=
  match a, b with
  | Finite x, Finite y =>
      if Qeq_bool y 0 then
        if Qeq_bool x 0 then NaN else Infinity (isNegative x)
      else round64 (x / y)
  | Finite _, Infinity _ => Finite 0
  | Infinity s, Finite y => Infinity (xorb s (isNegative y))
  | _, _ => NaN
  end.

(** [a * b] *)
Definition Num_mul (a b : Num) : Num :=
  match a, b with
  | Finite x, Finite y => round64 (x * y)
  | Finite x, Infinity s | Infinity s, Finite x =>
      if Qeq_bool x 0 then NaN else Infinity (xorb s (isNegative x))
  | Infinity s, Infinity t => Infinity (xorb s t)
  | _, _ => NaN
  end.

(** [a + b] *)
Definition Num_add (a b : Num) : Num :=
  match a, b with
  | Finite x, Finite y => round64 (x + y)
  | Finite _, Infinity s | Infinity s, Finite _ => Infinity s
  | Infinity s, Infinity t => if Bool.eqb s t then Infinity s else NaN
  | _, _ => NaN
  end.

(** *** The comments *)

(** A timestamp as it arrives: a number or a string. *)
Inductive Timestamp : Type :=
| TsNumber (q : Q)
| TsString (s : string).

(** An entry of [analysisResults.comments]; [None] is a field that is
    missing or [null]. *)
Record Prediction : Type := {
  p_id : option string;
  p_text : option string;
  p_sentiment : option string;
  p_sentimentStrength : option string;
  p_topic : option string;
  p_timestamp : option Timestamp;
  p_emojis : option (list string)
}.

(** An element of [commentsData]. *)
Record Comment : Type := {
  id : option string;
  text : option string;
  sentiment : string;
  strength : string;
  topic : string;
  timestamp : Timestamp;
  emojis : list string
}.

(** [!ts] on a timestamp. *)
Definition falsyTimestamp (ts : Timestamp) : bool :=
  match ts with
  | TsNumber q => Qeq_bool q 0
  | TsString s => (s =? "")%string
  end.

(** The function mapped over the predictions by [updateCommentsData]. *)
Definition normalize (p : Prediction) : Comment :=
  {| id := p_id p;
     text := p_text p;
     sentiment := match p_sentiment p with
                  | Some s => orElse (toLowerCase s) "neutral"
                  | None => "neutral"
                  end;
     strength := match p_sentimentStrength p with
                 | Some s => orElse (toLowerCase s) "weak"
                 | None => "weak"
                 end;
     topic := match p_topic p with
              | Some t => orElse t "General"
              | None => "General"
              end;
     timestamp := match p_timestamp p with
                  | Some ts => if falsyTimestamp ts then TsNumber 0 else ts
                  | None => TsNumber 0
                  end;
     emojis := match p_emojis p with
               | Some l => l
               | None => []
               end |}.

(** [updateCommentsData], as a function of the stored predictions and of
    the current [commentsData]: the new [commentsData]. *)
Definition updateCommentsData (predictions : list Prediction)
    (commentsData : list Comment) : list Comment :=
  match predictions with
  | [] => commentsData
  | _ => map normalize predictions
  end.

(** *** getSentimentCounts *)

(** [v || 0] *)
Definition orZero (v : option Z) : Z :=
  match v with Some z => z | None => 0 end.

Definition getSentimentCounts (commentsData : list Comment) : Obj Z :=
  fold_left
    (fun acc c => set (sentiment c) (orZero (get (sentiment c) acc) + 1) acc)
    commentsData
    [("positive", 0); ("neutral", 0); ("negative", 0)].

(** *** toDateFromAny and processTimelineData *)

(** A [Date] object: its time value in milliseconds, [None] for an invalid
    date. *)
Definition Date : Type := option Z.

(** Truncation toward zero. *)
Definition Qtrunc (q : Q) : Z :=
  if Qle_bool 0 q then Qfloor q else Qceiling q.

(** [new Date(val)] for a number: the value is clipped to the range of
    dates and truncated. *)
Definition newDate (val : Q) : Date :=
  if Qle_bool (Qabs val) 8640000000000000 then Some (Qtrunc val) else None.

(** [val < 1e12 ? val * 1000 : val] *)
Definition toMillis (n : Q) : Q :=
  if Qle_bool 1000000000000 n then n else n * 1000.

(** [None] is [null]. *)
Definition toDateFromAny {B : Builtins} (ts : Timestamp) : option Date :=
  if falsyTimestamp ts then None
  else
    match ts with
    | TsNumber q => Some (newDate (toMillis q))
    | TsString s =>
        match Number s with
        | Some n => Some (newDate (toMillis n))
        | None => Some (Date_parse s)
        end
    end.

(** A row of the timeline; [None] in [bin] is [NaN]. *)
Record Row : Type := {
  bin : option Z;
  positive : Z;
  neutral : Z;
  negative : Z
}.

(** [String(bin)] *)
Definition keyOf (b : option Z) : string :=
  match b with Some z => showZ z | None => "NaN" end.

(** [Math.floor(Math.floor(ts.getTime() / 1000) / 30) * 30] *)
Definition binOfDate (d : Date) : option Z :=
  match d with
  | Some ms => Some (((ms / 1000) / 30) * 30)
  | None => None
  end.

(** [row[s] += 1] when [s] is truthy and [row[s] !== undefined]. *)
Definition bump (s : string) (row : Row) : Row :=
  if (s =? "bin")%string then
    {| bin := option_map (fun b => b + 1) (bin row);
       positive := positive row; neutral := neutral row; negative := negative row |}
  else if (s =? "positive")%string then
    {| bin := bin row;
       positive := positive row + 1; neutral := neutral row; negative := negative row |}
  else if (s =? "neutral")%string then
    {| bin := bin row;
       positive := positive row; neutral := neutral row + 1; negative := negative row |}
  else if (s =? "negative")%string then
    {| bin := bin row;
       positive := positive row; neutral := neutral row; negative := negative row + 1 |}
  else row.

(** The callback of the [forEach] of [processTimelineData]. *)
Definition timelineStep {B : Builtins} (map : Obj Row) (c : Comment) : Obj Row :=
  match toDateFromAny (timestamp c) with
  | None => map
  | Some ts =>
      let b := binOfDate ts in
      let row := match get (keyOf b) map with
                 | Some r => r
                 | None => {| bin := b; positive := 0; neutral := 0; negative := 0 |}
                 end in
      set (keyOf b) (bump (sentiment c) row) map
  end.

(** [a.bin - b.bin], a [NaN] counting as [0] for the sort. *)
Definition compareBins (a b : Row) : Z :=
  match bin a, bin b with
  | Some x, Some y => x - y
  | _, _ => 0
  end.

Definition processTimelineData {B : Builtins} (commentsData : list Comment) : list Row :=
  sortBy compareBins (Object_values (fold_left timelineStep commentsData [])).

(** *** processWordCloudData *)

Definition stopWords : list string :=
  ["the"; "a"; "an"; "and"; "or"; "but"; "is"; "are"; "was"; "were"; "to"; "in";
   "of"; "for"; "on"; "with"; "from"; "as"; "at"; "it"; "this"; "that"; "so";
   "what"; "you"; "i"; "me"; "my"; "he"; "she"; "we"; "they"; "our"; "their";
   "your"; "be"; "been"; "about"; "just"; "can"; "cant"; "would"; "will"; "go";
   "up"; "down"; "out"; "off"; "too"; "very"; "here"; "there"; "who"; "how";
   "when"; "why"; "like"; "video"; "content"; "quality"].

Definition isStopWord (w : string) : bool :=
  existsb (fun s => (s =? w)%string) stopWords.

(** The characters that the regular expression of [replace] removes: the
    full stop, the comma, the exclamation and question marks, the apostrophe,
    the double quote, the parentheses and the slash. *)
Definition isPunctuation (c : ascii) : bool :=
  existsb (fun n => (n =? nat_of_ascii c)%nat) [46; 44; 33; 63; 39; 34; 40; 41; 47]%nat.

Fixpoint stripPunctuation (s : string) : string :=
  match s with
  | EmptyString => EmptyString
  | String c r =>
      if isPunctuation c then stripPunctuation r else String c (stripPunctuation r)
  end.

(** The class [\s] on ASCII text. *)
Definition isSpace (c : ascii) : bool :=
  existsb (fun n => (n =? nat_of_ascii c)%nat) [9; 10; 11; 12; 13; 32]%nat.

(** [s.split(/\s+/)]: [cur] is the piece being read, [afterSpace] tells
    that the previous character was a space. *)
Fixpoint splitSpaces (s cur : string) (afterSpace : bool) : list string :=
  match s with
  | EmptyString => [cur]
  | String c r =>
      if isSpace c then
        if afterSpace then splitSpaces r cur true
        else cur :: splitSpaces r EmptyString true
      else splitSpaces r (cur ++ String c EmptyString) false
  end.

(** [commentsData.map(c => c.text.toLowerCase().replace(...))]; [None] when
    a text is [undefined], where [toLowerCase] throws. *)
Fixpoint cleanTexts (commentsData : list Comment) : option (list string) :=
  match commentsData with
  | [] => Some []
  | c :: rest =>
      match text c with
      | None => None
      | Some t =>
          match cleanTexts rest with
          | None => None
          | Some ts => Some (stripPunctuation (toLowerCase t) :: ts)
          end
      end
  end.

(** The callback of the [forEach] over the words; [w.length] is the number
    of characters of an ASCII word. *)
Definition countWord (counts : Obj Z) (w : string) : Obj Z :=
  if (2 <? String.length w)%nat && negb (isStopWord w)
  then set w (orZero (get w counts) + 1) counts
  else counts.

Definition wordCounts (texts : list string) : Obj Z :=
  fold_left countWord (splitSpaces (join " " texts) EmptyString false) [].

(** [Object.entries(counts).sort(([, a], [, b]) => b - a)] *)
Definition sortedWords (counts : Obj Z) : list (string * Z) :=
  sortBy (fun a b => snd b - snd a) (Object_entries counts).

(** [count => max === min ? 2 : 1 + (count - min) / (max - min) * 4] *)
Definition scale (max min count : Z) : Num :=
  if max =? min then 2
  else Num_add 1 (Num_mul (Num_div (count - min) (max - min)) 4).

Record Word : Type := { word : string; size : Num; rotation : Z }.

(** [l.map((x, i) => f i x)] *)
Fixpoint mapi {A B} (f : nat -> A -> B) (i : nat) (l : list A) : list B :=
  match l with
  | [] => []
  | x :: r => f i x :: mapi f (S i) r
  end.

(** What [processWordCloudData] makes of the object [counts], from the
    sort on; [random i] is the value of the [i]-th call of [Math.random]. *)
Definition cloudOf (random : nat -> Q) (counts : Obj Z) : list Word :=
  let sorted := sortedWords counts in
  let max := match sorted with e :: _ => snd e | [] => 1 end in
  let min := match sorted with _ :: _ => snd (last sorted (EmptyString, 1)) | [] => 1 end in
  mapi (fun i e =>
          {| word := fst e;
             size := scale max min (snd e);
             rotation := if Qle_bool (random i) (7 # 10) then 0 else -90 |})
    0 (firstn 30 sorted).

Definition processWordCloudData (random : nat -> Q) (commentsData : list Comment)
  : list Word :=
  match cleanTexts commentsData with
  | None => []
  | Some texts => cloudOf random (wordCounts texts)
  end.

(** *** renderDetailedBreakdown *)

(** The integer [n] for which [n / 10 - x] is closest to zero, the larger
    one of two: for [0 <= x]. *)
Definition tenthsOf (x : Q) : Z := Qfloor (x * 10 + (1 # 2)).

(** The numeral with one decimal that stands for [t] tenths, [0 <= t]. *)
Definition fixed1 (t : Z) : string := showZ (t / 10) ++ "." ++ showZ (t mod 10).

(** [x.toFixed(1)], for [x] below [1e21]. *)
Definition toFixed1 (x : Num) : string :=
  match x with
  | Finite q =>
      if Qle_bool 0 q then fixed1 (tenthsOf q) else "-" ++ fixed1 (tenthsOf (- q))
  | Infinity s => if s then "-Infinity" else "Infinity"
  | NaN => "NaN"
  end.

(** [count / total * 100] *)
Definition percent (count total : Z) : Num := Num_mul (Num_div count total) 100.

(** What [renderDetailedBreakdown] computes before it builds the markup. *)
Record Breakdown : Type := {
  total : Z;
  strongPercent : string;
  weakPercent : string;
  strongTop5 : list Comment;
  weakTop5 : list Comment
}.

(** [None] when no sentiment is selected: the container is cleared.  The
    container is taken to exist. *)
Definition renderDetailedBreakdown (commentsData : list Comment)
    (selectedSentiment : option string) : option Breakdown :=
  match selectedSentiment with
  | None => None
  | Some sel =>
      if (sel =? "")%string then None
      else
        let filtered := filter (fun c => (sentiment c =? sel)%string) commentsData in
        let allStrong := filter (fun c => (strength c =? "strong")%string) filtered in
        let allWeak := filter (fun c => (strength c =? "weak")%string) filtered in
        let sum := Z.of_nat (List.length allStrong) + Z.of_nat (List.length allWeak) in
        let total := if sum =? 0 then 1 else sum in
        Some {| total := total;
                strongPercent :=
                  toFixed1 (percent (Z.of_nat (List.length allStrong)) total);
                weakPercent :=
                  toFixed1 (percent (Z.of_nat (List.length allWeak)) total);
                strongTop5 := firstn 5 allStrong;
                weakTop5 := firstn 5 allWeak |}
  end.

(** *** formatTime *)

(** [s.padStart(2, '0')] *)
Definition padStart2 (s : string) : string :=
  match String.length s with
  | O => "00"
  | S O => "0" ++ s
  | _ => s
  end.

Definition formatTime {B : Builtins} (ts : Timestamp) : string :=
  match toDateFromAny ts with
  | None => "00:00"
  | Some None => "00:00"
  | Some (Some ms) =>
      let s := ms / 1000 in
      showZ (s / 60) ++ ":" ++ padStart2 (showZ (Z.rem s 60))
  end.

(** *** Notions used in the statements *)

Definition recognized (s : string) : Prop :=
  In s ["positive"; "neutral"; "negative"].

Definition isRecognized (s : string) : bool :=
  (s =? "positive")%string || (s =? "neutral")%string || (s =? "negative")%string.

(** The number of records of [R] with the sentiment [s]. *)
Definition countOf (s : string) (R : list Comment) : Z :=
  Z.of_nat (List.length (filter (fun c => (sentiment c =? s)%string) R)).

Definition strongCount (sel : string) (R : list Comment) : Z :=
  Z.of_nat (List.length
              (filter (fun c => (strength c =? "strong")%string)
                 (filter (fun c => (sentiment c =? sel)%string) R))).

Definition weakCount (sel : string) (R : list Comment) : Z :=
  Z.of_nat (List.length
              (filter (fun c => (strength c =? "weak")%string)
                 (filter (fun c => (sentiment c =? sel)%string) R))).

(** [a <= b] on two finite numbers. *)
Definition Num_le (a b : Num) : Prop :=
  match a, b with
  | Finite x, Finite y => (x <= y)%Q
  | _, _ => False
  end.

(** The double nearest to [x], for [0 <= x], in lowest terms. *)
Definition dbl (x : Q) : Q := Qred (nearest x).

(** The size of a word whose count lies at the ratio [r] between the
    smallest and the largest count: [1 + r * 4] in doubles. *)
Definition sizeOf (r : Q) : Q := dbl (1 + dbl (dbl r * 4)).

(** An ASCII text: on such a text [length], [toLowerCase] and the class
    [\s] of the embedding are those of JavaScript. *)
Fixpoint asciiText (s : string) : bool :=
  match s with
  | EmptyString => true
  | String c r => (nat_of_ascii c <? 128)%nat && asciiText r
  end.

(** [floor(q / 30) * 30] *)
Definition slot (q : Q) : Z := Qfloor (q / 30) * 30.

(** The record has a numeric, non-zero timestamp that falls in
    [[b, b + 30)]. *)
Definition inBin (b : Z) (c : Comment) : bool :=
  match timestamp c with
  | TsNumber q =>
      negb (Qeq_bool q 0) && Qle_bool (inject_Z b) q && negb (Qle_bool (inject_Z (b + 30)) q)
  | TsString _ => false
  end.

(** The number of records of [R] in the bin [b] with the sentiment [s]. *)
Definition tally (s : string) (b : Z) (R : list Comment) : Z :=
  Z.of_nat (List.length
              (filter (fun c => inBin b c && (sentiment c =? s)%string) R)).

(** The number of records of [R] in the bin [b] whose sentiment is one of
    the three. *)
Definition tallyRecognized (b : Z) (R : list Comment) : Z :=
  Z.of_nat (List.length
              (filter (fun c => inBin b c && isRecognized (sentiment c)) R)).

(** The record [c] with the timestamp [f c]. *)
Definition retimed (f : Comment -> Timestamp) (c : Comment) : Comment :=
  {| id := id c; text := text c; sentiment := sentiment c; strength := strength c;
     topic := topic c; timestamp := f c; emojis := emojis c |}.

(** The all-lower-case names that every object inherits from
    [Object.prototype]; a token equal to one of them is outside the model of
    objects. *)
Definition inheritedName (k : string) : bool :=
  (k =? "constructor")%string || (k =? "__proto__")%string.

(** The record has a numeric timestamp read as seconds: non-negative and
    below [1e12]. *)
Definition seconds (c : Comment) : Prop :=
  exists q, timestamp c = TsNumber q /\ (0 <= q)%Q /\ (q < 1000000000000)%Q.

(** [floor(timestamp / 30) * 30] for a record with a numeric, non-zero
    timestamp. *)
Definition slotOf (c : Comment) : option Z :=
  match timestamp c with
  | TsNumber q => if Qeq_bool q 0 then None else Some (slot q)
  | TsString _ => None
  end.

(** The bins of the records of [R], in the order of their first record. *)
Definition binsSeen (R : list Comment) : list Z :=
  fold_left
    (fun acc c =>
       match slotOf c with
       | Some b => if existsb (Z.eqb b) acc then acc else (acc ++ [b])%list
       | None => acc
       end)
    R [].

(** The row that the bin [b] should carry for the records [R]. *)
Definition rowFor (R : list Comment) (b : Z) : Row :=
  {| bin := Some b;
     positive := tally "positive" b R;
     neutral := tally "neutral" b R;
     negative := tally "negative" b R |}.

(** The property of the map that holds the row [h b] of the bin [b]. *)
Definition entry (h : Z -> Row) (b : Z) : string * Row := (showZ b, h b).

Definition binKey (row : Row) : Z :=
  match bin row with Some b => b | None => 0 end.

End Popup.

(** Sample inputs of the popup. *)
Module PopupSamples.
Import Js.
Import Popup.

(** [Number] reads strings of decimal digits; no string is a date. *)
Definition sampleBuiltins : Builtins :=
  {| Number := fun s => match s with
                        | EmptyString => Some 0%Q
                        | _ => option_map inject_Z (digitsValue s 0)
                        end;
     Date_parse := fun _ => None |}.

Definition prediction (sentiment strength : option string) (ts : option Timestamp)
  : Prediction :=
  {| p_id := Some "c"; p_text := Some "love song"; p_sentiment := sentiment;
     p_sentimentStrength := strength; p_topic := None; p_timestamp := ts;
     p_emojis := None |}.

Definition comment (sentiment strength : string) (ts : Timestamp) : Comment :=
  {| id := Some "c"; text := Some "love song"; sentiment := sentiment;
     strength := strength; topic := "General"; timestamp := ts; emojis := [] |}.

End PopupSamples.

(** ** The popup: the other aggregations *)

Module PopupCharts.
Import Js.
Import Popup.

(** *** processTopicSentimentData *)

(** The property [topic] of a row: the topic the row was created with, or
    what [++] has made of it, a number or [NaN]. *)
Inductive TopicValue : Type :=
| Named (s : string)
| Numeric (q : Q)
| NotANumber.

(** A row of the topic matrix.  [t_others] lists the further properties
    that [++] has created on the row, in the order of their creation; each of
    them holds [NaN]. *)
Record TopicRow : Type := {
  t_topic : TopicValue;
  t_positive : Z;
  t_neutral : Z;
  t_negative : Z;
  t_others : list string
}.

(** [row[s]++]: a counter is incremented; the topic is converted to a
    number first; any other name becomes a property that holds [NaN], except
    [__proto__], whose setter ignores a number. *)
Definition increment {B : Builtins} (s : string) (row : TopicRow) : TopicRow :=
  if (s =? "topic")%string then
    {| t_topic := match t_topic row with
                  | Named n => match Number n with
                               | Some q => Numeric (q + 1)%Q
                               | None => NotANumber
                               end
                  | Numeric q => Numeric (q + 1)%Q
                  | NotANumber => NotANumber
                  end;
       t_positive := t_positive row; t_neutral := t_neutral row;
       t_negative := t_negative row; t_others := t_others row |}
  else if (s =? "positive")%string then
    {| t_topic := t_topic row;
       t_positive := t_positive row + 1; t_neutral := t_neutral row;
       t_negative := t_negative row; t_others := t_others row |}
  else if (s =? "neutral")%string then
    {| t_topic := t_topic row;
       t_positive := t_positive row; t_neutral := t_neutral row + 1;
       t_negative := t_negative row; t_others := t_others row |}
  else if (s =? "negative")%string then
    {| t_topic := t_topic row;
       t_positive := t_positive row; t_neutral := t_neutral row;
       t_negative := t_negative row + 1; t_others := t_others row |}
  else if (s =? "__proto__")%string || existsb (String.eqb s) (t_others row) then row
  else
    {| t_topic := t_topic row;
       t_positive := t_positive row; t_neutral := t_neutral row;
       t_negative := t_negative row; t_others := (t_others row ++ [s])%list |}.

(** The object literal with which a row is created. *)
Definition newTopicRow (t : string) : TopicRow :=
  {| t_topic := Named t; t_positive := 0; t_neutral := 0; t_negative := 0;
     t_others := [] |}.

(** The callback of the [forEach] of [processTopicSentimentData]. *)
Definition topicStep {B : Builtins} (topics : Obj TopicRow) (c : Comment)
  : Obj TopicRow :=
  let row := match get (topic c) topics with
             | Some r => r
             | None => newTopicRow (topic c)
             end in
  set (topic c) (increment (sentiment c) row) topics.

Definition processTopicSentimentData {B : Builtins} (commentsData : list Comment)
  : list TopicRow :=
  Object_values (fold_left topicStep commentsData []).

(** *** processEmojiData *)

(** [map[e] = (map[e] || 0) + 1] *)
Definition countEmoji (map : Obj Z) (e : string) : Obj Z :=
  set e (orZero (get e map) + 1) map.

Definition emojiCounts (commentsData : list Comment) : Obj Z :=
  fold_left (fun map c => fold_left countEmoji (emojis c) map) commentsData [].

Definition processEmojiData (commentsData : list Comment) : list (string * Z) :=
  firstn 6 (sortBy (fun a b => snd b - snd a) (Object_entries (emojiCounts commentsData))).

(** *** renderOverallSentimentChart *)

(** The number that the numeral [q.toFixed(1)] denotes, counted in tenths. *)
Definition fixedTenths (q : Q) : Z :=
  if Qle_bool 0 q then tenthsOf q else - tenthsOf (- q).

(** The sign of [b[1] - a[1]], where [a[1]] and [b[1]] are the numerals
    [a.toFixed(1)] and [b.toFixed(1)]: the doubles that two numerals with one
    decimal denote compare as their tenths do (below [2^48]; a percentage is
    at most 100).  A difference that is [NaN] counts as [0] for the sort. *)
Definition compareFixed (a b : Num) : Z :=
  match b, a with
  | Finite y, Finite x => fixedTenths y - fixedTenths x
  | Infinity s, Finite _ => if s then -1 else 1
  | Finite _, Infinity t => if t then 1 else -1
  | Infinity s, Infinity t => if Bool.eqb s t then 0 else if s then -1 else 1
  | _, _ => 0
  end.

(** [v >= n / 10] and [v <= n / 10] for the numeral [v = x.toFixed(1)]. *)
Definition fixedGe (x : Num) (n : Z) : bool :=
  match x with
  | Finite q => n <=? fixedTenths q
  | Infinity s => negb s
  | NaN => false
  end.

Definition fixedLe (x : Num) (n : Z) : bool :=
  match x with
  | Finite q => fixedTenths q <=? n
  | Infinity s => s
  | NaN => false
  end.

(** The trend indicator: the arrow to both sides, the arrow up, the arrow
    down. *)
Inductive Trend : Type := Steady | Rising | Falling.

(** What [renderOverallSentimentChart] computes before it draws. *)
Record Overall : Type := {
  o_total : Z;
  positivePct : string;
  neutralPct : string;
  negativePct : string;
  dominantSentiment : string;
  dominantValue : string;
  trendSymbol : Trend
}.

(** [None] when the function returns before drawing.  The three counts are
    read from properties that the object of [getSentimentCounts] has from
    its creation.  The object [sentimentPercentages] holds the three
    numerals; here it holds the numbers that they print. *)
Definition renderOverallSentimentChart (commentsData : list Comment) : option Overall :=
  let counts := getSentimentCounts commentsData in
  let positive := orZero (get "positive" counts) in
  let neutral := orZero (get "neutral" counts) in
  let negative := orZero (get "negative" counts) in
  let total := positive + neutral + negative in
  if total =? 0 then None
  else
    let sentimentPercentages : Obj Num :=
      [("Positive", percent positive total); ("Neutral", percent neutral total);
       ("Negative", percent negative total)] in
    match sortBy (fun a b => compareFixed (snd a) (snd b))
            (Object_entries sentimentPercentages) with
    | (name, value) :: _ =>
        Some {| o_total := total;
                positivePct := toFixed1 (percent positive total);
                neutralPct := toFixed1 (percent neutral total);
                negativePct := toFixed1 (percent negative total);
                dominantSentiment := name;
                dominantValue := toFixed1 value;
                trendSymbol := if fixedGe value 600 then Rising
                               else if fixedLe value 300 then Falling
                               else Steady |}
    | [] => None
    end.

(** *** renderTimelineChart *)

(** The time in the title of the tooltip of the timeline for the point of a
    row, which follows the clock sign: [formatTime(labels[i])], where
    [labels] holds the bins of the rows.  A bin that is [NaN] is falsy. *)
Definition tooltipTime {B : Builtins} (row : Row) : string :=
  match bin row with
  | Some b => formatTime (TsNumber (inject_Z b))
  | None => "00:00"
  end.

(** *** Notions used in the statements *)

(** The percentage of [count] in [total] as it is printed, counted in
    tenths. *)
Definition tenths (count total : Z) : Z :=
  match percent count total with
  | Finite q => fixedTenths q
  | _ => 0
  end.

(** The names that every object inherits from [Object.prototype]; a key
    equal to one of them is outside the model of objects. *)
Definition inheritedKey (k : string) : bool :=
  existsb (String.eqb k)
    ["constructor"; "__proto__"; "__defineGetter__"; "__defineSetter__";
     "__lookupGetter__"; "__lookupSetter__"; "hasOwnProperty"; "isPrototypeOf";
     "propertyIsEnumerable"; "toLocaleString"; "toString"; "valueOf"].

(** The keys [seen], followed by the other elements of [l] in the order of
    their first occurrence. *)
Definition firstSeen (seen l : list string) : list string :=
  fold_left (fun acc e => if existsb (String.eqb e) acc then acc else (acc ++ [e])%list)
    l seen.

(** The number of occurrences of [e] in [l]. *)
Definition occurrences (e : string) (l : list string) : Z :=
  Z.of_nat (List.length (filter (String.eqb e) l)).

(** The object that holds the value [f k] under each key [k] of [ks]. *)
Definition keyed {V} (f : string -> V) (ks : list string) : Obj V :=
  map (fun k => (k, f k)) ks.

(** The number of records of [R] with the topic [t] and the sentiment [s]. *)
Definition topicCount (t s : string) (R : list Comment) : Z :=
  Z.of_nat (List.length
              (filter (fun c => (topic c =? t)%string && (sentiment c =? s)%string) R)).

(** The row that the topic [t] should carry for the records [R]. *)
Definition topicRowFor (R : list Comment) (t : string) : TopicRow :=
  {| t_topic := Named t;
     t_positive := topicCount t "positive" R;
     t_neutral := topicCount t "neutral" R;
     t_negative := topicCount t "negative" R;
     t_others := [] |}.

(** The row [row] after the records [R] have been counted under the topic
    [t]. *)
Definition withCounts (row : TopicRow) (t : string) (R : list Comment) : TopicRow :=
  {| t_topic := t_topic row;
     t_positive := t_positive row + topicCount t "positive" R;
     t_neutral := t_neutral row + topicCount t "neutral" R;
     t_negative := t_negative row + topicCount t "negative" R;
     t_others := t_others row |}.

(** The sum of the three counts of a row. *)
Definition rowTotal (row : TopicRow) : Z :=
  t_positive row + t_neutral row + t_negative row.

(** The sum of a list of numbers. *)
Definition sumZ (l : list Z) : Z := fold_right Z.add 0 l.

(** All the emojis of the records, in order. *)
Definition allEmojis (R : list Comment) : list string := flat_map emojis R.

(** The words of the cleaned texts, before the filter. *)
Definition tokens (texts : list string) : list string :=
  splitSpaces (join " " texts) EmptyString false.

(** The test of the [forEach] over the words. *)
Definition keepsWord (w : string) : bool :=
  (2 <? String.length w)%nat && negb (isStopWord w).

(** Every character of [s] passes the test [p]. *)
Fixpoint allChars (p : ascii -> bool) (s : string) : bool :=
  match s with
  | EmptyString => true
  | String c r => p c && allChars p r
  end.

(** A character that [toLowerCase] leaves as it is and that the
    regular expression of [replace] does not remove. *)
Definition plainChar (c : ascii) : bool :=
  negb (isPunctuation c) && Ascii.eqb (lowerAscii c) c.

(** A plain character that is not a space. *)
Definition wordChar (c : ascii) : bool := negb (isSpace c) && plainChar c.

(** The two digits of a number below 100. *)
Definition twoDigits (n : Z) : string := showZ (n / 10) ++ showZ (n mod 10).

(** A record as [updateCommentsData] leaves it. *)
Definition normalized (c : Comment) : Prop :=
  sentiment c <> "" /\ strength c <> "" /\ topic c <> ""
  /\ toLowerCase (sentiment c) = sentiment c
  /\ toLowerCase (strength c) = strength c
  /\ (falsyTimestamp (timestamp c) = true -> timestamp c = TsNumber 0).

End PopupCharts.

(** ** Observations on traces *)

Module Obs.
Import Js.
Import Background.

Definition fetchesOf (t : list Event) : list string :=
  flat_map (fun e => match e with EvFetch u => [u] | _ => [] end) t.

Definition sleepsOf (t : list Event) : list Z :=
  flat_map (fun e => match e with EvSleep ms => [ms] | _ => [] end) t.

Definition responsesOf (t : list Event) : list Response :=
  flat_map (fun e => match e with EvResponse r => [r] | _ => [] end) t.

Definition isLog (e : Event) : bool :=
  match e with EvLog _ _ => true | _ => false end.

(** The network side of a trace: requests and pauses, in order. *)
Definition isNetEvent (e : Event) : bool :=
  match e with EvFetch _ | EvSleep _ => true | _ => false end.

Definition netEvents (t : list Event) : list Event := filter isNetEvent t.

(** What one attempt makes of an answer of the source: [attempt] run on a
    source that gives this answer. *)
Definition outcomeOf {RT : Runtime} (o : FetchOutcome) : Outcome Json :=
  match attempt (fun _ _ => o) "" world0 with
  | Some (r, _) => r
  | None => Throw (mkError "")
  end.

Definition legacyOutcomeOf {RT : Runtime} (o : FetchOutcome) : Outcome Json :=
  match Legacy.attempt (fun _ _ => o) "" world0 with
  | Some (r, _) => r
  | None => Throw (mkError "")
  end.

Definition fails {A} (o : Outcome A) : bool :=
  match o with Throw _ => true | Return _ => false end.

(** The text that [err?.message || String(err)] gives for a failed outcome. *)
Definition reasonOf {A} (o : Outcome A) : string :=
  match o with Throw e => errText e | Return _ => "" end.

(** The schedule that the retry policy is said to follow, written from its
    description: [n] requests of [url], and between attempt [i] and attempt
    [i + 1] (counted from 0) a pause of [delay * (1 + i)]. *)
Fixpoint linearSchedule (url : string) (delay : Z) (n : nat) (i : Z) : list Event :=
  match n with
  | O => []
  | S O => [EvFetch url]
  | S n' => EvFetch url :: EvSleep (delay * (1 + i)) :: linearSchedule url delay n' (i + 1)
  end.

(** The schedule of the older copy: the same requests, a constant pause. *)
Fixpoint constantSchedule (url : string) (delay : Z) (n : nat) : list Event :=
  match n with
  | O => []
  | S O => [EvFetch url]
  | S n' => EvFetch url :: EvSleep delay :: constantSchedule url delay n'
  end.

(** The first attempt that succeeds among attempts [k], ..., [k + n - 1],
    with its payload. *)
Fixpoint firstSuccess (outcomes : nat -> Outcome Json) (n k : nat)
  : option (nat * Json) :=
  match n with
  | O => None
  | S n' =>
      match outcomes k with
      | Return json => Some (k, json)
      | Throw _ => firstSuccess outcomes n' (S k)
      end
  end.

(** How many attempts are made when [n] are allowed. *)
Definition attemptsMade (outcomes : nat -> Outcome Json) (n : nat) : nat :=
  match firstSuccess outcomes n 0 with
  | Some (k, _) => S k
  | None => n
  end.

(** The message of the error thrown on exhaustion by the background script. *)
Definition exhaustedMessage (retries : Z) (reason : string) : string :=
  "Failed fetching URL after " ++ showZ retries ++ " attempts: " ++ reason.

(** The answer [o] of the source makes a walker ask for a further page:
    the attempt yields a payload whose [nextPageToken] is truthy. *)
Definition handsCursor {RT : Runtime} (o : FetchOutcome) : bool :=
  match outcomeOf o with
  | Return data =>
      match nextPageToken data with
      | Return t => truthy (Some t)
      | Throw _ => false
      end
  | Throw _ => false
  end.


(** The cursor that the answer [o] of the source hands to a walker, if
    any. *)
Definition cursorOf {RT : Runtime} (o : FetchOutcome) : option Json :=
  match outcomeOf o with
  | Return data =>
      match nextPageToken data with
      | Return t => if truthy (Some t) then Some t else None
      | Throw _ => None
      end
  | Throw _ => None
  end.

(** [url] is the request of some walk for the page that the cursor [tok]
    names. *)
Definition asksFor {RT : Runtime} (url : string) (tok : Json) : Prop :=
  (exists videoId apiKey, url = threadsUrl videoId apiKey tok)
  \/ (exists parentId apiKey, url = repliesUrl parentId apiKey tok).

(** The pages of the source run out: [rank n url] bounds the number of
    pages that can follow the answer of the [n]-th call to the request
    [url].  Whenever an answer hands out a cursor, every later request for
    the page that the cursor names has a smaller rank. *)
Definition pagesRunOut {RT : Runtime} (net : Network) (rank : nat -> string -> nat)
  : Prop :=
  forall n url tok,
    cursorOf (net n url) = Some tok ->
    forall n' url', (n < n')%nat -> asksFor url' tok -> (rank n' url' < rank n url)%nat.

(** The world after one more event. *)
Definition logged (w : World) (ev : Event) : World :=
  {| calls := calls w; trace := trace w ++ [ev] |}.

(** A computation that sends no response. *)
Definition quiet {A} (c : M A) : Prop :=
  forall w o w', c w = Some (o, w') ->
    exists d, trace w' = (trace w ++ d)%list /\ responsesOf d = [].

(** A computation that sends one response when it returns and none when it
    throws. *)
Definition answers {A} (c : M A) : Prop :=
  forall w o w', c w = Some (o, w') ->
    exists d, trace w' = (trace w ++ d)%list
              /\ (fails o = true -> responsesOf d = [])
              /\ (fails o = false -> exists r, responsesOf d = [r]).

(** A computation that sends one response and does not throw. *)
Definition answersOnce {A} (c : M A) : Prop :=
  forall w o w', c w = Some (o, w') ->
    fails o = false
    /\ exists d r, trace w' = (trace w ++ d)%list /\ responsesOf d = [r].

(** A computation that needs no fuel. *)
Definition total {A} (c : M A) : Prop :=
  forall w, exists o w', c w = Some (o, w').

Definition legacyExhaustedMessage (retries : Z) : string :=
  "Failed fetching URL after " ++ showZ retries ++ " attempts".

End Obs.

(** ** Sample inputs *)

Module Samples.
Import Js.
Import Background.

Definition dq : string := String "034"%char "".

(** A JSON string literal. *)
Definition qt (s : string) : string := dq ++ s ++ dq.

(** A page without items that names [a] as the next page. *)
Definition loopPageText : string :=
  "{" ++ qt "nextPageToken" ++ ":" ++ qt "a" ++ "}".

Definition loopPage : Json := JObj [("nextPageToken", JStr "a")].

(** A page of threads with one thread that has one reply. *)
Definition threadPageText : string :=
  "{" ++ qt "items" ++ ":[{" ++ qt "snippet" ++ ":{"
  ++ qt "totalReplyCount" ++ ":1,"
  ++ qt "topLevelComment" ++ ":{" ++ qt "id" ++ ":" ++ qt "c1" ++ ","
  ++ qt "snippet" ++ ":{" ++ qt "textDisplay" ++ ":" ++ qt "hello" ++ "}}}}]}".

Definition threadPage : Json :=
  JObj [("items",
         JArr [JObj [("snippet",
                      JObj [("totalReplyCount", JNum 1);
                            ("topLevelComment",
                             JObj [("id", JStr "c1");
                                   ("snippet", JObj [("textDisplay", JStr "hello")])])])]])].

(** A page of replies with one reply, and more pages to come. *)
Definition replyPageText : string :=
  "{" ++ qt "items" ++ ":[{" ++ qt "id" ++ ":" ++ qt "r1" ++ ","
  ++ qt "snippet" ++ ":{" ++ qt "textDisplay" ++ ":" ++ qt "first reply" ++ "}}],"
  ++ qt "nextPageToken" ++ ":" ++ qt "b" ++ "}".

Definition replyPage : Json :=
  JObj [("items",
         JArr [JObj [("id", JStr "r1");
                     ("snippet", JObj [("textDisplay", JStr "first reply")])]]);
        ("nextPageToken", JStr "b")].

(** [JSON.parse] restricted to the texts above. *)
Definition sampleParse (s : string) : option Json :=
  lookup s [("{}", JObj []);
            (loopPageText, loopPage);
            (threadPageText, threadPage);
            (replyPageText, replyPage)].

Definition sampleRuntime : Runtime := {|
  JSON_parse := sampleParse;
  Date_getTime := fun _ => None;
  matchEmojis := fun _ => [];
  encodeParam := fun s => s;
  URL_searchParam := fun _ _ => Some None;
  Number_ofString := fun _ => None
|}.

Definition okResponse (text : string) : FetchOutcome :=
  Responded {| ok := true; status := 200; statusText := "OK"; body := Some text |}.

(** An unreachable source: every [fetch] rejects. *)
Definition downNet : Network :=
  fun _ _ => Rejected (TypeError "Failed to fetch").

(** A source that answers every request with a page naming the same next
    page. *)
Definition loopNet : Network := fun _ _ => okResponse loopPageText.

(** A source with two pages: the first answer names a next page, every
    later answer is the last page. *)
Definition twoPageNet : Network :=
  fun n _ => match n with
             | 0%nat => okResponse loopPageText
             | _ => okResponse "{}"
             end.

(** The last character of a string. *)
Fixpoint lastChar (s : string) : option ascii :=
  match s with
  | EmptyString => None
  | String c EmptyString => Some c
  | String _ r => lastChar r
  end.

(** A request for the page that the cursor [a] names: with [sampleRuntime]
    its url ends with that cursor. *)
Definition asksForA (url : string) : bool :=
  match lastChar url with
  | Some c => Ascii.eqb c "a"
  | None => false
  end.

(** A source keyed by the url, with two pages in every list: the request
    that carries the cursor [a] gets the last page, every other request the
    first page, which names [a] as the next one. *)
Definition keyedNet : Network :=
  fun _ url => if asksForA url then okResponse "{}" else okResponse loopPageText.

(** The number of pages that follow the answer to [url] on [keyedNet]. *)
Definition keyedRank : nat -> string -> nat :=
  fun _ url => if asksForA url then 0%nat else 1%nat.

(** The thread of [threadPage], its comment and the reply of [replyPage]. *)
Definition threadItem : Json :=
  JObj [("snippet",
         JObj [("totalReplyCount", JNum 1);
               ("topLevelComment",
                JObj [("id", JStr "c1");
                      ("snippet", JObj [("textDisplay", JStr "hello")])])])].

Definition topComment : Comment :=
  {| id := Some (JStr "c1"); text := Some (JStr "hello"); timestamp := None;
     sentiment := JNull; sentimentStrength := JNull; topic := "General";
     emojis := [] |}.

Definition firstReply : Comment :=
  {| id := Some (JStr "r1"); text := Some (JStr "first reply"); timestamp := None;
     sentiment := JNull; sentimentStrength := JNull; topic := "General";
     emojis := [] |}.

(** A source that fails twice and then answers. *)
Definition flakyNet : Network :=
  fun n _ => if (n <? 2)%nat then Rejected (TypeError "Failed to fetch")
             else okResponse "{}".

(** The listener's collaborators around a source: no tab is needed, the key
    is stored, the analysis service answers with an empty object. *)
Definition envOf (source : Network) : Env :=
  {| net := source;
     activeTabs := None;
     ytApiKey := ReadValue (Some "key");
     analyze := fun _ => okResponse "{}";
     storageSetError := None |}.

Definition fetchCommentsRequest : Request :=
  {| action := "fetchComments"; videoId := Some "video" |}.

(** One thread with one reply; the first page of replies arrives, every
    later request fails. *)
Definition brokenRepliesNet : Network :=
  fun n _ =>
    match n with
    | 0%nat => okResponse threadPageText
    | 1%nat => okResponse replyPageText
    | _ => Rejected (TypeError "Failed to fetch")
    end.

(** The world in which the thread of [threadPage] is processed, and the
    world in which its reply walk ends on [brokenRepliesNet]. *)
Definition afterThreadPage : World := {| calls := 1; trace := [] |}.



End Samples.

(** ** Further observations on traces *)

Module Flow.
Import Js.
Import Background.
Import Obs.

(** The counts carried by the [progressUpdate] messages, in order. *)
Definition progressOf (t : list Event) : list nat :=
  flat_map (fun e => match e with
                     | EvSendMessage (ProgressUpdate n) => [n]
                     | _ => []
                     end) t.

(** The [updateUI] messages, in order. *)
Definition uiMessagesOf (t : list Event) : list Message :=
  flat_map (fun e => match e with
                     | EvSendMessage (ProgressUpdate _) => []
                     | EvSendMessage m => [m]
                     | _ => []
                     end) t.

(** The batches posted to the analysis service. *)
Definition postsOf (t : list Event) : list (list Comment) :=
  flat_map (fun e => match e with EvPost cs => [cs] | _ => [] end) t.

(** The values written to [chrome.storage.local]. *)
Definition storedOf (t : list Event) : list Json :=
  flat_map (fun e => match e with EvStorageSet d => [d] | _ => [] end) t.

(** The events of a page request: the request, a pause, a log line. *)
Definition isRequestEvent (e : Event) : bool :=
  match e with
  | EvFetch _ | EvSleep _ | EvLog _ _ => true
  | _ => false
  end.

(** The events of a walk over the threads: those of its page requests and
    the progress messages. *)
Definition isWalkEvent (e : Event) : bool :=
  match e with
  | EvFetch _ | EvSleep _ | EvLog _ _ | EvSendMessage (ProgressUpdate _) => true
  | _ => false
  end.

(** A computation all of whose events satisfy [P]. *)
Definition confined {A} (P : Event -> bool) (c : M A) : Prop :=
  forall w o w', c w = Some (o, w') ->
    exists d, trace w' = (trace w ++ d)%list /\ forallb P d = true.

(** The string that the emojis of a record are matched in: its text when
    that is a string, the empty string otherwise. *)
Definition textOf (c : Comment) : string :=
  match text c with
  | Some (JStr s) => s
  | _ => ""
  end.

(** A record as the walkers build it: the classification fields are
    placeholders and the emojis are those of its text. *)
Definition unclassified {RT : Runtime} (c : Comment) : Prop :=
  sentiment c = JNull /\ sentimentStrength c = JNull /\ topic c = "General"
  /\ emojis c = matchEmojis (textOf c).

(** A response that is not [ok] and has no body. *)
Definition bareError (code : Z) (reason : string) : FetchOutcome :=
  Responded {| ok := false; status := code; statusText := reason; body := None |}.

(** The active tab yields no video id: there is no tab, the tab has no url,
    or the url has no parameter [v] that is not empty. *)
Definition tabWithoutId {RT : Runtime} (env : Env) : Prop :=
  forall tab rest u v,
    activeTabs env = Some (tab :: rest) ->
    tab_url tab = Some u ->
    u <> "" ->
    URL_searchParam u "v" = Some (Some v) ->
    v = "".

(** The listener completes on the trigger, keeps the channel open, and has
    then sent exactly one response. *)
Definition answeredOnce {RT : Runtime} (env : Env) (fuel : nat) (request : Request)
    (w : World) : Prop :=
  exists w' d r,
    onMessage env fuel request w = Some (Return true, w')
    /\ trace w' = (trace w ++ d)%list
    /\ responsesOf d = [r].

(** The world in which the listener starts the pipeline of a trigger: the
    message and the start of the process have been logged. *)
Definition pipelineStart (w : World) : World :=
  logged (logged w (EvLog Info "Received message from content script:"))
    (EvLog Info "Starting fetchComments process for video ID:").

(** The value of [apiKey] in the listener: the stored key, [null] when the
    read fails or nothing is stored. *)
Definition storedKey (env : Env) : option string :=
  match ytApiKey env with
  | ReadFails _ => None
  | ReadValue v => v
  end.

End Flow.

(** Sample inputs of the ingestion engine, continued. *)
Module FlowSamples.
Import Js.
Import Background.
Import Obs.
Import Flow.
Import Samples.

(** A source that answers every request with the status 500 and no body. *)
Definition failingNet : Network := fun _ _ => bareError 500 "Internal Server Error".





(** The world at the end of the walk over [brokenRepliesNet], started in
    the empty world and started by the listener. *)
Definition brokenRunEnd : World :=
  Eval vm_compute in
    match fetchAllComments (RT := sampleRuntime) brokenRepliesNet 2 "video" "key" world0 with
    | Some (_, w) => w
    | None => world0
    end.

Definition listenerWalkEnd : World :=
  Eval vm_compute in
    match fetchAllComments (RT := sampleRuntime) brokenRepliesNet 2 "video" "key"
            (pipelineStart world0) with
    | Some (_, w) => w
    | None => world0
    end.

(** The world at the end of the walk that the listener starts on an
    unreachable source, and the error of that walk. *)
Definition listenerDownEnd : World :=
  Eval vm_compute in
    match fetchAllComments (RT := sampleRuntime) downNet 1 "video" "key"
            (pipelineStart world0) with
    | Some (_, w) => w
    | None => world0
    end.

Definition downError : JsError :=
  mkError ("Failed to fetch comments for video video: "
           ++ "Failed fetching URL after 3 attempts: Failed to fetch").

(** The collaborators of the listener right after the installation: the
    stored key is the empty string. *)
Definition keylessEnv : Env :=
  {| net := downNet;
     activeTabs := None;
     ytApiKey := ReadValue (Some "");
     analyze := fun _ => okResponse "{}";
     storageSetError := None |}.


(** The active tab shows a page that is not a video. *)
Definition otherTabEnv : Env :=
  {| net := downNet;
     activeTabs := Some [{| tab_url := Some "https://example.org/" |}];
     ytApiKey := ReadValue (Some "key");
     analyze := fun _ => okResponse "{}";
     storageSetError := None |}.

(** The trigger that the popup sends when it loads: it carries no id. *)
Definition popupRequest : Request := {| action := "fetchComments"; videoId := None |}.

End FlowSamples.

(** ** The content script *)

Module Content.
Import Js.
Import Background.

(** The messages that the content script hands to [safeSendMessage]. *)
Inductive Sent : Type :=
| VideoIdDetected (videoId : string)
| FetchComments (videoId : string).

(** [notifyBackground(videoId)], as a function of the variable
    [lastVideoId] before the call: the variable afterwards, and the messages
    that the call sends, in order.  [None] is [null].  [safeSendMessage]
    resolves whether or not a message is delivered, so the second message is
    sent whatever becomes of the first. *)
Definition notifyBackground (videoId lastVideoId : option string)
  : option string * list Sent :=
  match videoId with
  | None => (lastVideoId, [])
  | Some v =>
      if (v =? "")%string then (lastVideoId, [])
      else if match lastVideoId with
              | Some l => (v =? l)%string
              | None => false
              end
      then (lastVideoId, [])
      else (Some v, [VideoIdDetected v; FetchComments v])
  end.

(** The calls of [notifyBackground] for the video ids found one after the
    other, at load and after each change of the url: the variable at the
    end, and the messages of each call. *)
Fixpoint detections (ids : list (option string)) (lastVideoId : option string)
  : option string * list (list Sent) :=
  match ids with
  | [] => (lastVideoId, [])
  | videoId :: rest =>
      let (last1, sent) := notifyBackground videoId lastVideoId in
      let (last2, more) := detections rest last1 in
      (last2, sent :: more)
  end.

(** The message as the listener of the background script receives it. *)
Definition asRequest (m : Sent) : Request :=
  match m with
  | VideoIdDetected v => {| action := "videoIdDetected"; videoId := Some v |}
  | FetchComments v => {| action := "fetchComments"; videoId := Some v |}
  end.

(** The video ids for which comments are requested, in order. *)
Definition requested (calls : list (list Sent)) : list string :=
  flat_map (flat_map (fun m => match m with
                               | FetchComments v => [v]
                               | VideoIdDetected _ => []
                               end)) calls.

(** No two neighbours of the list are equal. *)
Fixpoint noRepeat (l : list string) : Prop :=
  match l with
  | a :: (b :: _) as rest => a <> b /\ noRepeat rest
  | _ => True
  end.

End Content.

(** ** The walkers of the older background script

    The copy of [fetchReplies] and [fetchAllComments] that is appended to
    [popup.js].  It calls the older [fetchWithRetry], reads
    [snippet.textDisplay] and [item.snippet] without a guard, has no [try]
    around the push of a comment, and rethrows the error of the walk as it
    is. *)

Module LegacyWalkers.
Import Js.
Import Background.
Local Open Scope js_scope.

Section WithRuntime.
Context {RT : Runtime}.
Variable net : Network.

(** [v.matchAll(...)], collected, where [v] is [snippet.textDisplay]. *)
Definition emojisOfText (v : JsVal) : Outcome (list string) :=
  match v with
  | Some (JStr s) => Return (matchEmojis s)
  | None => Throw (TypeError "Cannot read properties of undefined (reading 'matchAll')")
  | Some JNull => Throw (TypeError "Cannot read properties of null (reading 'matchAll')")
  | Some _ => Throw (TypeError "snippet.textDisplay.matchAll is not a function")
  end.

(** The callback of [forEach]: [Return None] is the early [return]. *)
Definition replyOfItem (item : Json) : Outcome (option Comment) :=
  match propOf item "snippet" with
  | Throw e => Throw e
  | Return snippet =>
      if negb (truthy snippet) then Return None
      else
        let textDisplay := optGet snippet "textDisplay" in
        match emojisOfText textDisplay with
        | Throw e => Throw e
        | Return emojis =>
            Return (Some {| id := getProp item "id";
                            text := if truthy textDisplay then textDisplay
                                    else Some (JStr "");
                            timestamp := publishedSeconds (optGet snippet "publishedAt");
                            sentiment := JNull;
                            sentimentStrength := JNull;
                            topic := "General";
                            emojis := emojis |})
        end
  end.

Fixpoint pushReplies (items : list Json) (replies : list Comment)
  : list Comment * option JsError :=
  match items with
  | [] => (replies, None)
  | item :: rest =>
      match replyOfItem item with
      | Throw e => (replies, Some e)
      | Return None => pushReplies rest replies
      | Return (Some c) => pushReplies rest (replies ++ [c])%list
      end
  end.

Fixpoint repliesLoop (fuel : nat) (parentId : JsVal) (apiKey : string)
    (pageToken : Json) (replies : list Comment)
  : M (list Comment * option JsError) :=
  match fuel with
  | O => fun _ => None
  | S fuel' =>
      r <- caught (Legacy.fetchWithRetry net (repliesUrl parentId apiKey pageToken) 3 1000) ;;
      match r with
      | Throw e => ret (replies, Some e)
      | Return data =>
          match forEachItems data with
          | Throw e => ret (replies, Some e)
          | Return items =>
              match pushReplies items replies with
              | (replies', Some e) => ret (replies', Some e)
              | (replies', None) =>
                  match nextPageToken data with
                  | Throw e => ret (replies', Some e)
                  | Return pageToken' =>
                      if truthy (Some pageToken')
                      then repliesLoop fuel' parentId apiKey pageToken' replies'
                      else ret (replies', None)
                  end
              end
          end
      end
  end.

Definition fetchReplies (fuel : nat) (parentId : JsVal) (apiKey : string)
  : M (list Comment) :=
  logInfo "Fetching replies for comment ID:" ;;
  r <- repliesLoop fuel parentId apiKey (JStr "") [] ;;
  match r with
  | (replies, None) => logInfo "Total replies fetched" ;; ret replies
  | (replies, Some err) => logError "Error fetching replies" ;; ret replies
  end.

(** The object literal pushed for a top-level comment; [snippet] is truthy. *)
Definition commentOfItem (item : Json) (snippet : JsVal) : Outcome Comment :=
  let textDisplay := optGet snippet "textDisplay" in
  match emojisOfText textDisplay with
  | Throw e => Throw e
  | Return emojis =>
      Return {| id := optGet (optGet (optGet (Some item) "snippet") "topLevelComment") "id";
                text := textDisplay;
                timestamp := publishedSeconds (optGet snippet "publishedAt");
                sentiment := JNull;
                sentimentStrength := JNull;
                topic := "General";
                emojis := emojis |}
  end.

(** [if (snippet) { comments.push(...) }]: the array afterwards, or the
    error of the push. *)
Definition pushTopLevel (item : Json) (comments : list Comment)
  : Outcome (list Comment) :=
  let snippet := topLevelSnippet item in
  if truthy snippet then
    match commentOfItem item snippet with
    | Return c => Return (comments ++ [c])%list
    | Throw e => Throw e
    end
  else Return comments.

(** The body of the [for ... of] over one page of threads. *)
Fixpoint commentsOfItems (rfuel : nat) (apiKey : string) (items : list Json)
    (comments : list Comment) : M (list Comment * option JsError) :=
  match items with
  | [] => ret (comments, None)
  | item :: rest =>
      match pushTopLevel item comments with
      | Throw e => ret (comments, Some e)
      | Return comments1 =>
          match propOf item "snippet" with
          | Throw e => ret (comments1, Some e)
          | Return s =>
              match propOfV s "totalReplyCount" with
              | Throw e => ret (comments1, Some e)
              | Return count =>
                  if gtZero count then
                    match propOfV (optGet s "topLevelComment") "id" with
                    | Throw e => ret (comments1, Some e)
                    | Return parentId =>
                        logInfo "Fetching replies for parent ID:" ;;
                        replies <- fetchReplies rfuel parentId apiKey ;;
                        commentsOfItems rfuel apiKey rest (comments1 ++ replies)%list
                    end
                  else commentsOfItems rfuel apiKey rest comments1
              end
          end
      end
  end.

(** The [do ... while (pageToken)] of [fetchAllComments]. *)
Fixpoint commentsLoop (rfuel fuel : nat) (videoId apiKey : string)
    (pageToken : Json) (comments : list Comment)
  : M (list Comment * option JsError) :=
  match fuel with
  | O => fun _ => None
  | S fuel' =>
      logInfo "Fetching comments batch with pageToken:" ;;
      r <- caught (Legacy.fetchWithRetry net (threadsUrl videoId apiKey pageToken) 3 1000) ;;
      match r with
      | Throw e => ret (comments, Some e)
      | Return data =>
          match forOfItems data with
          | Throw e => ret (comments, Some e)
          | Return items =>
              r' <- commentsOfItems rfuel apiKey items comments ;;
              match r' with
              | (comments', Some e) => ret (comments', Some e)
              | (comments', None) =>
                  match nextPageToken data with
                  | Throw e => ret (comments', Some e)
                  | Return pageToken' =>
                      emit (EvSendMessage (ProgressUpdate (List.length comments'))) ;;
                      logInfo "Fetched comments so far..." ;;
                      sleep 200 ;;
                      if truthy (Some pageToken')
                      then commentsLoop rfuel fuel' videoId apiKey pageToken' comments'
                      else ret (comments', None)
                  end
              end
          end
      end
  end.

Definition fetchAllComments (fuel : nat) (videoId apiKey : string)
  : M (list Comment) :=
  logInfo "Starting fetchAllComments" ;;
  r <- commentsLoop fuel fuel videoId apiKey (JStr "") [] ;;
  match r with
  | (comments, None) => logInfo "Total comments fetched" ;; ret comments
  | (comments, Some err) => logError "Error fetching all comments" ;; throw err
  end.

End WithRuntime.

End LegacyWalkers.

(** ** Properties of fetchWithRetry *)

Import Js Background Obs.
Local Open Scope js_scope.

(** Case analysis on what [JSON.parse] and the truthiness tests give, then
    the list of logged events is read off the goal. *)
Ltac by_cases_on_body :=
  repeat (cbn;
          match goal with
          | |- context [match JSON_parse ?x with _ => _ end] => destruct (JSON_parse x)
          | |- context [if truthy ?x then _ else _] => destruct (truthy x)
          end);
  cbn; eexists; rewrite <- ?app_assoc; cbn; split; reflexivity.

Section RetryFacts.
Context {RT : Runtime}.
Variable net : Network.

Lemma attempt_outcome (url : string) (w : World) :
  exists logs,
    attempt net url w
    = Some (outcomeOf (net (calls w) url),
            {| calls := S (calls w); trace := trace w ++ EvFetch url :: logs |})
    /\ forallb isLog logs = true.
Proof.
  unfold outcomeOf, attempt, fetch, bind, tryCatch, logWarn, logInfo, log, emit, ret, throw.
  destruct w as [c t]; cbn [calls trace].
  destruct (net c url) as [e | [k st stx [b|]]]; cbn.
  - exists []. rewrite <- ?app_assoc. split; reflexivity.
  - destruct k; by_cases_on_body.
  - destruct k; by_cases_on_body.
Qed.

Lemma netEvents_app (a b : list Event) :
  netEvents (a ++ b) = (netEvents a ++ netEvents b)%list.
Proof. apply filter_app. Qed.

Lemma netEvents_logs (logs : list Event) :
  forallb isLog logs = true -> netEvents logs = [].
Proof.
  induction logs as [| e logs IH]; cbn; [reflexivity |].
  destruct e; cbn; try discriminate; auto.
Qed.

Lemma netEvents_attempt (u : string) (logs rest : list Event) :
  forallb isLog logs = true ->
  netEvents ((EvFetch u :: logs) ++ rest) = EvFetch u :: netEvents rest.
Proof.
  intros H. rewrite netEvents_app. cbn. fold (netEvents logs).
  rewrite (netEvents_logs _ H). reflexivity.
Qed.

Lemma linearSchedule_step (u : string) (dl : Z) (n : nat) (i : Z) :
  linearSchedule u dl (S (S n)) i
  = EvFetch u :: EvSleep (dl * (1 + i)) :: linearSchedule u dl (S n) (i + 1).
Proof. reflexivity. Qed.

Variables (url : string) (retries delay : Z).

(** Every attempt fails: the loop runs to its last iteration and throws. *)
Lemma attempts_exhausted :
  forall (n : nat) (i : Z) (w : World),
    (1 <= n)%nat ->
    i + Z.of_nat n = retries ->
    (forall k, (k < n)%nat -> fails (outcomeOf (net (calls w + k)%nat url)) = true) ->
    exists d,
      attempts net url retries delay n i w
      = Some (Throw (mkError (exhaustedMessage retries
                                (reasonOf (outcomeOf (net (calls w + (n - 1))%nat url))))),
              {| calls := calls w + n; trace := trace w ++ d |})
      /\ netEvents d = linearSchedule url delay n i.
Proof.
  induction n as [| n IH]; intros i w Hn Hi Hfail; [lia |].
  cbn [attempts]. unfold tryCatch.
  destruct (attempt_outcome url w) as (logs & -> & Hlogs).
  pose proof (Hfail 0%nat ltac:(lia)) as H0. rewrite Nat.add_0_r in H0.
  destruct (outcomeOf (net (calls w) url)) as [j | e] eqn:Ho; [discriminate |].
  unfold bind, logWarn, logInfo, logError, log, sleep, emit, throw; cbn [calls trace].
  destruct n as [| n].
  - (* the last iteration *)
    replace (i <? retries - 1) with false by (symmetry; apply Z.ltb_ge; lia).
    cbn [calls trace].
    eexists. split.
    + rewrite <- !app_assoc. replace (calls w + (1 - 1))%nat with (calls w) by lia.
      rewrite Ho. replace (calls w + 1)%nat with (S (calls w)) by lia. reflexivity.
    + rewrite (netEvents_attempt _ _ _ Hlogs). reflexivity.
  - replace (i <? retries - 1) with true by (symmetry; apply Z.ltb_lt; lia).
    cbn [calls trace].
    match goal with
    | |- context [attempts _ _ _ _ _ _ ?w1] =>
        destruct (IH (i + 1) w1) as (d & Hd & Hsched)
    end.
    + lia.
    + lia.
    + intros k Hk. cbn [calls].
      replace (S (calls w) + k)%nat with (calls w + S k)%nat by lia.
      apply Hfail. lia.
    + rewrite Hd. cbn [calls trace].
      eexists. split.
      * rewrite <- !app_assoc.
        replace (S (calls w) + (S n - 1))%nat with (calls w + (S (S n) - 1))%nat by lia.
        replace (S (calls w) + S n)%nat with (calls w + S (S n))%nat by lia.
        reflexivity.
      * rewrite linearSchedule_step, <- Hsched.
        rewrite (netEvents_attempt _ _ _ Hlogs). reflexivity.
Qed.

(** Attempt [k] is the first that succeeds: its payload is returned. *)
Lemma attempts_first_success :
  forall (k n : nat) (i : Z) (w : World) (json : Json),
    (k < n)%nat ->
    i + Z.of_nat n = retries ->
    (forall j, (j < k)%nat -> fails (outcomeOf (net (calls w + j)%nat url)) = true) ->
    outcomeOf (net (calls w + k)%nat url) = Return json ->
    exists d,
      attempts net url retries delay n i w
      = Some (Return json, {| calls := calls w + S k; trace := trace w ++ d |})
      /\ netEvents d = linearSchedule url delay (S k) i.
Proof.
  induction k as [| k IH]; intros n i w json Hk Hi Hfail Hok;
    (destruct n as [| n]; [lia |]);
    cbn [attempts]; unfold tryCatch;
    destruct (attempt_outcome url w) as (logs & -> & Hlogs).
  - rewrite Nat.add_0_r in Hok. rewrite Hok.
    eexists. split.
    + replace (calls w + 1)%nat with (S (calls w)) by lia. reflexivity.
    + rewrite <- (app_nil_r (EvFetch url :: logs)).
      rewrite (netEvents_attempt _ _ _ Hlogs). reflexivity.
  - pose proof (Hfail 0%nat ltac:(lia)) as H0. rewrite Nat.add_0_r in H0.
    destruct (outcomeOf (net (calls w) url)) as [j | e] eqn:Ho; [discriminate |].
    unfold bind, logWarn, logInfo, logError, log, sleep, emit, throw; cbn [calls trace].
    replace (i <? retries - 1) with true by (symmetry; apply Z.ltb_lt; lia).
    cbn [calls trace].
    match goal with
    | |- context [attempts _ _ _ _ _ _ ?w1] =>
        destruct (IH n (i + 1) w1 json) as (d & Hd & Hsched)
    end.
    + lia.
    + lia.
    + intros j' Hj. cbn [calls].
      replace (S (calls w) + j')%nat with (calls w + S j')%nat by lia.
      apply Hfail. lia.
    + cbn [calls]. replace (S (calls w) + k)%nat with (calls w + S k)%nat by lia.
      exact Hok.
    + rewrite Hd. cbn [calls trace].
      eexists. split.
      * rewrite <- !app_assoc.
        replace (S (calls w) + S k)%nat with (calls w + S (S k))%nat by lia.
        reflexivity.
      * rewrite linearSchedule_step, <- Hsched.
        rewrite (netEvents_attempt _ _ _ Hlogs). reflexivity.
Qed.

End RetryFacts.

Section LegacyRetryFacts.
Context {RT : Runtime}.
Variable net : Network.

Lemma legacy_attempt_outcome (url : string) (w : World) :
  exists logs,
    Legacy.attempt net url w
    = Some (legacyOutcomeOf (net (calls w) url),
            {| calls := S (calls w); trace := trace w ++ EvFetch url :: logs |})
    /\ forallb isLog logs = true.
Proof.
  unfold legacyOutcomeOf, Legacy.attempt, fetch, bind, tryCatch,
    logWarn, logInfo, log, emit, ret, throw.
  destruct w as [c t]; cbn [calls trace].
  destruct (net c url) as [e | [k st stx [b|]]]; cbn.
  - exists []. rewrite <- ?app_assoc. split; reflexivity.
  - destruct k; by_cases_on_body.
  - exists []. rewrite <- ?app_assoc. split; reflexivity.
Qed.

Lemma constantSchedule_step (u : string) (dl : Z) (n : nat) :
  constantSchedule u dl (S (S n))
  = EvFetch u :: EvSleep dl :: constantSchedule u dl (S n).
Proof. reflexivity. Qed.

Variables (url : string) (retries delay : Z).

(** Every attempt fails: the loop is left at its end and the statement
    after it throws. *)
Lemma legacy_attempts_exhausted :
  forall (n : nat) (i : Z) (w : World),
    i + Z.of_nat n = retries ->
    (forall k, (k < n)%nat -> fails (legacyOutcomeOf (net (calls w + k)%nat url)) = true) ->
    exists d,
      Legacy.attempts net url retries delay n i w
      = Some (Throw (mkError ("Failed fetching URL after " ++ showZ retries ++ " attempts")),
              {| calls := calls w + n; trace := trace w ++ d |})
      /\ netEvents d = constantSchedule url delay n.
Proof.
  induction n as [| n IH]; intros i w Hi Hfail.
  - cbn. exists []. rewrite app_nil_r, Nat.add_0_r. destruct w; split; reflexivity.
  - cbn [Legacy.attempts]. unfold bind at 1. unfold caught.
    destruct (legacy_attempt_outcome url w) as (logs & -> & Hlogs).
    pose proof (Hfail 0%nat ltac:(lia)) as H0. rewrite Nat.add_0_r in H0.
    destruct (legacyOutcomeOf (net (calls w) url)) as [j | e] eqn:Ho; [discriminate |].
    unfold bind, logWarn, logInfo, logError, log, sleep, emit, throw; cbn [calls trace].
    destruct n as [| n].
    + replace (i <? retries - 1) with false by (symmetry; apply Z.ltb_ge; lia).
      cbn [calls trace Legacy.attempts]. unfold throw.
      eexists. split.
      * rewrite <- !app_assoc. replace (calls w + 1)%nat with (S (calls w)) by lia.
        reflexivity.
      * rewrite (netEvents_attempt _ _ _ Hlogs). reflexivity.
    + replace (i <? retries - 1) with true by (symmetry; apply Z.ltb_lt; lia).
      cbn [calls trace].
      match goal with
      | |- context [Legacy.attempts _ _ _ _ _ _ ?w1] =>
          destruct (IH (i + 1) w1) as (d & Hd & Hsched)
      end.
      * lia.
      * intros k Hk. cbn [calls].
        replace (S (calls w) + k)%nat with (calls w + S k)%nat by lia.
        apply Hfail. lia.
      * rewrite Hd. cbn [calls trace].
        eexists. split.
        -- rewrite <- !app_assoc.
           replace (S (calls w) + S n)%nat with (calls w + S (S n))%nat by lia.
           reflexivity.
        -- rewrite constantSchedule_step, <- Hsched.
           rewrite (netEvents_attempt _ _ _ Hlogs). reflexivity.
Qed.

Lemma legacy_attempts_first_success :
  forall (k n : nat) (i : Z) (w : World) (json : Json),
    (k < n)%nat ->
    i + Z.of_nat n = retries ->
    (forall j, (j < k)%nat -> fails (legacyOutcomeOf (net (calls w + j)%nat url)) = true) ->
    legacyOutcomeOf (net (calls w + k)%nat url) = Return json ->
    exists d,
      Legacy.attempts net url retries delay n i w
      = Some (Return json, {| calls := calls w + S k; trace := trace w ++ d |})
      /\ netEvents d = constantSchedule url delay (S k).
Proof.
  induction k as [| k IH]; intros n i w json Hk Hi Hfail Hok;
    (destruct n as [| n]; [lia |]);
    cbn [Legacy.attempts]; unfold bind at 1; unfold caught;
    destruct (legacy_attempt_outcome url w) as (logs & -> & Hlogs).
  - rewrite Nat.add_0_r in Hok. rewrite Hok. unfold ret.
    eexists. split.
    + replace (calls w + 1)%nat with (S (calls w)) by lia. reflexivity.
    + rewrite <- (app_nil_r (EvFetch url :: logs)).
      rewrite (netEvents_attempt _ _ _ Hlogs). reflexivity.
  - pose proof (Hfail 0%nat ltac:(lia)) as H0. rewrite Nat.add_0_r in H0.
    destruct (legacyOutcomeOf (net (calls w) url)) as [j | e] eqn:Ho; [discriminate |].
    unfold bind, logWarn, logInfo, logError, log, sleep, emit, throw; cbn [calls trace].
    replace (i <? retries - 1) with true by (symmetry; apply Z.ltb_lt; lia).
    cbn [calls trace].
    match goal with
    | |- context [Legacy.attempts _ _ _ _ _ _ ?w1] =>
        destruct (IH n (i + 1) w1 json) as (d & Hd & Hsched)
    end.
    + lia.
    + lia.
    + intros j' Hj. cbn [calls].
      replace (S (calls w) + j')%nat with (calls w + S j')%nat by lia.
      apply Hfail. lia.
    + cbn [calls]. replace (S (calls w) + k)%nat with (calls w + S k)%nat by lia.
      exact Hok.
    + rewrite Hd. cbn [calls trace].
      eexists. split.
      * rewrite <- !app_assoc.
        replace (S (calls w) + S k)%nat with (calls w + S (S k))%nat by lia.
        reflexivity.
      * rewrite constantSchedule_step, <- Hsched.
        rewrite (netEvents_attempt _ _ _ Hlogs). reflexivity.
Qed.

End LegacyRetryFacts.

(** ** What fetchWithRetry does, attempt by attempt *)

Lemma firstSuccess_some (o : nat -> Outcome Json) :
  forall n k0 k json,
    firstSuccess o n k0 = Some (k, json) ->
    (k0 <= k < k0 + n)%nat
    /\ (forall j, (k0 <= j < k)%nat -> fails (o j) = true)
    /\ o k = Return json.
Proof.
  induction n as [| n IH]; intros k0 k json H; cbn in H; [discriminate |].
  destruct (o k0) as [j0 | e] eqn:E.
  - inversion H; subst. repeat split; try lia. exact E.
  - apply IH in H as (Hr & Hf & Hk). repeat split; try lia; [| exact Hk].
    intros j Hj. destruct (Nat.eq_dec j k0) as [-> | Hne].
    + rewrite E. reflexivity.
    + apply Hf. lia.
Qed.

Lemma firstSuccess_none (o : nat -> Outcome Json) :
  forall n k0,
    firstSuccess o n k0 = None ->
    forall j, (k0 <= j < k0 + n)%nat -> fails (o j) = true.
Proof.
  induction n as [| n IH]; intros k0 H j Hj; [lia |].
  cbn in H. destruct (o k0) as [j0 | e] eqn:E; [discriminate |].
  destruct (Nat.eq_dec j k0) as [-> | Hne].
  - rewrite E. reflexivity.
  - apply (IH (S k0)); [exact H | lia].
Qed.

Lemma fetchesOf_netEvents (t : list Event) : fetchesOf (netEvents t) = fetchesOf t.
Proof.
  unfold fetchesOf, netEvents.
  induction t as [| e t IH]; [reflexivity |].
  destruct e; cbn; rewrite ?IH; reflexivity.
Qed.

Lemma sleepsOf_netEvents (t : list Event) : sleepsOf (netEvents t) = sleepsOf t.
Proof.
  unfold sleepsOf, netEvents.
  induction t as [| e t IH]; [reflexivity |].
  destruct e; cbn; rewrite ?IH; reflexivity.
Qed.

Lemma fetchesOf_linearSchedule (u : string) (dl : Z) :
  forall n i, fetchesOf (linearSchedule u dl n i) = repeat u n.
Proof.
  induction n as [| [| n] IH]; intros i; try reflexivity.
  rewrite linearSchedule_step. cbn [fetchesOf flat_map app].
  change (flat_map _ (linearSchedule u dl (S n) (i + 1)))
    with (fetchesOf (linearSchedule u dl (S n) (i + 1))).
  rewrite IH. reflexivity.
Qed.

Lemma sleepsOf_linearSchedule (u : string) (dl : Z) :
  forall n i,
    sleepsOf (linearSchedule u dl n i)
    = map (fun k => dl * (1 + (i + Z.of_nat k))) (seq 0 (n - 1)).
Proof.
  induction n as [| [| n] IH]; intros i; try reflexivity.
  rewrite linearSchedule_step. cbn [sleepsOf flat_map app].
  change (flat_map _ (linearSchedule u dl (S n) (i + 1)))
    with (sleepsOf (linearSchedule u dl (S n) (i + 1))).
  rewrite IH.
  replace (S (S n) - 1)%nat with (S (S n - 1)) by lia.
  cbn [seq map]. f_equal; [f_equal; lia |].
  rewrite <- seq_shift, map_map. apply map_ext. intros k. f_equal. lia.
Qed.

Lemma fetchesOf_constantSchedule (u : string) (dl : Z) :
  forall n, fetchesOf (constantSchedule u dl n) = repeat u n.
Proof.
  induction n as [| [| n] IH]; try reflexivity.
  rewrite constantSchedule_step. cbn [fetchesOf flat_map app].
  change (flat_map _ (constantSchedule u dl (S n)))
    with (fetchesOf (constantSchedule u dl (S n))).
  rewrite IH. reflexivity.
Qed.

Lemma sleepsOf_constantSchedule (u : string) (dl : Z) :
  forall n, sleepsOf (constantSchedule u dl n) = repeat dl (n - 1).
Proof.
  induction n as [| [| n] IH]; try reflexivity.
  rewrite constantSchedule_step. cbn [sleepsOf flat_map app].
  change (flat_map _ (constantSchedule u dl (S n)))
    with (sleepsOf (constantSchedule u dl (S n))).
  rewrite IH. replace (S (S n) - 1)%nat with (S (S n - 1)) by lia. reflexivity.
Qed.

Lemma fetchesOf_as_schedule (d s : list Event) :
  netEvents d = s -> fetchesOf d = fetchesOf s.
Proof. intros <-. symmetry. apply fetchesOf_netEvents. Qed.

Lemma sleepsOf_as_schedule (d s : list Event) :
  netEvents d = s -> sleepsOf d = sleepsOf s.
Proof. intros <-. symmetry. apply sleepsOf_netEvents. Qed.

(** The run of the hardened [fetchWithRetry], whatever the source answers. *)
Lemma fetchWithRetry_run {RT : Runtime} (net : Network) (url : string)
    (retries delay : Z) (w : World) :
  1 <= retries ->
  let n := Z.to_nat retries in
  let outcomes := fun k => outcomeOf (net (calls w + k)%nat url) in
  exists d,
    Background.fetchWithRetry net url retries delay w
    = Some (match firstSuccess outcomes n 0 with
            | Some (_, json) => Return json
            | None => Throw (mkError (exhaustedMessage retries
                                        (reasonOf (outcomes (n - 1)%nat))))
            end,
            {| calls := calls w + attemptsMade outcomes n; trace := trace w ++ d |})
    /\ netEvents d = linearSchedule url delay (attemptsMade outcomes n) 0.
Proof.
  intros Hr n outcomes.
  unfold Background.fetchWithRetry, bind at 1, logInfo, log, emit.
  set (w1 := {| calls := calls w; trace := (trace w ++ [EvLog Info "Starting fetchWithRetry"])%list |}).
  fold n. unfold attemptsMade.
  destruct (firstSuccess outcomes n 0) as [[k json] |] eqn:Hfs.
  - apply firstSuccess_some in Hfs as (Hk & Hf & Hok).
    destruct (attempts_first_success net url retries delay k n 0 w1 json)
      as (d & Hd & Hs); try lia.
    + intros j Hj. apply (Hf j). lia.
    + exact Hok.
    + rewrite Hd. subst w1; cbn [calls trace].
      exists (EvLog Info "Starting fetchWithRetry" :: d). split.
      * rewrite <- app_assoc. reflexivity.
      * exact Hs.
  - pose proof (firstSuccess_none _ _ _ Hfs) as Hf.
    destruct (attempts_exhausted net url retries delay n 0 w1)
      as (d & Hd & Hs); try lia.
    + intros k Hk. apply (Hf k). lia.
    + rewrite Hd. subst w1; cbn [calls trace].
      exists (EvLog Info "Starting fetchWithRetry" :: d). split.
      * rewrite <- app_assoc. reflexivity.
      * exact Hs.
Qed.

(** The run of the older copy. *)
Lemma legacy_fetchWithRetry_run {RT : Runtime} (net : Network) (url : string)
    (retries delay : Z) (w : World) :
  1 <= retries ->
  let n := Z.to_nat retries in
  let outcomes := fun k => legacyOutcomeOf (net (calls w + k)%nat url) in
  exists d,
    Legacy.fetchWithRetry net url retries delay w
    = Some (match firstSuccess outcomes n 0 with
            | Some (_, json) => Return json
            | None => Throw (mkError (legacyExhaustedMessage retries))
            end,
            {| calls := calls w + attemptsMade outcomes n; trace := trace w ++ d |})
    /\ netEvents d = constantSchedule url delay (attemptsMade outcomes n).
Proof.
  intros Hr n outcomes.
  unfold Legacy.fetchWithRetry, bind at 1, logInfo, log, emit.
  set (w1 := {| calls := calls w; trace := (trace w ++ [EvLog Info "Starting fetchWithRetry"])%list |}).
  fold n. unfold attemptsMade.
  destruct (firstSuccess outcomes n 0) as [[k json] |] eqn:Hfs.
  - apply firstSuccess_some in Hfs as (Hk & Hf & Hok).
    destruct (legacy_attempts_first_success net url retries delay k n 0 w1 json)
      as (d & Hd & Hs); try lia.
    + intros j Hj. apply (Hf j). lia.
    + exact Hok.
    + rewrite Hd. subst w1; cbn [calls trace].
      exists (EvLog Info "Starting fetchWithRetry" :: d). split.
      * rewrite <- app_assoc. reflexivity.
      * exact Hs.
  - pose proof (firstSuccess_none _ _ _ Hfs) as Hf.
    destruct (legacy_attempts_exhausted net url retries delay n 0 w1)
      as (d & Hd & Hs); try lia.
    + intros k Hk. apply (Hf k). lia.
    + rewrite Hd. subst w1; cbn [calls trace].
      exists (EvLog Info "Starting fetchWithRetry" :: d). split.
      * rewrite <- app_assoc. reflexivity.
      * exact Hs.
Qed.

(** C4, amended.  With [retries >= 1], [fetchWithRetry] makes one attempt
    after the other until one yields a parsed payload, which it returns, or
    until [retries] attempts have failed.  In the background script the
    pause after the failed attempt [i] (counted from 0) is
    [delay * (1 + i)], and on exhaustion the error message is
    "Failed fetching URL after <retries> attempts: <reason of the last
    failure>": the count and the last reason, not the url.  In the older
    copy kept in popup.js every pause is [delay] and the message is
    "Failed fetching URL after <retries> attempts", without a reason. *)
Theorem fetchWithRetry_policy {RT : Runtime} (net : Network) (url : string)
    (retries delay : Z) (w : World) :
  1 <= retries ->
  let n := Z.to_nat retries in
  let outcomes := fun k => outcomeOf (net (calls w + k)%nat url) in
  let legacy := fun k => legacyOutcomeOf (net (calls w + k)%nat url) in
  (exists d,
     Background.fetchWithRetry net url retries delay w
     = Some (match firstSuccess outcomes n 0 with
             | Some (_, json) => Return json
             | None => Throw (mkError (exhaustedMessage retries
                                         (reasonOf (outcomes (n - 1)%nat))))
             end,
             {| calls := calls w + attemptsMade outcomes n; trace := trace w ++ d |})
     /\ fetchesOf d = repeat url (attemptsMade outcomes n)
     /\ sleepsOf d = map (fun i => delay * (1 + Z.of_nat i))
                         (seq 0 (attemptsMade outcomes n - 1))
     /\ netEvents d = linearSchedule url delay (attemptsMade outcomes n) 0)
  /\ (exists d,
        Legacy.fetchWithRetry net url retries delay w
        = Some (match firstSuccess legacy n 0 with
                | Some (_, json) => Return json
                | None => Throw (mkError (legacyExhaustedMessage retries))
                end,
                {| calls := calls w + attemptsMade legacy n; trace := trace w ++ d |})
        /\ fetchesOf d = repeat url (attemptsMade legacy n)
        /\ sleepsOf d = repeat delay (attemptsMade legacy n - 1)
        /\ netEvents d = constantSchedule url delay (attemptsMade legacy n)).
Proof.
  intros Hr n outcomes legacy. split.
  - destruct (fetchWithRetry_run net url retries delay w Hr) as (d & Hd & Hs).
    exists d. repeat split; [exact Hd | | | exact Hs].
    + rewrite (fetchesOf_as_schedule _ _ Hs). apply fetchesOf_linearSchedule.
    + rewrite (sleepsOf_as_schedule _ _ Hs), sleepsOf_linearSchedule.
      apply map_ext. intros k. f_equal.
  - destruct (legacy_fetchWithRetry_run net url retries delay w Hr) as (d & Hd & Hs).
    exists d. repeat split; [exact Hd | | | exact Hs].
    + rewrite (fetchesOf_as_schedule _ _ Hs). apply fetchesOf_constantSchedule.
    + rewrite (sleepsOf_as_schedule _ _ Hs). apply sleepsOf_constantSchedule.
Qed.

Import Samples.

(** An unreachable source and three attempts: three requests, pauses of
    1000 and 2000, and the error of the background script. *)
Lemma fetchWithRetry_policy_witness :
  1 <= 3
  /\ (exists d,
        Background.fetchWithRetry (RT := sampleRuntime) downNet "https://yt.example/threads" 3 1000 world0
        = Some (Throw (mkError "Failed fetching URL after 3 attempts: Failed to fetch"),
                {| calls := 3; trace := d |})
        /\ fetchesOf d = repeat "https://yt.example/threads" 3
        /\ sleepsOf d = [1000; 2000])
  /\ (exists d,
        Legacy.fetchWithRetry (RT := sampleRuntime) downNet "https://yt.example/threads" 3 1000 world0
        = Some (Throw (mkError "Failed fetching URL after 3 attempts"),
                {| calls := 3; trace := d |})
        /\ fetchesOf d = repeat "https://yt.example/threads" 3
        /\ sleepsOf d = [1000; 1000]).
Proof.
  assert (H : 1 <= 3) by lia.
  split; [exact H |].
  destruct (fetchWithRetry_policy (RT := sampleRuntime) downNet
              "https://yt.example/threads" 3 1000 world0 H)
    as [(d & Hd & Hf & Hs & _) (d' & Hd' & Hf' & Hs' & _)].
  split.
  - exists d. repeat split; [exact Hd | exact Hf | exact Hs].
  - exists d'. repeat split; [exact Hd' | exact Hf' | exact Hs'].
Defined.

(** A source that fails twice and then answers: the payload of the third
    attempt is returned after pauses of 1000 and 2000. *)
Example fetchWithRetry_after_two_failures :
  exists w,
    Background.fetchWithRetry (RT := sampleRuntime) flakyNet "https://yt.example/threads" 3 1000 world0
    = Some (Return (JObj []), w)
    /\ calls w = 3%nat
    /\ sleepsOf (trace w) = [1000; 2000].
Proof. eexists. split; [vm_compute; reflexivity | split; reflexivity]. Qed.

(** C4 as stated fails in two ways.  The error thrown on exhaustion by the
    background script is the same for two different urls, so it does not
    carry the url; and the older copy in popup.js pauses 1000 and 1000, not
    1000 and 2000, and its error has no failure reason. *)
Lemma fetchWithRetry_error_without_url :
  (exists e w1 w2,
      Background.fetchWithRetry (RT := sampleRuntime) downNet "https://yt.example/a" 3 1000 world0
      = Some (Throw e, w1)
      /\ Background.fetchWithRetry (RT := sampleRuntime) downNet "https://yt.example/b" 3 1000 world0
         = Some (Throw e, w2)
      /\ "https://yt.example/a" <> "https://yt.example/b")
  /\ (exists w,
         Legacy.fetchWithRetry (RT := sampleRuntime) downNet "https://yt.example/a" 3 1000 world0
         = Some (Throw (mkError "Failed fetching URL after 3 attempts"), w)
         /\ sleepsOf (trace w) = [1000; 1000]
         /\ sleepsOf (trace w) <> [1000 * (1 + 0); 1000 * (1 + 1)]).
Proof.
  split.
  - eexists _, _, _. split; [| split].
    + vm_compute. reflexivity.
    + vm_compute. reflexivity.
    + discriminate.
  - eexists. split; [| split].
    + vm_compute. reflexivity.
    + reflexivity.
    + discriminate.
Qed.

Lemma append_cancel_l (a b c : string) : (a ++ b = a ++ c)%string -> b = c.
Proof.
  induction a as [| ch a IH]; cbn; intros H; [exact H |].
  inversion H. auto.
Qed.

(** C10.  With [retries <= 0] the loop body never runs: nothing is fetched,
    and the error thrown is "fetchWithRetry reached unexpected end" in the
    background script and "Failed fetching URL after <retries> attempts" in
    the older copy; neither is the exhaustion error that carries the reason
    of a last failed attempt. *)
Theorem fetchWithRetry_without_attempts {RT : Runtime} (net : Network)
    (url : string) (retries delay : Z) (w : World) :
  retries <= 0 ->
  let started :=
    {| calls := calls w;
       trace := trace w ++ [EvLog Info "Starting fetchWithRetry"] |} in
  Background.fetchWithRetry net url retries delay w
  = Some (Throw (mkError "fetchWithRetry reached unexpected end"), started)
  /\ Legacy.fetchWithRetry net url retries delay w
     = Some (Throw (mkError (legacyExhaustedMessage retries)), started)
  /\ fetchesOf (trace started) = fetchesOf (trace w)
  /\ (forall reason,
         "fetchWithRetry reached unexpected end" <> exhaustedMessage retries reason)
  /\ (forall reason,
         legacyExhaustedMessage retries <> exhaustedMessage retries reason).
Proof.
  intros Hr started.
  assert (Hn : Z.to_nat retries = 0%nat) by (destruct retries; try lia; reflexivity).
  unfold Background.fetchWithRetry, Legacy.fetchWithRetry. rewrite Hn.
  repeat split.
  - subst started. cbn [trace]. unfold fetchesOf. rewrite flat_map_app. cbn. apply app_nil_r.
  - intros reason H. unfold exhaustedMessage in H. cbn in H. discriminate.
  - intros reason H. unfold legacyExhaustedMessage, exhaustedMessage in H.
    apply append_cancel_l, append_cancel_l in H. cbn in H. discriminate.
Qed.

Lemma fetchWithRetry_without_attempts_witness :
  0 <= 0
  /\ Background.fetchWithRetry (RT := sampleRuntime) downNet "https://yt.example/a" 0 1000 world0
     = Some (Throw (mkError "fetchWithRetry reached unexpected end"),
             {| calls := 0; trace := [EvLog Info "Starting fetchWithRetry"] |})
  /\ Legacy.fetchWithRetry (RT := sampleRuntime) downNet "https://yt.example/a" 0 1000 world0
     = Some (Throw (mkError "Failed fetching URL after 0 attempts"),
             {| calls := 0; trace := [EvLog Info "Starting fetchWithRetry"] |}).
Proof.
  assert (H : 0 <= 0) by lia.
  split; [exact H |].
  destruct (fetchWithRetry_without_attempts (RT := sampleRuntime) downNet
              "https://yt.example/a" 0 1000 world0 H) as (Hb & Hl & _).
  split; [exact Hb | exact Hl].
Defined.

(** ** The page walkers *)

(** With the default arguments: between one and three requests, and a
    returned payload is the payload of the last one. *)
Lemma fetchWithRetry_default {RT : Runtime} (net : Network) (url : string) (w : World) :
  exists o m d,
    Background.fetchWithRetry net url 3 1000 w
    = Some (o, {| calls := calls w + m; trace := trace w ++ d |})
    /\ (1 <= m <= 3)%nat
    /\ (forall data, o = Return data ->
                     outcomeOf (net (calls w + (m - 1))%nat url) = Return data).
Proof.
  destruct (fetchWithRetry_run net url 3 1000 w ltac:(lia)) as (d & Hd & _).
  cbv zeta in Hd. change (Z.to_nat 3) with 3%nat in Hd.
  unfold attemptsMade in Hd.
  destruct (firstSuccess _ 3 0) as [[k json] |] eqn:Hfs.
  - apply firstSuccess_some in Hfs as (Hk & _ & Hok).
    exists (Return json), (S k), d. repeat split; try lia; [exact Hd |].
    intros data [= <-]. replace (S k - 1)%nat with k by lia. exact Hok.
  - eexists _, 3%nat, d. repeat split; try lia; [exact Hd |]. discriminate.
Qed.

(** An answer hands out a cursor exactly when its payload carries one. *)
Lemma cursorOf_payload {RT : Runtime} (o : FetchOutcome) (data tok : Json) :
  outcomeOf o = Return data ->
  nextPageToken data = Return tok ->
  truthy (Some tok) = true ->
  cursorOf o = Some tok.
Proof. intros H1 H2 H3. unfold cursorOf. rewrite H1, H2, H3. reflexivity. Qed.

Lemma cursorOf_hands {RT : Runtime} (o : FetchOutcome) (tok : Json) :
  cursorOf o = Some tok -> handsCursor o = true.
Proof.
  unfold cursorOf, handsCursor. destruct (outcomeOf o) as [data | e]; [| discriminate].
  destruct (nextPageToken data) as [t | e]; [| discriminate].
  destruct (truthy (Some t)); [reflexivity | discriminate].
Qed.

Section WalkerTermination.
Context {RT : Runtime}.
Variable net : Network.
Variable rank : nat -> string -> nat.
Hypothesis Hrank : pagesRunOut net rank.

Lemma repliesLoop_terminates :
  forall fuel w pid key tok replies,
    (forall n, (calls w <= n)%nat -> (rank n (repliesUrl pid key tok) < fuel)%nat) ->
    exists r w',
      repliesLoop net fuel pid key tok replies w = Some (Return r, w')
      /\ (calls w <= calls w')%nat.
Proof.
  induction fuel as [| fuel IH]; intros w pid key tok replies Hf;
    [specialize (Hf (calls w) (Nat.le_refl _)); lia |].
  cbn [repliesLoop]. unfold bind at 1, caught.
  destruct (fetchWithRetry_default net (repliesUrl pid key tok) w) as (o & m & d & -> & Hm & Hpay).
  destruct o as [data | e]; [| eexists _, _; split; [reflexivity | cbn; lia]].
  destruct (forEachItems data) as [items | e]; [| eexists _, _; split; [reflexivity | cbn; lia]].
  destruct (pushReplies items replies) as [replies' [e |]]; [eexists _, _; split; [reflexivity | cbn; lia] |].
  destruct (nextPageToken data) as [tok' | e] eqn:Htok; [| eexists _, _; split; [reflexivity | cbn; lia]].
  destruct (truthy (Some tok')) eqn:Htr; [| eexists _, _; split; [reflexivity | cbn; lia]].
  pose proof (cursorOf_payload _ _ _ (Hpay data eq_refl) Htok Htr) as Hcur.
  match goal with
  | |- context [repliesLoop _ _ _ _ _ _ ?w1] =>
      destruct (IH w1 pid key tok' replies') as (r & w' & Hr & Hc)
  end.
  - cbn [calls]. intros n Hn.
    assert (H1 : (rank n (repliesUrl pid key tok')
                  < rank (calls w + (m - 1)) (repliesUrl pid key tok))%nat).
    { apply (Hrank _ _ _ Hcur); [lia |]. right. exists pid, key. reflexivity. }
    specialize (Hf (calls w + (m - 1))%nat ltac:(lia)). lia.
  - exists r, w'. split; [exact Hr | cbn [calls] in Hc; lia].
Qed.

Lemma fetchReplies_terminates :
  forall fuel w pid key,
    (forall n, (calls w <= n)%nat -> (rank n (repliesUrl pid key (JStr "")) < fuel)%nat) ->
    exists replies w',
      fetchReplies net fuel pid key w = Some (Return replies, w')
      /\ (calls w <= calls w')%nat.
Proof.
  intros fuel w pid key Hf.
  unfold fetchReplies, bind at 1, logInfo, log, emit. unfold bind at 1.
  match goal with
  | |- context [repliesLoop _ _ _ _ _ _ ?w1] =>
      destruct (repliesLoop_terminates fuel w1 pid key (JStr "") [])
        as ([replies [e |]] & w' & -> & Hc); [exact Hf | |]
  end;
    (eexists _, _; split; [reflexivity | cbn [calls] in *; lia]).
Qed.

Lemma commentsOfItems_terminates :
  forall rfuel key items comments w,
    (forall n url, (rank n url < rfuel)%nat) ->
    exists r w',
      commentsOfItems net rfuel key items comments w = Some (Return r, w')
      /\ (calls w <= calls w')%nat.
Proof.
  intros rfuel key items.
  induction items as [| item rest IH]; intros comments w Hf.
  - eexists _, _; split; [reflexivity | lia].
  - cbn [commentsOfItems].
    assert (Hfirst : exists comments1 w1,
               pushTopLevel item comments w = Some (Return comments1, w1)
               /\ calls w1 = calls w).
    { unfold pushTopLevel.
      destruct (truthy (topLevelSnippet item)); [| eexists _, _; split; reflexivity].
      destruct (commentOfItem item (topLevelSnippet item));
        eexists _, _; split; reflexivity. }
    destruct Hfirst as (comments1 & w1 & Hfirst & Hc1).
    unfold bind at 1. rewrite Hfirst.
    destruct (propOf item "snippet") as [s | e]; [| eexists _, _; split; [reflexivity | lia]].
    destruct (truthy s && gtZero (optGet s "totalReplyCount")).
    + destruct (propOfV (optGet s "topLevelComment") "id") as [pid | e];
        [| eexists _, _; split; [reflexivity | lia]].
      unfold bind at 1, logInfo, log, emit. unfold bind at 1, tryCatch.
      match goal with
      | |- context [fetchReplies _ _ _ _ ?w2] =>
          destruct (fetchReplies_terminates rfuel w2 pid key)
            as (replies & w3 & -> & Hc3); [intros n _; apply Hf |]
      end.
      cbn [calls] in Hc3.
      destruct (IH (comments1 ++ replies)%list w3) as (r & w' & Hr & Hc); [exact Hf |].
      exists r, w'. split; [exact Hr | lia].
    + destruct (IH comments1 w1) as (r & w' & Hr & Hc); [exact Hf |].
      exists r, w'. split; [exact Hr | lia].
Qed.

Lemma commentsLoop_terminates :
  forall rfuel fuel w vid key tok comments,
    (forall n url, (rank n url < rfuel)%nat) ->
    (forall n, (calls w <= n)%nat -> (rank n (threadsUrl vid key tok) < fuel)%nat) ->
    exists r w',
      commentsLoop net rfuel fuel vid key tok comments w = Some (Return r, w').
Proof.
  intros rfuel.
  induction fuel as [| fuel IH]; intros w vid key tok comments Hrf Hf;
    [specialize (Hf (calls w) (Nat.le_refl _)); lia |].
  cbn [commentsLoop]. unfold bind at 1, logInfo, log, emit. unfold bind at 1, caught.
  match goal with
  | |- context [Background.fetchWithRetry _ ?u _ _ ?w1] =>
      destruct (fetchWithRetry_default net u w1) as (o & m & d & -> & Hm & Hpay)
  end.
  cbn [calls] in *.
  destruct o as [data | e]; [| eexists _, _; reflexivity].
  destruct (forOfItems data) as [items | e]; [| eexists _, _; reflexivity].
  unfold bind at 1.
  match goal with
  | |- context [commentsOfItems _ _ _ _ _ ?w2] =>
      destruct (commentsOfItems_terminates rfuel key items comments w2 Hrf)
        as ([comments' [e |]] & w3 & -> & Hc3)
  end; [eexists _, _; reflexivity |].
  cbn [calls] in Hc3.
  destruct (nextPageToken data) as [tok' | e] eqn:Htok; [| eexists _, _; reflexivity].
  unfold bind, logInfo, log, sleep, emit. cbn [calls trace].
  destruct (truthy (Some tok')) eqn:Htr; [| eexists _, _; reflexivity].
  pose proof (cursorOf_payload _ _ _ (Hpay data eq_refl) Htok Htr) as Hcur.
  apply IH; [exact Hrf |]. cbn [calls]. intros n Hn.
  assert (H1 : (rank n (threadsUrl vid key tok')
                < rank (calls w + (m - 1)) (threadsUrl vid key tok))%nat).
  { apply (Hrank _ _ _ Hcur); [lia |]. left. exists vid, key. reflexivity. }
  specialize (Hf (calls w + (m - 1))%nat ltac:(lia)). lia.
Qed.

Lemma fetchAllComments_terminates (fuel : nat) (videoId apiKey : string) (w : World) :
  (forall n url, (rank n url < fuel)%nat) ->
  exists out w', fetchAllComments net fuel videoId apiKey w = Some (out, w').
Proof.
  intros Hf. unfold fetchAllComments, bind at 1, logInfo, log, emit. unfold bind at 1.
  match goal with
  | |- context [commentsLoop _ _ _ _ _ _ _ ?w1] =>
      destruct (commentsLoop_terminates fuel fuel w1 videoId apiKey (JStr "") [] Hf)
        as ([comments [e |]] & w' & ->); [intros n _; apply Hf | |]
  end; eexists _, _; reflexivity.
Qed.

End WalkerTermination.

(** A source that hands out no cursor from its [N]-th answer on: its pages
    run out, and [N - n] bounds the pages that follow the [n]-th answer. *)
Lemma dry_source_runs_out {RT : Runtime} (net : Network) (N : nat) :
  (forall n url, (N <= n)%nat -> handsCursor (net n url) = false) ->
  pagesRunOut net (fun n _ => (N - n)%nat).
Proof.
  intros Hdry n url tok Hcur n' url' Hn _.
  apply cursorOf_hands in Hcur.
  destruct (Nat.lt_ge_cases n N) as [H | H]; [lia |].
  rewrite (Hdry n url H) in Hcur. discriminate.
Qed.

(** A source keyed by the url, on which the requests can be ranked by the
    number of pages that follow them: its pages run out. *)
Lemma keyed_source_runs_out {RT : Runtime} (net : Network) (depth : string -> nat) :
  (forall n url tok url',
      cursorOf (net n url) = Some tok -> asksFor url' tok -> (depth url' < depth url)%nat) ->
  pagesRunOut net (fun _ => depth).
Proof. intros H n url tok Hcur n' url' _ Hask. exact (H n url tok url' Hcur Hask). Qed.




Lemma lastChar_app (x y : string) (c : ascii) :
  lastChar y = Some c -> lastChar (x ++ y) = Some c.
Proof.
  intros Hy. induction x as [| a x IH]; [exact Hy |].
  cbn [append]. destruct (x ++ y)%string as [| b r] eqn:E; [discriminate IH |].
  exact IH.
Qed.

(** On [keyedNet] only the first page of a list hands out a cursor, the
    cursor [a], and the request for the page that it names ends with it. *)
Lemma keyedNet_ranked :
  forall n url tok url',
    cursorOf (RT := sampleRuntime) (keyedNet n url) = Some tok ->
    asksFor (RT := sampleRuntime) url' tok ->
    (keyedRank 0 url' < keyedRank 0 url)%nat.
Proof.
  intros n url tok url'. unfold keyedNet, keyedRank.
  destruct (asksForA url); [discriminate |].
  intros [= <-] Hask.
  assert (H : asksForA url' = true).
  { unfold asksForA.
    destruct Hask as [(v & k & ->) | (p & k & ->)];
      unfold threadsUrl, repliesUrl; cbn [truthy negb String.eqb Ascii.eqb Bool.eqb toString
                                            sampleRuntime encodeParam];
      rewrite (lastChar_app _ _ "a"%char); try reflexivity;
      repeat (apply lastChar_app); reflexivity. }
  rewrite H. lia.
Qed.


(** On the source that names the same next page in every answer, one more
    iteration is never enough. *)
Lemma fetchWithRetry_loopNet (url : string) (w : World) :
  exists d,
    Background.fetchWithRetry (RT := sampleRuntime) loopNet url 3 1000 w
    = Some (Return loopPage, {| calls := calls w + 1; trace := trace w ++ d |}).
Proof.
  destruct (fetchWithRetry_run (RT := sampleRuntime) loopNet url 3 1000 w ltac:(lia))
    as (d & Hd & _).
  exists d. exact Hd.
Qed.

Lemma commentsLoop_loopNet :
  forall fuel rfuel videoId apiKey pageToken comments w,
    commentsLoop (RT := sampleRuntime) loopNet rfuel fuel videoId apiKey pageToken comments w
    = None.
Proof.
  induction fuel as [| fuel IH]; intros; [reflexivity |].
  cbn [commentsLoop]. unfold bind at 1, logInfo, log, emit. unfold bind at 1, caught.
  match goal with
  | |- context [Background.fetchWithRetry _ ?u _ _ ?w1] =>
      destruct (fetchWithRetry_loopNet u w1) as (d & ->)
  end.
  cbn. apply IH.
Qed.



(** ** Failure isolation of the nested walk *)





(** ** The message listener *)

Lemma responsesOf_app (a b : list Event) :
  responsesOf (a ++ b) = (responsesOf a ++ responsesOf b)%list.
Proof. apply flat_map_app. Qed.

Lemma quiet_ret {A} (a : A) : quiet (ret a).
Proof. intros w o w' [= <- <-]. exists []. rewrite app_nil_r. auto. Qed.

Lemma quiet_throw {A} (e : JsError) : quiet (@throw A e).
Proof. intros w o w' [= <- <-]. exists []. rewrite app_nil_r. auto. Qed.

Lemma quiet_emit (ev : Event) : responsesOf [ev] = [] -> quiet (emit ev).
Proof. intros H w o w' [= <- <-]. exists [ev]. auto. Qed.

Lemma quiet_bind {A B} (c : M A) (k : A -> M B) :
  quiet c -> (forall a, quiet (k a)) -> quiet (bind c k).
Proof.
  intros Hc Hk w o w'. unfold bind.
  destruct (c w) as [[[a | e] w1] |] eqn:E; [| | discriminate].
  - intros H. destruct (Hc _ _ _ E) as (d1 & T1 & H1).
    destruct (Hk a _ _ _ H) as (d2 & T2 & H2).
    exists (d1 ++ d2)%list. rewrite T2, T1, app_assoc, responsesOf_app, H1, H2. auto.
  - intros [= <- <-]. exact (Hc _ _ _ E).
Qed.

Lemma quiet_tryCatch {A} (c : M A) (h : JsError -> M A) :
  quiet c -> (forall e, quiet (h e)) -> quiet (tryCatch c h).
Proof.
  intros Hc Hh w o w'. unfold tryCatch.
  destruct (c w) as [[[a | e] w1] |] eqn:E; [| | discriminate].
  - intros [= <- <-]. exact (Hc _ _ _ E).
  - intros H. destruct (Hc _ _ _ E) as (d1 & T1 & H1).
    destruct (Hh e _ _ _ H) as (d2 & T2 & H2).
    exists (d1 ++ d2)%list. rewrite T2, T1, app_assoc, responsesOf_app, H1, H2. auto.
Qed.

Lemma quiet_caught {A} (c : M A) : quiet c -> quiet (caught c).
Proof.
  intros Hc w o w'. unfold caught.
  destruct (c w) as [[o1 w1] |] eqn:E; [| discriminate].
  intros [= <- <-]. exact (Hc _ _ _ E).
Qed.

Lemma quiet_fetch (net : Network) (url : string) : quiet (fetch net url).
Proof.
  intros w o w'. unfold fetch.
  destruct (net (calls w) url); intros [= <- <-]; exists [EvFetch url]; auto.
Qed.

(** One step of a proof that a computation sends no response, following
    the shape of the computation. *)
Ltac quiet_step :=
  match goal with
  | |- quiet (bind _ _) => apply quiet_bind; [| intros ?]
  | |- quiet (tryCatch _ _) => apply quiet_tryCatch; [| intros ?]
  | |- quiet (caught _) => apply quiet_caught
  | |- quiet (ret _) => apply quiet_ret
  | |- quiet (throw _) => apply quiet_throw
  | |- quiet (fetch _ _) => apply quiet_fetch
  | |- quiet (emit _) => apply quiet_emit; reflexivity
  | |- quiet (sleep _) => apply quiet_emit; reflexivity
  | |- quiet (logInfo _) => apply quiet_emit; reflexivity
  | |- quiet (logWarn _) => apply quiet_emit; reflexivity
  | |- quiet (logError _) => apply quiet_emit; reflexivity
  | |- quiet (match ?x with _ => _ end) => destruct x
  | H : _ |- _ => solve [apply H]
  end.

Lemma answers_sendResponse (r : Response) : answers (emit (EvResponse r)).
Proof.
  intros w o w' [= <- <-]. exists [EvResponse r].
  repeat split; [discriminate |]. intros _. exists r. reflexivity.
Qed.

Lemma answers_bind {A B} (c : M A) (k : A -> M B) :
  quiet c -> (forall a, answers (k a)) -> answers (bind c k).
Proof.
  intros Hc Hk w o w'. unfold bind.
  destruct (c w) as [[[a | e] w1] |] eqn:E; [| | discriminate].
  - intros H. destruct (Hc _ _ _ E) as (d1 & T1 & H1).
    destruct (Hk a _ _ _ H) as (d2 & T2 & H2 & H3).
    exists (d1 ++ d2)%list. rewrite T2, T1, app_assoc, responsesOf_app, H1. cbn [app].
    repeat split; assumption.
  - intros [= <- <-]. destruct (Hc _ _ _ E) as (d1 & T1 & H1).
    exists d1. repeat split; [assumption | intros _; assumption | discriminate].
Qed.

Ltac answers_step :=
  match goal with
  | |- answers (bind _ _) => apply answers_bind; [| intros ?]
  | |- answers (emit (EvResponse _)) => apply answers_sendResponse
  | |- answers (match ?x with _ => _ end) => destruct x
  | |- quiet _ => quiet_step
  end.

Lemma total_ret {A} (a : A) : total (ret a).
Proof. intros w. eexists _, _. reflexivity. Qed.

Lemma total_throw {A} (e : JsError) : total (@throw A e).
Proof. intros w. eexists _, _. reflexivity. Qed.

Lemma total_emit (ev : Event) : total (emit ev).
Proof. intros w. eexists _, _. reflexivity. Qed.

Lemma total_bind {A B} (c : M A) (k : A -> M B) :
  total c -> (forall a, total (k a)) -> total (bind c k).
Proof.
  intros Hc Hk w. unfold bind. destruct (Hc w) as ([a | e] & w1 & ->).
  - apply Hk.
  - eexists _, _. reflexivity.
Qed.

Lemma total_tryCatch {A} (c : M A) (h : JsError -> M A) :
  total c -> (forall e, total (h e)) -> total (tryCatch c h).
Proof.
  intros Hc Hh w. unfold tryCatch. destruct (Hc w) as ([a | e] & w1 & ->).
  - eexists _, _. reflexivity.
  - apply Hh.
Qed.

Ltac total_step :=
  match goal with
  | |- total (bind _ _) => apply total_bind; [| intros ?]
  | |- total (tryCatch _ _) => apply total_tryCatch; [| intros ?]
  | |- total (ret _) => apply total_ret
  | |- total (throw _) => apply total_throw
  | |- total (emit _) => apply total_emit
  | |- total (sleep _) => apply total_emit
  | |- total (logInfo _) => apply total_emit
  | |- total (logWarn _) => apply total_emit
  | |- total (logError _) => apply total_emit
  | |- total (match ?x with _ => _ end) => destruct x
  | H : _ |- _ => solve [apply H]
  end.

Section QuietWalkers.
Context {RT : Runtime}.
Variable net : Network.

Lemma quiet_attempt url : quiet (attempt net url).
Proof. unfold attempt. repeat quiet_step. Qed.

Lemma quiet_attempts url retries delay :
  forall n i, quiet (attempts net url retries delay n i).
Proof.
  induction n as [| n IH]; intros i; cbn [attempts]; repeat quiet_step.
  apply quiet_attempt.
Qed.

Lemma quiet_fetchWithRetry url retries delay :
  quiet (Background.fetchWithRetry net url retries delay).
Proof. unfold Background.fetchWithRetry. repeat quiet_step. apply quiet_attempts. Qed.

Lemma quiet_repliesLoop :
  forall fuel pid key tok replies, quiet (repliesLoop net fuel pid key tok replies).
Proof.
  induction fuel as [| fuel IH]; intros; cbn [repliesLoop].
  - intros w o w'; discriminate.
  - repeat quiet_step. apply quiet_fetchWithRetry.
Qed.

Lemma quiet_fetchReplies fuel pid key : quiet (fetchReplies net fuel pid key).
Proof. unfold fetchReplies. repeat quiet_step; apply quiet_repliesLoop. Qed.

Lemma quiet_commentsOfItems rfuel key :
  forall items comments, quiet (commentsOfItems net rfuel key items comments).
Proof.
  induction items as [| item rest IH]; intros; cbn [commentsOfItems].
  - apply quiet_ret.
  - unfold pushTopLevel. repeat quiet_step; apply quiet_fetchReplies.
Qed.

Lemma quiet_commentsLoop rfuel :
  forall fuel vid key tok comments,
    quiet (commentsLoop net rfuel fuel vid key tok comments).
Proof.
  induction fuel as [| fuel IH]; intros; cbn [commentsLoop].
  - intros w o w'; discriminate.
  - repeat quiet_step; try apply quiet_fetchWithRetry; try apply quiet_commentsOfItems.
Qed.

Lemma quiet_fetchAllComments fuel vid key : quiet (fetchAllComments net fuel vid key).
Proof. unfold fetchAllComments. repeat quiet_step; apply quiet_commentsLoop. Qed.

End QuietWalkers.

Section ListenerFacts.
Context {RT : Runtime}.
Variable env : Env.

Lemma quiet_sendAllComments comments : quiet (sendAllComments env comments).
Proof.
  unfold sendAllComments, post, storageSet, sendMessage. repeat quiet_step.
Qed.

Lemma total_sendAllComments comments : total (sendAllComments env comments).
Proof.
  unfold sendAllComments, post, storageSet, sendMessage. repeat total_step.
Qed.

Lemma answers_analyzeVideo fuel vid : answers (analyzeVideo env fuel vid).
Proof.
  unfold analyzeVideo, storageGet, sendResponse. repeat answers_step.
  - apply quiet_fetchAllComments.
  - apply quiet_sendAllComments.
Qed.

Lemma answers_fromActiveTab fuel : answers (fromActiveTab env fuel).
Proof.
  unfold fromActiveTab, sendResponse. repeat answers_step; apply answers_analyzeVideo.
Qed.

Lemma answers_fetchCommentsBody fuel request :
  answers (fetchCommentsBody env fuel request).
Proof.
  unfold fetchCommentsBody. repeat answers_step.
  - apply answers_analyzeVideo.
  - apply answers_fromActiveTab.
Qed.

(** The [catch] of the asynchronous function sends the one response that a
    throwing body has not sent. *)
Lemma answersOnce_guarded {A} (c : M A) (h : JsError -> M A) :
  answers c ->
  (forall e, answersOnce (h e)) ->
  answersOnce (tryCatch c h).
Proof.
  intros Hc Hh w o w'. unfold tryCatch.
  destruct (c w) as [[[a | e] w1] |] eqn:E; [| | discriminate].
  - intros [= <- <-]. destruct (Hc _ _ _ E) as (d & T & _ & H).
    split; [reflexivity |]. destruct (H eq_refl) as (r & Hr). exists d, r. auto.
  - intros H. destruct (Hc _ _ _ E) as (d & T & H0 & _).
    destruct (Hh e _ _ _ H) as (Hf & d2 & r & T2 & H2).
    split; [exact Hf |].
    exists (d ++ d2)%list, r. rewrite T2, T, app_assoc, responsesOf_app, (H0 eq_refl), H2. auto.
Qed.

Lemma answersOnce_handler (lbl lbl' msg : string) :
  answersOnce (logError lbl ;;
               tryCatch (sendResponse (RespError msg)) (fun e => logWarn lbl')).
Proof.
  intros w o w' [= <- <-]. split; [reflexivity |].
  exists [EvLog Error lbl; EvResponse (RespError msg)], (RespError msg).
  cbn. rewrite <- app_assoc. auto.
Qed.

Lemma answersOnce_outer {A} (c : M A) (h : JsError -> M A) :
  answersOnce c -> answersOnce (tryCatch c h).
Proof.
  intros Hc w o w'. unfold tryCatch.
  destruct (c w) as [[[a | e] w1] |] eqn:E; [| | discriminate].
  - intros [= <- <-]. exact (Hc _ _ _ E).
  - destruct (Hc _ _ _ E) as (Hf & _). discriminate.
Qed.

(** Every run of the listener that completes has sent exactly one response
    and has returned [true]. *)
Lemma onMessage_one_response (fuel : nat) (request : Request) (w : World)
    (o : Outcome bool) (w' : World) :
  action request = "fetchComments" ->
  onMessage env fuel request w = Some (o, w') ->
  o = Return true
  /\ exists d r, trace w' = (trace w ++ d)%list /\ responsesOf d = [r].
Proof.
  intros Hact. unfold onMessage. rewrite Hact, String.eqb_refl.
  unfold bind at 1, logInfo, log, emit. unfold bind at 1.
  match goal with
  | |- match ?c ?w1 with _ => _ end = _ -> _ =>
      assert (Hc : answersOnce c);
      [| destruct (c w1) as [[[a | e] w2] |] eqn:E; [| | discriminate] ]
  end.
  - apply answersOnce_outer, answersOnce_guarded.
    + apply answers_fetchCommentsBody.
    + intros e. apply answersOnce_handler.
  - intros [= <- <-]. split; [reflexivity |].
    destruct (Hc _ _ _ E) as (_ & d & r & T & Hr). cbn [trace] in T.
    exists (EvLog Info "Received message from content script:" :: d), r.
    rewrite T, <- app_assoc. auto.
  - destruct (Hc _ _ _ E) as (Hf & _). discriminate.
Qed.

End ListenerFacts.

Import Flow FlowSamples.

Section ListenerTotal.
Context {RT : Runtime}.
Variable env : Env.
Variable fuel : nat.

Lemma total_analyzeVideo (videoId : string) :
  (forall apiKey, total (fetchAllComments (net env) fuel videoId apiKey)) ->
  total (analyzeVideo env fuel videoId).
Proof.
  intros Hwalk. unfold analyzeVideo, storageGet, sendResponse. repeat total_step.
  apply total_sendAllComments.
Qed.

(** Without a stored key no walk is started. *)
Lemma total_analyzeVideo_nokey (videoId : string) :
  nonEmpty (storedKey env) = false -> total (analyzeVideo env fuel videoId).
Proof.
  intros Hkey w. unfold storedKey in Hkey.
  unfold analyzeVideo, storageGet, bind, tryCatch, sendResponse, logWarn, log, emit,
    ret, throw.
  destruct (ytApiKey env) as [e | v]; cbn [nonEmpty]; [| rewrite Hkey];
    eexists _, _; reflexivity.
Qed.

(** Without a video id from the active tab no walk is started. *)
Lemma total_fromActiveTab_noid : tabWithoutId env -> total (fromActiveTab env fuel).
Proof.
  intros Htab w. unfold fromActiveTab.
  destruct (activeTabs env) as [[| tab rest] |] eqn:Et; try (eexists _, _; reflexivity).
  destruct (tab_url tab) as [u |] eqn:Eu; [| eexists _, _; reflexivity].
  destruct (String.eqb_spec u "") as [-> | Hne]; cbn [negb]; [eexists _, _; reflexivity |].
  unfold bind, tryCatch, sendResponse, logInfo, logWarn, log, emit, ret, throw.
  destruct (URL_searchParam u "v") as [[v |] |] eqn:Ep; cbn.
  - rewrite (Htab tab rest u v Et Eu Hne Ep). cbn. eexists _, _; reflexivity.
  - eexists _, _; reflexivity.
  - eexists _, _; reflexivity.
Qed.

Lemma total_fetchCommentsBody (request : Request) :
  (forall videoId, total (analyzeVideo env fuel videoId)) ->
  total (fetchCommentsBody env fuel request).
Proof.
  intros Hrun. unfold fetchCommentsBody, fromActiveTab, sendResponse.
  repeat total_step.
Qed.

Lemma total_fetchCommentsBody_noid (request : Request) :
  nonEmpty (videoId request) = false ->
  tabWithoutId env ->
  total (fetchCommentsBody env fuel request).
Proof.
  intros Hv Htab. unfold fetchCommentsBody. rewrite Hv.
  apply total_bind; [apply total_emit | intros _].
  apply total_fromActiveTab_noid, Htab.
Qed.

Lemma total_onMessage (request : Request) :
  total (fetchCommentsBody env fuel request) -> total (onMessage env fuel request).
Proof.
  intros Hbody. unfold onMessage, sendResponse. repeat total_step.
Qed.

(** A listener that completes has answered once. *)
Lemma answeredOnce_of_total (request : Request) (w : World) :
  action request = "fetchComments" ->
  total (onMessage env fuel request) ->
  answeredOnce env fuel request w.
Proof.
  intros Hact Htotal. destruct (Htotal w) as (o & w' & Hrun).
  destruct (onMessage_one_response env fuel request w o w' Hact Hrun)
    as (-> & d & r & T & Hr).
  exists w', d, r. auto.
Qed.

End ListenerTotal.

(** C8, amended.  Whatever the source, a run of the listener on a
    [fetchComments] trigger that completes has sent exactly one response, a
    success with the count or an error string, and keeps the channel open;
    and the listener completes whenever [fetchAllComments] completes on the
    source.  It completes, whatever the source and the loop budget, when no
    key is stored and when no video id can be determined, where no walk is
    started; and it completes for every source whose pages run out.  Nothing
    is said for a source that repeats a cursor: the walk does not end and no
    response is sent. *)
Theorem listener_sends_one_response {RT : Runtime} (env : Env) (request : Request)
    (w : World) :
  action request = "fetchComments" ->
  (forall fuel o w',
      onMessage env fuel request w = Some (o, w') ->
      o = Return true
      /\ exists d r, trace w' = (trace w ++ d)%list /\ responsesOf d = [r])
  /\ (forall fuel,
         (forall videoId apiKey w1, exists out w2,
             fetchAllComments (net env) fuel videoId apiKey w1 = Some (out, w2)) ->
         answeredOnce env fuel request w)
  /\ (nonEmpty (storedKey env) = false -> forall fuel, answeredOnce env fuel request w)
  /\ (nonEmpty (videoId request) = false -> tabWithoutId env ->
      forall fuel, answeredOnce env fuel request w)
  /\ (forall (rank : nat -> string -> nat) (fuel : nat),
         pagesRunOut (net env) rank ->
         (forall n url, (rank n url < fuel)%nat) ->
         answeredOnce env fuel request w)
  /\ (forall N fuel : nat,
         (forall n url, (N <= n)%nat -> handsCursor (net env n url) = false) ->
         (N + 1 <= fuel)%nat ->
         answeredOnce env fuel request w).
Proof.
  intros Hact.
  assert (Hwalk : forall fuel,
             (forall videoId apiKey w1, exists out w2,
                 fetchAllComments (net env) fuel videoId apiKey w1 = Some (out, w2)) ->
             answeredOnce env fuel request w).
  { intros fuel Hw. apply answeredOnce_of_total; [exact Hact |].
    apply total_onMessage, total_fetchCommentsBody. intros videoId.
    apply total_analyzeVideo. intros apiKey w1. apply Hw. }
  assert (Hrun : forall (rank : nat -> string -> nat) (fuel : nat),
             pagesRunOut (net env) rank ->
             (forall n url, (rank n url < fuel)%nat) ->
             answeredOnce env fuel request w).
  { intros rank fuel Hrank Hfuel. apply Hwalk. intros videoId apiKey w1.
    apply (fetchAllComments_terminates (net env) rank Hrank), Hfuel. }
  split; [| split; [| split; [| split; [| split]]]].
  - intros fuel o w' Hdone.
    exact (onMessage_one_response env fuel request w o w' Hact Hdone).
  - exact Hwalk.
  - intros Hkey fuel. apply answeredOnce_of_total; [exact Hact |].
    apply total_onMessage, total_fetchCommentsBody. intros videoId.
    apply total_analyzeVideo_nokey, Hkey.
  - intros Hv Htab fuel. apply answeredOnce_of_total; [exact Hact |].
    apply total_onMessage, total_fetchCommentsBody_noid; assumption.
  - exact Hrun.
  - intros N fuel Hdry Hfuel.
    apply (Hrun (fun n _ => (N - n)%nat)); [apply dry_source_runs_out, Hdry |].
    intros n url. lia.
Qed.

Lemma listener_sends_one_response_witness :
  action fetchCommentsRequest = "fetchComments"
  /\ pagesRunOut (RT := sampleRuntime) (net (envOf keyedNet)) keyedRank
  /\ (forall n url, (keyedRank n url < 2)%nat)
  /\ answeredOnce (RT := sampleRuntime) (envOf keyedNet) 2 fetchCommentsRequest world0
  /\ answeredOnce (RT := sampleRuntime) keylessEnv 0 fetchCommentsRequest world0.
Proof.
  assert (H0 : action fetchCommentsRequest = "fetchComments") by reflexivity.
  assert (H1 : pagesRunOut (RT := sampleRuntime) (net (envOf keyedNet)) keyedRank).
  { apply (keyed_source_runs_out (RT := sampleRuntime) keyedNet (keyedRank 0)).
    exact keyedNet_ranked. }
  assert (H2 : forall n url, (keyedRank n url < 2)%nat).
  { intros n url. unfold keyedRank. destruct (asksForA url); lia. }
  split; [exact H0 |]. split; [exact H1 |]. split; [exact H2 |]. split.
  - exact (proj1 (proj2 (proj2 (proj2 (proj2
             (listener_sends_one_response (RT := sampleRuntime) (envOf keyedNet)
                fetchCommentsRequest world0 H0)))))
             keyedRank 2%nat H1 H2).
  - exact (proj1 (proj2 (proj2
             (listener_sends_one_response (RT := sampleRuntime) keylessEnv
                fetchCommentsRequest world0 H0)))
             eq_refl 0%nat).
Defined.

(** C8 as stated fails: when the source repeats its cursor in every answer,
    the listener is still walking after any number of iterations and has
    sent no response; so not every trigger gets one. *)
Lemma listener_hangs_on_repeated_cursor :
  (forall fuel,
      onMessage (RT := sampleRuntime) (envOf loopNet) fuel fetchCommentsRequest world0 = None)
  /\ ~ (forall env : Env,
           exists fuel w' d r,
             onMessage (RT := sampleRuntime) env fuel fetchCommentsRequest world0
             = Some (Return true, w')
             /\ trace w' = (trace world0 ++ d)%list
             /\ responsesOf d = [r]).
Proof.
  assert (H : forall fuel,
             onMessage (RT := sampleRuntime) (envOf loopNet) fuel fetchCommentsRequest world0
             = None).
  { intros fuel. unfold onMessage, fetchCommentsBody, analyzeVideo, fetchAllComments.
    cbn -[commentsLoop]. unfold bind, tryCatch. cbn -[commentsLoop].
    rewrite commentsLoop_loopNet. reflexivity. }
  split; [exact H |].
  intros Hall. destruct (Hall (envOf loopNet)) as (fuel & w' & d & r & Hrun & _).
  rewrite H in Hrun. discriminate.
Qed.

(** ** The aggregation functions of the popup *)

Module PopupFacts.
Import Js Popup PopupSamples.

(** *** Doubles

    The rounding to the nearest double is monotone, leaves the small
    integers as they are, and moves a number by at most half a unit in the
    last place. *)

Lemma pow2_pos (e : Z) : (0 < pow2 e)%Q.
Proof. apply Qpower_0_lt. reflexivity. Qed.

Lemma pow2_add (a b : Z) : (pow2 (a + b) == pow2 a * pow2 b)%Q.
Proof. apply Qpower_plus. discriminate. Qed.

Lemma pow2_le (a b : Z) : a <= b -> (pow2 a <= pow2 b)%Q.
Proof. intros H. apply Qpower_le_compat_l; [exact H | discriminate]. Qed.

Lemma pow2_inject (n : Z) : 0 <= n -> (pow2 n == inject_Z (2 ^ n))%Q.
Proof. intros H. unfold pow2. rewrite Zpower_Qpower by exact H. reflexivity. Qed.

Lemma pow2_sub (a b : Z) : (pow2 (a - b) == pow2 a / pow2 b)%Q.
Proof. apply Qpower_minus. discriminate. Qed.

Lemma pow2_succ (a : Z) : (pow2 (a + 1) == 2 * pow2 a)%Q.
Proof. rewrite pow2_add. change (pow2 1) with 2%Q. ring. Qed.

Lemma Qdiv_pow2_le (x y : Q) (e : Z) : (x <= y -> x / pow2 e <= y / pow2 e)%Q.
Proof.
  intros H. unfold Qdiv. apply Qmult_le_compat_r; [exact H |].
  apply Qinv_le_0_compat, Qlt_le_weak, pow2_pos.
Qed.

Lemma ilog2_spec (q : Q) :
  (0 < q)%Q -> (pow2 (ilog2 q) <= q)%Q /\ (q < pow2 (ilog2 q + 1))%Q.
Proof.
  intros Hq. destruct q as [n d]. unfold ilog2. cbn [Qnum Qden].
  assert (Hn : 0 < n) by (unfold Qlt in Hq; cbn in Hq; lia).
  set (ln := Z.log2 n). set (ld := Z.log2 (Z.pos d)).
  destruct (Z.log2_spec n Hn) as [Hn1 Hn2]. fold ln in Hn1, Hn2.
  destruct (Z.log2_spec (Z.pos d) (Pos2Z.is_pos d)) as [Hd1 Hd2]. fold ld in Hd1, Hd2.
  assert (Hln : 0 <= ln) by apply Z.log2_nonneg.
  assert (Hld : 0 <= ld) by apply Z.log2_nonneg.
  assert (Eq : (n # d == inject_Z n / inject_Z (Z.pos d))%Q) by apply Qmake_Qdiv.
  assert (Hdp : (0 < inject_Z (Z.pos d))%Q) by (unfold Qlt; cbn; lia).
  assert (Q1 : (pow2 ln <= inject_Z n)%Q) by (rewrite pow2_inject, <- Zle_Qle; lia).
  assert (Q2 : (inject_Z n < pow2 (ln + 1))%Q)
    by (rewrite pow2_inject by lia; rewrite <- Zlt_Qlt; replace (ln + 1) with (Z.succ ln) by lia; lia).
  assert (Q3 : (pow2 ld <= inject_Z (Z.pos d))%Q) by (rewrite pow2_inject, <- Zle_Qle; lia).
  assert (Q4 : (inject_Z (Z.pos d) < pow2 (ld + 1))%Q)
    by (rewrite pow2_inject by lia; rewrite <- Zlt_Qlt; replace (ld + 1) with (Z.succ ld) by lia; lia).
  assert (Hup : (n # d < pow2 (ln - ld + 1))%Q).
  { rewrite Eq. apply Qlt_shift_div_r; [exact Hdp |].
    replace (ln - ld + 1) with ((ln + 1) - ld) by lia. rewrite pow2_sub.
    pose proof (pow2_pos ld) as P1. pose proof (pow2_pos (ln + 1)) as P2.
    apply Qlt_le_trans with (pow2 (ln + 1)); [exact Q2 |].
    assert (E : (pow2 (ln + 1) == pow2 (ln + 1) / pow2 ld * pow2 ld)%Q)
      by (field; intros H0; rewrite H0 in P1; discriminate).
    rewrite E at 1. apply Qmult_le_l; [| exact Q3].
    apply Qlt_shift_div_l; [exact P1 |]. rewrite Qmult_0_l. exact P2. }
  assert (Hlow : (pow2 (ln - ld - 1) < n # d)%Q).
  { rewrite Eq. apply Qlt_shift_div_l; [exact Hdp |].
    replace (ln - ld - 1) with (ln - (ld + 1)) by lia. rewrite pow2_sub.
    pose proof (pow2_pos (ld + 1)) as P1. pose proof (pow2_pos ln) as P2.
    apply Qlt_le_trans with (pow2 ln); [| exact Q1].
    assert (E : (pow2 ln == pow2 ln / pow2 (ld + 1) * pow2 (ld + 1))%Q)
      by (field; intros H0; rewrite H0 in P1; discriminate).
    rewrite E at 2. apply Qmult_lt_l; [| exact Q4].
    apply Qlt_shift_div_l; [exact P1 |]. rewrite Qmult_0_l. exact P2. }
  destruct (Qle_bool (pow2 (ln - ld)) (n # d)) eqn:E.
  - apply Qle_bool_iff in E. split; [exact E | exact Hup].
  - split; [apply Qlt_le_weak; exact Hlow |].
    replace (ln - ld - 1 + 1) with (ln - ld) by lia.
    apply Qnot_le_lt. intros H. apply Qle_bool_iff in H. congruence.
Qed.

Lemma ilog2_mono (x y : Q) : (0 < x)%Q -> (x <= y)%Q -> ilog2 x <= ilog2 y.
Proof.
  intros Hx Hxy.
  assert (Hy : (0 < y)%Q) by (apply Qlt_le_trans with x; assumption).
  destruct (ilog2_spec x Hx) as [X1 _]. destruct (ilog2_spec y Hy) as [_ Y2].
  destruct (Z_le_gt_dec (ilog2 x) (ilog2 y)) as [H | H]; [exact H | exfalso].
  assert (P : (pow2 (ilog2 y + 1) <= pow2 (ilog2 x))%Q) by (apply pow2_le; lia).
  lra.
Qed.

Lemma roundEven_cases (q : Q) :
  (roundEven q = Qfloor q /\ (q - inject_Z (Qfloor q) <= 1 # 2)%Q)
  \/ (roundEven q = Qfloor q + 1 /\ ((1 # 2) <= q - inject_Z (Qfloor q))%Q).
Proof.
  unfold roundEven.
  destruct (Qcompare (q - inject_Z (Qfloor q)) (1 # 2)) eqn:E.
  - apply Qeq_alt in E. destruct (Z.even (Qfloor q)); [left | right]; split; try reflexivity; lra.
  - apply Qlt_alt in E. left. split; [reflexivity | lra].
  - apply Qgt_alt in E. right. split; [reflexivity | lra].
Qed.

Lemma roundEven_near (q : Q) :
  (inject_Z (roundEven q) - q <= 1 # 2)%Q /\ (q - inject_Z (roundEven q) <= 1 # 2)%Q.
Proof.
  pose proof (Qfloor_le q) as H1. pose proof (Qlt_floor q) as H2.
  rewrite inject_Z_plus in H2. change (inject_Z 1) with 1%Q in H2.
  destruct (roundEven_cases q) as [[-> H] | [-> H]].
  - split; lra.
  - rewrite inject_Z_plus. change (inject_Z 1) with 1%Q. split; lra.
Qed.

Lemma roundEven_mono (x y : Q) : (x <= y)%Q -> roundEven x <= roundEven y.
Proof.
  intros Hxy.
  pose proof (Qfloor_resp_le _ _ Hxy) as Hf.
  destruct (Z.eq_dec (Qfloor x) (Qfloor y)) as [E | Hne].
  - unfold roundEven. rewrite <- E.
    destruct (Qcompare_spec (x - inject_Z (Qfloor x)) (1 # 2)) as [Ex | Ex | Ex];
      destruct (Qcompare_spec (y - inject_Z (Qfloor x)) (1 # 2)) as [Ey | Ey | Ey];
      try (destruct (Z.even (Qfloor x))); try lia; exfalso; lra.
  - assert (Hlt : Qfloor x + 1 <= Qfloor y) by lia.
    destruct (roundEven_cases x) as [[-> _] | [-> _]];
      destruct (roundEven_cases y) as [[-> _] | [-> _]]; lia.
Qed.

Lemma roundEven_inject (n : Z) : roundEven (inject_Z n) = n.
Proof.
  unfold roundEven. rewrite Qfloor_Z.
  assert (E : (inject_Z n - inject_Z n ?= 1 # 2)%Q = Lt).
  { apply (proj1 (Qlt_alt _ _)). unfold Qlt. cbn. lia. }
  rewrite E. reflexivity.
Qed.

Lemma nearest_pos (q : Q) :
  (0 < q)%Q -> nearest q = (inject_Z (roundEven (q / pow2 (expOf q))) * pow2 (expOf q))%Q.
Proof.
  intros H. unfold nearest.
  destruct (Qle_bool q 0) eqn:E; [apply Qle_bool_iff in E; lra | reflexivity].
Qed.

Lemma nearest_nonpos (q : Q) : (q <= 0)%Q -> nearest q = 0%Q.
Proof.
  intros H. unfold nearest. apply Qle_bool_iff in H. rewrite H. reflexivity.
Qed.

Lemma scaled_lt (q : Q) : (0 < q)%Q -> (q / pow2 (expOf q) < pow2 53)%Q.
Proof.
  intros H. destruct (ilog2_spec q H) as [_ H2].
  apply Qlt_shift_div_r; [apply pow2_pos |].
  rewrite <- pow2_add.
  apply Qlt_le_trans with (pow2 (ilog2 q + 1)); [exact H2 |].
  apply pow2_le. unfold expOf. lia.
Qed.

Lemma scaled_ge (q : Q) :
  (0 < q)%Q -> -1074 <= ilog2 q - 52 -> (pow2 52 <= q / pow2 (expOf q))%Q.
Proof.
  intros H He. destruct (ilog2_spec q H) as [H1 _].
  apply Qle_shift_div_l; [apply pow2_pos |].
  rewrite <- pow2_add.
  apply Qle_trans with (pow2 (ilog2 q)); [| exact H1].
  apply pow2_le. unfold expOf. lia.
Qed.

Lemma significand_le (q : Q) : (0 < q)%Q -> roundEven (q / pow2 (expOf q)) <= 2 ^ 53.
Proof.
  intros H. pose proof (scaled_lt q H) as Hs.
  rewrite <- (roundEven_inject (2 ^ 53)). apply roundEven_mono.
  rewrite <- pow2_inject by lia. apply Qlt_le_weak, Hs.
Qed.

Lemma significand_ge (q : Q) :
  (0 < q)%Q -> -1074 <= ilog2 q - 52 -> 2 ^ 52 <= roundEven (q / pow2 (expOf q)).
Proof.
  intros H He. pose proof (scaled_ge q H He) as Hs.
  rewrite <- (roundEven_inject (2 ^ 52)). apply roundEven_mono.
  rewrite <- pow2_inject by lia. exact Hs.
Qed.

Lemma significand_nonneg (q : Q) : (0 < q)%Q -> 0 <= roundEven (q / pow2 (expOf q)).
Proof.
  intros H. rewrite <- (roundEven_inject 0). apply roundEven_mono.
  apply Qle_shift_div_l; [apply pow2_pos |]. change (inject_Z 0) with 0%Q. lra.
Qed.

Lemma nearest_nonneg (q : Q) : (0 <= nearest q)%Q.
Proof.
  destruct (Qlt_le_dec 0 q) as [H | H].
  - rewrite (nearest_pos q H).
    apply Qmult_le_0_compat; [| apply Qlt_le_weak, pow2_pos].
    change 0%Q with (inject_Z 0). rewrite <- Zle_Qle. apply significand_nonneg, H.
  - rewrite (nearest_nonpos q H). apply Qle_refl.
Qed.

Lemma nearest_mono (x y : Q) : (x <= y)%Q -> (nearest x <= nearest y)%Q.
Proof.
  intros Hxy. destruct (Qlt_le_dec 0 x) as [Hx | Hx];
    [| rewrite (nearest_nonpos x Hx); apply nearest_nonneg].
  assert (Hy : (0 < y)%Q) by lra.
  rewrite (nearest_pos x Hx), (nearest_pos y Hy).
  pose proof (ilog2_mono x y Hx Hxy) as Hl.
  assert (He : expOf x <= expOf y) by (unfold expOf; lia).
  destruct (Z.eq_dec (expOf x) (expOf y)) as [E | Hne].
  - rewrite E. apply Qmult_le_compat_r; [| apply Qlt_le_weak, pow2_pos].
    rewrite <- Zle_Qle. apply roundEven_mono, Qdiv_pow2_le, Hxy.
  - assert (Hlt : expOf x + 1 <= expOf y) by lia.
    assert (Hn : -1074 <= ilog2 y - 52) by (unfold expOf in *; lia).
    pose proof (significand_le x Hx) as Sx.
    pose proof (significand_ge y Hy Hn) as Sy.
    pose proof (pow2_pos (expOf x)) as Px. pose proof (pow2_pos (expOf y)) as Py.
    apply Qle_trans with (inject_Z (2 ^ 53) * pow2 (expOf x))%Q.
    { apply Qmult_le_compat_r; [rewrite <- Zle_Qle; exact Sx | lra]. }
    apply Qle_trans with (inject_Z (2 ^ 52) * pow2 (expOf y))%Q.
    2:{ apply Qmult_le_compat_r; [rewrite <- Zle_Qle; exact Sy | lra]. }
    pose proof (pow2_le (expOf x + 1) (expOf y) Hlt) as P.
    rewrite pow2_succ in P.
    change (inject_Z (2 ^ 53)) with (2 * inject_Z (2 ^ 52))%Q.
    assert (0 < inject_Z (2 ^ 52))%Q by reflexivity.
    nra.
Qed.

Lemma nearest_comp (x y : Q) : (x == y)%Q -> (nearest x == nearest y)%Q.
Proof.
  intros E. apply Qle_antisym; apply nearest_mono; rewrite E; apply Qle_refl.
Qed.

(** The distance to the nearest number: half a unit in the last place. *)
Lemma nearest_error (q : Q) :
  (0 <= q)%Q ->
  (Qabs (nearest q - q) <= q * pow2 (-53) + pow2 (-1075))%Q.
Proof.
  intros H0. destruct (Qlt_le_dec 0 q) as [H | H].
  2:{ rewrite (nearest_nonpos q H). assert (E : (q == 0)%Q) by lra.
      rewrite E. pose proof (pow2_pos (-1075)). apply Qabs_case; intros; lra. }
  rewrite (nearest_pos q H).
  set (e := expOf q). set (s := (q / pow2 e)%Q).
  pose proof (pow2_pos e) as Pe.
  destruct (roundEven_near s) as [N1 N2].
  assert (Eq : (q == s * pow2 e)%Q).
  { unfold s. field. intros E0. rewrite E0 in Pe. discriminate. }
  assert (Hd : (Qabs (inject_Z (roundEven s) * pow2 e - q) <= pow2 (e - 1))%Q).
  { assert (P1 : (pow2 e == 2 * pow2 (e - 1))%Q).
    { replace e with ((e - 1) + 1) at 1 by lia. apply pow2_succ. }
    apply Qabs_case; intros _; rewrite Eq at 1; nra. }
  apply Qle_trans with (pow2 (e - 1)); [exact Hd |].
  pose proof (pow2_pos (-1075)) as Pm. pose proof (pow2_pos (-53)) as P53.
  destruct (Z_le_gt_dec (-1074) (ilog2 q - 52)) as [Hn | Hn].
  - assert (Ee : e = ilog2 q - 52) by (unfold e, expOf; lia).
    destruct (ilog2_spec q H) as [L1 _].
    assert (P : (pow2 (e - 1) == pow2 (ilog2 q) * pow2 (-53))%Q).
    { rewrite <- pow2_add. rewrite Ee. replace (ilog2 q - 52 - 1) with (ilog2 q + -53) by lia.
      reflexivity. }
    rewrite P. nra.
  - assert (Ee : e = -1074) by (unfold e, expOf; lia).
    rewrite Ee. change (-1074 - 1) with (-1075). nra.
Qed.

Lemma dbl_nearest (x : Q) : (dbl x == nearest x)%Q.
Proof. apply Qred_correct. Qed.


Lemma dbl_mono (x y : Q) : (x <= y)%Q -> (dbl x <= dbl y)%Q.
Proof. intros H. rewrite !dbl_nearest. apply nearest_mono, H. Qed.

Lemma dbl_nonneg (x : Q) : (0 <= dbl x)%Q.
Proof. rewrite dbl_nearest. apply nearest_nonneg. Qed.

Lemma dbl_error (x : Q) :
  (0 <= x)%Q -> (Qabs (dbl x - x) <= x * pow2 (-53) + pow2 (-1075))%Q.
Proof. intros H. rewrite dbl_nearest. apply nearest_error, H. Qed.

(** Below a double [B] that is not an overflow, rounding gives a finite
    number. *)
Lemma round64_finite (x B : Q) :
  (0 <= x)%Q -> (x <= B)%Q -> (nearest B < pow2 1024)%Q ->
  round64 x = Finite (dbl x).
Proof.
  intros H0 HB Hlt. unfold round64, isNegative.
  assert (Ea : (Qabs x == x)%Q) by (apply Qabs_pos, H0).
  assert (Hn : Qle_bool 0 x = true) by (apply Qle_bool_iff, H0).
  rewrite Hn. cbn [negb].
  destruct (Qle_bool (pow2 1024) (nearest (Qabs x))) eqn:E.
  - apply Qle_bool_iff in E. rewrite (nearest_comp _ _ Ea) in E.
    pose proof (nearest_mono x B HB). lra.
  - unfold dbl. f_equal. apply Qred_complete, nearest_comp, Ea.
Qed.

Lemma Qdiv_counts (c T : Z) :
  0 <= c <= T -> 0 < T ->
  (0 <= inject_Z c / inject_Z T)%Q /\ (inject_Z c / inject_Z T <= 1)%Q.
Proof.
  intros Hc HT.
  assert (HT' : (0 < inject_Z T)%Q) by (unfold Qlt; cbn; lia).
  split.
  - apply Qle_shift_div_l; [exact HT' |]. rewrite Qmult_0_l. unfold Qle; cbn; lia.
  - apply Qle_shift_div_r; [exact HT' |]. rewrite Qmult_1_l. unfold Qle; cbn; lia.
Qed.

Lemma inject_Z_nonzero (T : Z) : T <> 0 -> Qeq_bool (inject_Z T) 0 = false.
Proof.
  intros H. destruct (Qeq_bool (inject_Z T) 0) eqn:E; [| reflexivity].
  apply Qeq_bool_eq in E. unfold Qeq in E. cbn in E. lia.
Qed.

Lemma dbl_1 : dbl 1 = 1%Q.
Proof. vm_compute. reflexivity. Qed.

Lemma dbl_4 : dbl 4 = 4%Q.
Proof. vm_compute. reflexivity. Qed.

Lemma dbl_100 : dbl 100 = 100%Q.
Proof. vm_compute. reflexivity. Qed.

Lemma small_is_finite : (nearest 1024 < pow2 1024)%Q.
Proof. vm_compute. reflexivity. Qed.

(** Two small constants that bound the rounding errors below. *)
Lemma pow2_53_small : (pow2 (-53) <= 1 # 9000000000000000)%Q.
Proof. vm_compute. discriminate. Qed.

Lemma pow2_1075_small : (pow2 (-1075) <= 1 # 1000000000000000000)%Q.
Proof. vm_compute. discriminate. Qed.

Lemma small_error (x B : Q) :
  (0 <= x)%Q -> (x <= B)%Q ->
  forall bound : Q,
    (B * (1 # 9000000000000000) + (1 # 1000000000000000000) <= bound)%Q ->
    (x * pow2 (-53) + pow2 (-1075) <= bound)%Q.
Proof.
  intros H0 HB bound Hb.
  pose proof pow2_53_small as P1. pose proof pow2_1075_small as P2.
  pose proof (pow2_pos (-53)) as P3.
  set (u := pow2 (-53)) in *. set (v := pow2 (-1075)) in *.
  assert (H1 : (x * u <= B * (1 # 9000000000000000))%Q)
    by (apply Qmult_le_compat_nonneg; split; lra).
  lra.
Qed.

(** The quotient of two counts, as a double. *)
Lemma ratio_double (c T : Z) :
  0 <= c <= T -> 0 < T ->
  Num_div c T = Finite (dbl (inject_Z c / inject_Z T))
  /\ (dbl (inject_Z c / inject_Z T) <= 1)%Q
  /\ (Qabs (dbl (inject_Z c / inject_Z T) - inject_Z c / inject_Z T)
      <= 1 # 8000000000000000)%Q.
Proof.
  intros Hc HT. destruct (Qdiv_counts c T Hc HT) as [H0 H1].
  split; [| split].
  - unfold Num_div, ofZ. rewrite inject_Z_nonzero by lia.
    apply (round64_finite _ 1024); [exact H0 | lra | exact small_is_finite].
  - rewrite <- dbl_1. apply dbl_mono, H1.
  - pose proof (dbl_error _ H0) as He.
    apply Qle_trans with (1 := He). apply (small_error _ 1 H0 H1). lra.
Qed.

(** [count / total * 100] for a count within the total: a double between 0
    and 100, at most [1e-13] away from the exact percentage. *)
Lemma percent_double (c T : Z) :
  0 <= c <= T -> 0 < T ->
  exists q,
    percent c T = Finite q
    /\ (0 <= q)%Q /\ (q <= 100)%Q
    /\ (Qabs (q - inject_Z c / inject_Z T * 100) <= 1 # 10000000000000)%Q.
Proof.
  intros Hc HT. destruct (ratio_double c T Hc HT) as (E1 & Hle & Herr).
  set (r := (inject_Z c / inject_Z T)%Q) in *.
  set (x := dbl r) in *.
  assert (Hx : (0 <= x)%Q) by apply dbl_nonneg.
  assert (Hx100 : (0 <= x * 100)%Q) by lra.
  exists (dbl (x * 100)).
  split; [| split; [apply dbl_nonneg | split]].
  - unfold percent. rewrite E1. unfold Num_mul, ofZ.
    change (inject_Z 100) with 100%Q.
    apply (round64_finite _ 1024); [exact Hx100 | lra | exact small_is_finite].
  - assert (H : (x * 100 <= 100)%Q) by lra.
    apply dbl_mono in H. rewrite dbl_100 in H. exact H.
  - pose proof (dbl_error _ Hx100) as He.
    assert (He' : (Qabs (dbl (x * 100) - x * 100) <= 1 # 80000000000000)%Q).
    { apply Qle_trans with (1 := He).
      apply (small_error _ 100 Hx100); lra. }
    revert Herr He'. generalize (dbl (x * 100)). intros y.
    apply Qabs_case; intros ?; apply Qabs_case; intros ?; apply Qabs_case; intros; lra.
Qed.

(** The tenths of a number are its nearest tenths. *)
Lemma tenthsOf_near (x : Q) :
  (inject_Z (tenthsOf x) <= x * 10 + (1 # 2))%Q
  /\ (x * 10 - (1 # 2) < inject_Z (tenthsOf x))%Q.
Proof.
  unfold tenthsOf. pose proof (Qfloor_le (x * 10 + (1 # 2))) as H1.
  pose proof (Qlt_floor (x * 10 + (1 # 2))) as H2.
  rewrite inject_Z_plus in H2. change (inject_Z 1) with 1%Q in H2.
  split; lra.
Qed.

Lemma sizeOf_mono (r r' : Q) : (r <= r')%Q -> (sizeOf r <= sizeOf r')%Q.
Proof.
  intros H. unfold sizeOf. apply dbl_mono.
  assert (H1 : (dbl r <= dbl r')%Q) by apply dbl_mono, H.
  assert (H2 : (dbl (dbl r * 4) <= dbl (dbl r' * 4))%Q) by (apply dbl_mono; lra).
  lra.
Qed.





Lemma scale_sizeOf (mx mn c : Z) :
  mn <= c <= mx -> mn < mx ->
  scale mx mn c = Finite (sizeOf (inject_Z (c - mn) / inject_Z (mx - mn))).
Proof.
  intros Hc Hm. unfold scale.
  destruct (Z.eqb_spec mx mn) as [E | _]; [lia |].
  destruct (ratio_double (c - mn) (mx - mn)) as (E1 & Hle & _); [lia | lia |].
  rewrite E1. set (x := dbl (inject_Z (c - mn) / inject_Z (mx - mn))) in *.
  assert (Hx : (0 <= x)%Q) by apply dbl_nonneg.
  unfold Num_mul, ofZ. change (inject_Z 4) with 4%Q.
  rewrite (round64_finite (x * 4) 1024); [| lra | lra | exact small_is_finite].
  unfold Num_add. change (inject_Z 1) with 1%Q.
  assert (Hy : (0 <= dbl (x * 4))%Q) by apply dbl_nonneg.
  assert (Hy4 : (dbl (x * 4) <= 4)%Q).
  { assert (H : (x * 4 <= 4)%Q) by lra.
    apply dbl_mono in H. rewrite dbl_4 in H. exact H. }
  rewrite (round64_finite (1 + dbl (x * 4)) 1024); [| lra | lra | exact small_is_finite].
  reflexivity.
Qed.

(** The scale of the word cloud does not decrease with the count. *)
Lemma scale_monotone (mx mn a b : Z) :
  mn <= a -> a <= b -> b <= mx -> Num_le (scale mx mn a) (scale mx mn b).
Proof.
  intros Ha Hab Hb.
  destruct (Z.eq_dec mx mn) as [E | Hne].
  - unfold scale. apply Z.eqb_eq in E. rewrite E. cbn. apply Qle_refl.
  - rewrite !scale_sizeOf by lia. cbn [Num_le]. apply sizeOf_mono.
    assert (Hd : (0 < inject_Z (mx - mn))%Q) by (unfold Qlt; cbn; lia).
    unfold Qdiv. apply Qmult_le_compat_r.
    + rewrite <- Zle_Qle. lia.
    + apply Qinv_le_0_compat. lra.
Qed.


(** The doubles of [0.1] and of [0.1 + 0.2], the largest double, and the
    overflow beyond it, as binary64 has them. *)
Example known_doubles :
  round64 (1 # 10) = Finite (3602879701896397 # 36028797018963968)
  /\ Num_add (round64 (1 # 10)) (round64 (2 # 10))
     = round64 (30000000000000004 # 100000000000000000)
  /\ round64 (inject_Z (2 ^ 1024 - 2 ^ 970 - 1)) = Finite (inject_Z (2 ^ 1024 - 2 ^ 971))
  /\ round64 (inject_Z (2 ^ 1024 - 2 ^ 970)) = Infinity false
  /\ Num_div 0 0 = NaN.
Proof. repeat split; vm_compute; reflexivity. Qed.

Lemma Zle_of_Qlt (a b : Z) (q : Q) :
  (inject_Z a - (1 # 2) <= q)%Q -> (q - (1 # 2) < inject_Z b)%Q -> a <= b.
Proof.
  intros H1 H2.
  assert (H : (inject_Z a < inject_Z (b + 1))%Q).
  { rewrite inject_Z_plus. change (inject_Z 1) with 1%Q.
    revert H1 H2. generalize (inject_Z a) (inject_Z b). intros x y H1 H2. lra. }
  rewrite <- Zlt_Qlt in H. lia.
Qed.

Lemma Zle_of_Qle (a b : Z) (q : Q) :
  (inject_Z a <= q + (1 # 2))%Q -> (q <= inject_Z b)%Q -> a <= b.
Proof.
  intros H1 H2.
  assert (H : (inject_Z a < inject_Z (b + 1))%Q).
  { rewrite inject_Z_plus. change (inject_Z 1) with 1%Q.
    revert H1 H2. generalize (inject_Z a) (inject_Z b). intros x y H1 H2. lra. }
  rewrite <- Zlt_Qlt in H. lia.
Qed.

(** The numeral printed for [count / total * 100]: between 0.0 and 100.0,
    and the nearest to the exact percentage, up to the rounding of the two
    operations. *)
Lemma printed_percent (c T : Z) :
  0 <= c <= T -> 0 < T ->
  exists q,
    percent c T = Finite q
    /\ (0 <= q)%Q
    /\ toFixed1 (percent c T) = fixed1 (tenthsOf q)
    /\ 0 <= tenthsOf q <= 1000
    /\ (Qabs (inject_Z (tenthsOf q) - inject_Z c / inject_Z T * 1000)
        <= (1 # 2) + (1 # 1000000000000))%Q.
Proof.
  intros Hc HT. destruct (percent_double c T Hc HT) as (q & E & H0 & H100 & Herr).
  exists q. rewrite E. split; [reflexivity |]. split; [exact H0 |].
  destruct (tenthsOf_near q) as [N1 N2].
  split; [| split; [split |]].
  - unfold toFixed1. apply Qle_bool_iff in H0. rewrite H0. reflexivity.
  - apply (Zle_of_Qlt 0 _ (q * 10)); [change (inject_Z 0) with 0%Q; lra | exact N2].
  - apply (Zle_of_Qle _ 1000 (q * 10)); [exact N1 | change (inject_Z 1000) with 1000%Q; lra].
  - revert Herr N1 N2. generalize (inject_Z (tenthsOf q)). intros t.
    generalize (inject_Z c / inject_Z T)%Q. intros r.
    apply Qabs_case; intros ?; apply Qabs_case; intros; lra.
Qed.

(** *** Sentiment counts *)

Lemma counts_of_recognized :
  forall (R : list Comment) (a b c : Z),
    Forall (fun x => recognized (sentiment x)) R ->
    fold_left
      (fun acc x => set (sentiment x) (orZero (get (sentiment x) acc) + 1) acc)
      R [("positive", a); ("neutral", b); ("negative", c)]
    = [("positive", a + countOf "positive" R);
       ("neutral", b + countOf "neutral" R);
       ("negative", c + countOf "negative" R)].
Proof.
  induction R as [| x R IH]; intros a b c HR.
  - unfold countOf; cbn. rewrite !Z.add_0_r. reflexivity.
  - inversion HR as [| ? ? Hx HR']; subst.
    cbn [fold_left]. unfold countOf. cbn [filter].
    destruct Hx as [Hx | [Hx | [Hx | []]]]; rewrite <- Hx; cbn -[Z.of_nat];
      rewrite IH by assumption; unfold countOf;
      repeat match goal with
             | |- _ :: _ = _ :: _ => f_equal
             | |- (_, _) = (_, _) => f_equal
             end; lia.
Qed.

Lemma countOf_sum (R : list Comment) :
  Forall (fun x => recognized (sentiment x)) R ->
  countOf "positive" R + countOf "neutral" R + countOf "negative" R
  = Z.of_nat (List.length R).
Proof.
  induction R as [| x R IH]; intros HR; [reflexivity |].
  inversion HR as [| ? ? Hx HR']; subst. specialize (IH HR').
  unfold countOf in *. cbn [filter List.length].
  destruct Hx as [Hx | [Hx | [Hx | []]]]; rewrite <- Hx; cbn -[Z.of_nat]; lia.
Qed.

Lemma toLowerCase_empty (s : string) : toLowerCase s = "" -> s = "".
Proof. destruct s; cbn; [reflexivity | discriminate]. Qed.

(** C2, amended.  For every record set whose sentiments are all among
    positive, neutral and negative, [getSentimentCounts] returns an object
    with exactly these three keys, each value is the number of records with
    that sentiment, and the three values sum to the size of the set.  The
    normalization of [updateCommentsData] turns a missing or empty sentiment
    into neutral; any other value is lower-cased and kept, not defaulted. *)
Theorem sentiment_counts_of_recognized (R : list Comment) :
  Forall (fun c => recognized (sentiment c)) R ->
  let counts := getSentimentCounts R in
  map fst counts = ["positive"; "neutral"; "negative"]
  /\ (forall s, recognized s -> get s counts = Some (countOf s R))
  /\ orZero (get "positive" counts) + orZero (get "neutral" counts)
     + orZero (get "negative" counts) = Z.of_nat (List.length R)
  /\ (forall p, p_sentiment p = None \/ p_sentiment p = Some "" ->
                sentiment (normalize p) = "neutral")
  /\ (forall p s, p_sentiment p = Some s -> s <> "" ->
                  sentiment (normalize p) = toLowerCase s).
Proof.
  intros HR counts. subst counts. unfold getSentimentCounts.
  rewrite (counts_of_recognized R 0 0 0 HR). cbn.
  split; [reflexivity |]. split; [| split; [| split]].
  - intros s [<- | [<- | [<- | []]]]; reflexivity.
  - rewrite <- (countOf_sum R HR). lia.
  - intros p [Hp | Hp]; unfold normalize; cbn; rewrite Hp; reflexivity.
  - intros p s Hp Hs. unfold normalize; cbn. rewrite Hp. unfold orElse.
    destruct (toLowerCase s =? "")%string eqn:E; [| reflexivity].
    apply String.eqb_eq, toLowerCase_empty in E. contradiction.
Qed.

Lemma sentiment_counts_of_recognized_witness :
  let R := updateCommentsData
             [prediction (Some "Positive") None None;
              prediction None None None;
              prediction (Some "NEGATIVE") (Some "Strong") None] [] in
  Forall (fun c => recognized (sentiment c)) R
  /\ getSentimentCounts R = [("positive", 1); ("neutral", 1); ("negative", 1)]
  /\ orZero (get "positive" (getSentimentCounts R))
     + orZero (get "neutral" (getSentimentCounts R))
     + orZero (get "negative" (getSentimentCounts R)) = 3.
Proof.
  intros R.
  assert (HR : Forall (fun c => recognized (sentiment c)) R).
  { subst R. cbn.
    repeat (apply Forall_cons; [unfold recognized; cbn; tauto |]). apply Forall_nil. }
  split; [exact HR |]. split; [reflexivity |].
  exact (proj1 (proj2 (proj2 (sentiment_counts_of_recognized R HR)))).
Defined.

(** C2 as stated fails on an unrecognized sentiment: "Mixed" is lower-cased
    and kept by the normalization, the result has a fourth key, the record
    is not counted as neutral, and the three values sum to 0 for a set of
    one record. *)
Lemma sentiment_counts_with_unrecognized :
  let R := updateCommentsData [prediction (Some "Mixed") None None] [] in
  getSentimentCounts R
  = [("positive", 0); ("neutral", 0); ("negative", 0); ("mixed", 1)]
  /\ map fst (getSentimentCounts R) <> ["positive"; "neutral"; "negative"]
  /\ orZero (get "positive" (getSentimentCounts R))
     + orZero (get "neutral" (getSentimentCounts R))
     + orZero (get "negative" (getSentimentCounts R))
     <> Z.of_nat (List.length R).
Proof.
  cbn. split; [reflexivity |]. split; discriminate.
Qed.

(** *** The detailed breakdown *)

(** C7.  The percentages of strong and weak records of the selected
    sentiment are computed against [max(1, strong + weak)], which is never
    zero: no quotient is [NaN] or infinite.  Each percentage is printed as a
    numeral between 0.0 and 100.0, the nearest to the exact percentage up to
    the rounding of the doubles; with 3 strong and 1 weak records the
    numerals are 75.0 and 25.0, with no matching record they are both 0.0. *)
Theorem breakdown_percentages (R : list Comment) (sel : string) :
  sel <> "" ->
  exists b s w,
    renderDetailedBreakdown R (Some sel) = Some b
    /\ total b = Z.max 1 (strongCount sel R + weakCount sel R)
    /\ 1 <= total b
    /\ strongPercent b = toFixed1 (percent (strongCount sel R) (total b))
    /\ weakPercent b = toFixed1 (percent (weakCount sel R) (total b))
    /\ strongPercent b = fixed1 s /\ 0 <= s <= 1000
    /\ (Qabs (inject_Z s - inject_Z (strongCount sel R) / inject_Z (total b) * 1000)
        <= (1 # 2) + (1 # 1000000000000))%Q
    /\ weakPercent b = fixed1 w /\ 0 <= w <= 1000
    /\ (Qabs (inject_Z w - inject_Z (weakCount sel R) / inject_Z (total b) * 1000)
        <= (1 # 2) + (1 # 1000000000000))%Q
    /\ (strongCount sel R = 3 -> weakCount sel R = 1 ->
        strongPercent b = "75.0" /\ weakPercent b = "25.0")
    /\ (strongCount sel R = 0 -> weakCount sel R = 0 ->
        strongPercent b = "0.0" /\ weakPercent b = "0.0").
Proof.
  intros Hsel. unfold renderDetailedBreakdown.
  apply String.eqb_neq in Hsel. rewrite Hsel.
  fold (strongCount sel R). fold (weakCount sel R).
  assert (Hs : 0 <= strongCount sel R) by (unfold strongCount; lia).
  assert (Hw : 0 <= weakCount sel R) by (unfold weakCount; lia).
  set (T := if strongCount sel R + weakCount sel R =? 0 then 1
            else strongCount sel R + weakCount sel R).
  assert (HT : T = Z.max 1 (strongCount sel R + weakCount sel R)).
  { unfold T. destruct (strongCount sel R + weakCount sel R =? 0) eqn:E;
      [apply Z.eqb_eq in E | apply Z.eqb_neq in E]; lia. }
  destruct (printed_percent (strongCount sel R) T) as (qs & _ & _ & Es & Rs & As); [lia | lia |].
  destruct (printed_percent (weakCount sel R) T) as (qw & _ & _ & Ew & Rw & Aw); [lia | lia |].
  eexists _, (tenthsOf qs), (tenthsOf qw). split; [reflexivity |].
  cbn [total strongPercent weakPercent]. fold T.
  split; [exact HT |]. split; [lia |].
  split; [reflexivity |]. split; [reflexivity |].
  split; [exact Es |]. split; [exact Rs |]. split; [exact As |].
  split; [exact Ew |]. split; [exact Rw |]. split; [exact Aw |].
  split; intros E1 E2; unfold T; rewrite E1, E2; split; vm_compute; reflexivity.
Qed.

Lemma breakdown_percentages_witness :
  let R := (repeat (comment "positive" "strong" (TsNumber 5)) 23
            ++ [comment "negative" "weak" (TsNumber 41)]
            ++ repeat (comment "positive" "weak" (TsNumber 70)) 57)%list in
  "positive" <> ""
  /\ exists b,
       renderDetailedBreakdown R (Some "positive") = Some b
       /\ total b = 80
       /\ strongPercent b = "28.7"
       /\ weakPercent b = "71.3".
Proof.
  intros R.
  assert (H : "positive" <> "") by discriminate.
  split; [exact H |].
  destruct (breakdown_percentages R "positive" H)
    as (b & s & w & Hb & Ht & _ & Hs & Hw & _).
  exists b. split; [exact Hb |]. split; [exact Ht |].
  rewrite Hs, Hw, Ht. split; vm_compute; reflexivity.
Defined.

(** *** Records without a usable timestamp *)

Lemma falsy_timestamp_is_skipped {B : Builtins} (map : Obj Row) (c : Comment) :
  falsyTimestamp (timestamp c) = true -> timelineStep map c = map.
Proof.
  intros H. unfold timelineStep, toDateFromAny. rewrite H. reflexivity.
Qed.

Lemma falsy_timestamps_are_dropped {B : Builtins} (R : list Comment) :
  Forall (fun c => falsyTimestamp (timestamp c) = true) R ->
  processTimelineData R = [].
Proof.
  intros HR. unfold processTimelineData.
  assert (H : forall m, fold_left timelineStep R m = m).
  { induction HR as [| c R Hc HR IH]; intros m; [reflexivity |].
    cbn [fold_left]. rewrite (falsy_timestamp_is_skipped m c Hc). apply IH. }
  rewrite H. reflexivity.
Qed.

(** C9, the code at the failing input.  A record whose timestamp is 0, or
    missing and replaced by 0 by the normalization, is skipped by
    [processTimelineData].  A record whose timestamp is a string that is
    neither a number nor a date, or a number beyond the range of dates, is
    not: [toDateFromAny] returns an invalid date, which is not [null], and
    the record is counted in a row whose bin is [NaN]; [formatTime] does
    test for the invalid date. *)
Theorem unparsable_timestamp_is_binned :
  processTimelineData (B := sampleBuiltins)
    [comment "positive" "weak" (TsString "not a date")]
  = [{| bin := None; positive := 1; neutral := 0; negative := 0 |}]
  /\ formatTime (B := sampleBuiltins) (TsString "not a date") = "00:00"
  /\ processTimelineData (B := sampleBuiltins)
       [comment "positive" "weak" (TsNumber 10000000000000000)]
     = [{| bin := None; positive := 1; neutral := 0; negative := 0 |}]
  /\ processTimelineData (B := sampleBuiltins)
       (updateCommentsData [prediction (Some "positive") None None;
                            prediction (Some "positive") None (Some (TsNumber 0))] [])
     = []
  /\ (forall (B : Builtins) (R : list Comment),
         Forall (fun c => falsyTimestamp (timestamp c) = true) R ->
         processTimelineData R = []).
Proof.
  split; [reflexivity |]. split; [reflexivity |]. split; [reflexivity |].
  split; [reflexivity |].
  intros B R. apply falsy_timestamps_are_dropped.
Qed.

(** *** Sorting and the order of properties *)

Section SortFacts.
Context {A : Type}.
Variable cmp : A -> A -> Z.
Variable le : A -> A -> Prop.
Variable P : A -> Prop.
Hypothesis le_of_cmp : forall x y, P x -> P y -> cmp x y <= 0 -> le x y.
Hypothesis le_of_gt : forall x y, P x -> P y -> 0 < cmp x y -> le y x.
Hypothesis le_trans : forall x y z, le x y -> le y z -> le x z.

Lemma insertBy_perm (x : A) (l : list A) : Permutation (insertBy cmp x l) (x :: l).
Proof.
  induction l as [| y l IH]; cbn; [reflexivity |].
  destruct (cmp x y <=? 0); [reflexivity |].
  rewrite IH. apply perm_swap.
Qed.

Lemma sortBy_perm (l : list A) : Permutation (sortBy cmp l) l.
Proof.
  induction l as [| x l IH]; cbn; [reflexivity |].
  rewrite insertBy_perm. apply perm_skip. exact IH.
Qed.

Lemma insertBy_sorted (x : A) (l : list A) :
  P x -> Forall P l ->
  StronglySorted le l -> StronglySorted le (insertBy cmp x l).
Proof.
  intros Px Pl Hs. induction Hs as [| y l Hl IH Hy]; cbn.
  - repeat constructor.
  - inversion Pl as [| ? ? Py Pl']; subst.
    destruct (cmp x y <=? 0) eqn:E.
    + apply Z.leb_le in E. constructor; [constructor; assumption |].
      constructor; [apply le_of_cmp; assumption |].
      rewrite Forall_forall in *. intros z Hz.
      apply le_trans with y; [apply le_of_cmp; assumption | apply Hy; exact Hz].
    + apply Z.leb_gt in E. constructor; [apply IH; exact Pl' |].
      rewrite Forall_forall in *. intros z Hz.
      apply (Permutation_in _ (insertBy_perm x l)) in Hz.
      destruct Hz as [<- | Hz]; [apply le_of_gt; assumption | apply Hy; exact Hz].
Qed.

Lemma sortBy_sorted (l : list A) : Forall P l -> StronglySorted le (sortBy cmp l).
Proof.
  induction 1 as [| x l Px Pl IH]; cbn; [constructor |].
  apply insertBy_sorted; [exact Px | | exact IH].
  rewrite Forall_forall in *. intros z Hz. apply Pl.
  apply (Permutation_in _ (sortBy_perm l)). exact Hz.
Qed.
Lemma last_In (l : list A) (d : A) : l <> [] -> In (last l d) l.
Proof.
  induction l as [| x l IH]; intros H; [contradiction |].
  destruct l as [| y l']; [left; reflexivity |].
  right. apply IH. discriminate.
Qed.

Lemma sorted_last (l : list A) (d : A) :
  (forall x, le x x) ->
  StronglySorted le l -> forall x, In x l -> le x (last l d).
Proof.
  intros Hrefl. induction 1 as [| y l Hl IH Hy]; intros x Hx; [destruct Hx |].
  destruct l as [| z l'].
  - destruct Hx as [<- | []]. apply Hrefl.
  - change (last (y :: z :: l') d) with (last (z :: l') d).
    destruct Hx as [<- | Hx].
    + rewrite Forall_forall in Hy. apply Hy. apply last_In. discriminate.
    + apply IH. exact Hx.
Qed.

End SortFacts.

Lemma filter_split_perm {A} (p : A -> bool) (l : list A) :
  Permutation (filter p l ++ filter (fun x => negb (p x)) l) l.
Proof.
  induction l as [| x l IH]; cbn; [reflexivity |].
  destruct (p x); cbn.
  - apply perm_skip. exact IH.
  - rewrite <- Permutation_middle. apply perm_skip. exact IH.
Qed.

Lemma Object_entries_perm {V} (o : Obj V) : Permutation (Object_entries o) o.
Proof.
  unfold Object_entries. rewrite sortBy_perm. apply filter_split_perm.
Qed.

Lemma In_mapi {A B} (f : nat -> A -> B) (l : list A) :
  forall i y, In y (mapi f i l) -> exists j x, In x l /\ y = f j x.
Proof.
  induction l as [| x l IH]; intros i y Hy; [destruct Hy |].
  destruct Hy as [<- | Hy].
  - exists i, x. split; [left; reflexivity | reflexivity].
  - destruct (IH _ _ Hy) as (j & x' & Hx' & E). exists j, x'. split; [right; exact Hx' | exact E].
Qed.

Lemma In_firstn {A} (n : nat) (l : list A) (x : A) : In x (firstn n l) -> In x l.
Proof.
  intros H. rewrite <- (firstn_skipn n l). apply in_or_app. left. exact H.
Qed.

(** *** The word cloud *)

Lemma sortedWords_perm (counts : Obj Z) : Permutation (sortedWords counts) counts.
Proof.
  unfold sortedWords. rewrite sortBy_perm. apply Object_entries_perm.
Qed.

Lemma sortedWords_sorted (counts : Obj Z) :
  StronglySorted (fun a b : string * Z => snd b <= snd a) (sortedWords counts).
Proof.
  unfold sortedWords.
  apply (sortBy_sorted _ _ (fun _ => True)); try (intros; lia).
  rewrite Forall_forall. auto.
Qed.

(** The first entry of the sorted words carries the largest count, the last
    one the smallest. *)
Lemma sortedWords_range (counts : Obj Z) (h : string * Z) (t : list (string * Z)) :
  sortedWords counts = h :: t ->
  forall e, In e (h :: t) ->
    snd (last (h :: t) (EmptyString, 1)) <= snd e <= snd h.
Proof.
  intros Es e He.
  pose proof (sortedWords_sorted counts) as Hsorted. rewrite Es in Hsorted.
  split.
  - apply (sorted_last (fun a b : string * Z => snd b <= snd a) (h :: t) (EmptyString, 1));
      [intros; lia | exact Hsorted | exact He].
  - destruct He as [<- | He]; [lia |].
    inversion Hsorted as [| ? ? _ Hh]; subst. rewrite Forall_forall in Hh.
    apply (Hh e He).
Qed.






(** *** The timeline: numbers, keys and bins *)
Lemma showZ_inj (a b : Z) : showZ a = showZ b -> a = b.
Proof.
  unfold showZ. intros H. apply DecimalZ.to_int_inj.
  assert (Hn : forall z, Z.to_int z <> Decimal.Pos Decimal.Nil
                         /\ Z.to_int z <> Decimal.Neg Decimal.Nil).
  { intros [| p | p]; cbn; split; try discriminate;
      intros [= E]; exact (DecimalPos.Unsigned.to_uint_nonnil _ E). }
  pose proof (NilZero.isi _ (proj1 (Hn a)) (proj2 (Hn a))) as Ha.
  pose proof (NilZero.isi _ (proj1 (Hn b)) (proj2 (Hn b))) as Hb.
  rewrite H in Ha. rewrite Ha in Hb. congruence.
Qed.

Lemma showZ_eqb (a b : Z) : (showZ a =? showZ b)%string = (a =? b).
Proof.
  destruct (Z.eqb_spec a b) as [-> | Hne].
  - apply String.eqb_refl.
  - apply String.eqb_neq. intros H. apply Hne, showZ_inj, H.
Qed.

Lemma Qfloor_scaled (x : Q) (k : Z) :
  0 < k -> Qfloor (x * inject_Z k) / k = Qfloor x.
Proof.
  intros Hk. destruct x as [n d]. unfold Qfloor, Qmult, inject_Z. cbn [Qnum Qden].
  rewrite Pos.mul_1_r. rewrite Z.div_div by lia.
  apply Z.div_mul_cancel_r; lia.
Qed.

Lemma Qfloor_divided (x : Q) (k : Z) :
  0 < k -> Qfloor x / k = Qfloor (x / inject_Z k).
Proof.
  intros Hk. destruct k as [| p | p]; try lia.
  destruct x as [n d]. unfold Qfloor, Qdiv, Qmult, Qinv, inject_Z. cbn [Qnum Qden].
  rewrite Z.mul_1_r. rewrite Z.div_div by lia. rewrite Pos2Z.inj_mul. reflexivity.
Qed.

(** The bin that the code computes for a number of seconds. *)
Lemma bin_of_seconds (q : Q) :
  (0 <= q)%Q -> (q < 1000000000000)%Q ->
  binOfDate (newDate (toMillis q)) = Some (slot q).
Proof.
  intros H0 H1. unfold toMillis.
  replace (Qle_bool 1000000000000 q) with false
    by (symmetry; apply not_true_is_false; rewrite Qle_bool_iff; lra).
  unfold newDate.
  replace (Qle_bool (Qabs (q * 1000)) 8640000000000000) with true
    by (symmetry; apply Qle_bool_iff; rewrite Qabs_pos by lra; lra).
  unfold Qtrunc.
  replace (Qle_bool 0 (q * 1000)) with true
    by (symmetry; apply Qle_bool_iff; lra).
  unfold binOfDate, slot. f_equal. f_equal.
  change (1000%Q) with (inject_Z 1000). rewrite Qfloor_scaled by lia.
  change (30%Q) with (inject_Z 30). apply Qfloor_divided. lia.
Qed.

(** The bin of a number of milliseconds. *)
Lemma bin_of_milliseconds (q : Q) :
  (1000000000000 <= q)%Q -> (q <= 8640000000000000)%Q ->
  binOfDate (newDate (toMillis q)) = Some (slot (q / 1000)).
Proof.
  intros H0 H1. unfold toMillis.
  replace (Qle_bool 1000000000000 q) with true
    by (symmetry; apply Qle_bool_iff; exact H0).
  unfold newDate.
  replace (Qle_bool (Qabs q) 8640000000000000) with true
    by (symmetry; apply Qle_bool_iff; rewrite Qabs_pos by lra; lra).
  unfold Qtrunc.
  replace (Qle_bool 0 q) with true by (symmetry; apply Qle_bool_iff; lra).
  unfold binOfDate, slot. f_equal. f_equal.
  change (1000%Q) with (inject_Z 1000). change (30%Q) with (inject_Z 30).
  rewrite (Qfloor_divided q 1000) by lia. apply Qfloor_divided. lia.
Qed.

(** A number falls in [[b, b + 30)] exactly when its bin is [b], for [b] a
    multiple of 30. *)
Lemma slot_interval (q : Q) (k : Z) :
  slot q = 30 * k <->
  (inject_Z (30 * k) <= q)%Q /\ (q < inject_Z (30 * k + 30))%Q.
Proof.
  unfold slot. change (30%Q) with (inject_Z 30).
  rewrite <- (Qfloor_divided q 30) by lia.
  pose proof (Qfloor_le q) as Hlo. pose proof (Qlt_floor q) as Hhi.
  set (f := Qfloor q) in *.
  pose proof (Z.div_mod f 30 ltac:(lia)) as Hdm.
  pose proof (Z.mod_pos_bound f 30 ltac:(lia)) as Hmod.
  split.
  - intros H. assert (Hk : f / 30 = k) by lia.
    split.
    + apply Qle_trans with (inject_Z f); [| exact Hlo].
      rewrite <- Zle_Qle. lia.
    + apply Qlt_le_trans with (inject_Z (f + 1)); [exact Hhi |].
      rewrite <- Zle_Qle. lia.
  - intros [H1 H2].
    assert (Ha : 30 * k <= f).
    { apply Qfloor_resp_le in H1. rewrite Qfloor_Z in H1. exact H1. }
    assert (Hb : f < 30 * k + 30).
    { rewrite Zlt_Qlt. apply Qle_lt_trans with q; assumption. }
    assert (Hk : f / 30 = k); [| lia].
    symmetry. apply (Z.div_unique f 30 k (f - 30 * k)); lia.
Qed.

(** *** The map built by processTimelineData *)

Lemma existsb_eqb_In (b : Z) (l : list Z) : existsb (Z.eqb b) l = true <-> In b l.
Proof.
  rewrite existsb_exists. split.
  - intros (x & Hx & E). apply Z.eqb_eq in E. subst. exact Hx.
  - intros H. exists b. split; [exact H | apply Z.eqb_refl].
Qed.

Lemma slotOf_multiple (c : Comment) (b : Z) :
  slotOf c = Some b -> exists k, b = 30 * k.
Proof.
  unfold slotOf. destruct (timestamp c) as [q | s]; [| discriminate].
  destruct (Qeq_bool q 0); [discriminate |].
  intros [= <-]. exists (Qfloor (q / 30)). unfold slot. lia.
Qed.

Lemma inBin_slotOf (c : Comment) (k : Z) :
  seconds c ->
  inBin (30 * k) c = match slotOf c with
                     | Some b => b =? 30 * k
                     | None => false
                     end.
Proof.
  intros (q & Hq & H0 & H1). unfold inBin, slotOf. rewrite Hq.
  destruct (Qeq_bool q 0); [reflexivity |]. cbn [negb andb].
  pose proof (slot_interval q k) as Hint.
  destruct (Z.eqb_spec (slot q) (30 * k)) as [E | E].
  - apply Hint in E as [E1 E2].
    apply Qle_bool_iff in E1. rewrite E1. cbn [andb].
    apply negb_true_iff, not_true_is_false. rewrite Qle_bool_iff. lra.
  - destruct (Qle_bool (inject_Z (30 * k)) q) eqn:E1; [| reflexivity].
    destruct (Qle_bool (inject_Z (30 * k + 30)) q) eqn:E2; [reflexivity |].
    exfalso. apply E, Hint. split.
    + apply Qle_bool_iff. exact E1.
    + apply Qnot_le_lt. rewrite <- Qle_bool_iff, E2. discriminate.
Qed.

Lemma binsSeen_app (R : list Comment) (c : Comment) :
  binsSeen (R ++ [c])
  = match slotOf c with
    | Some b => if existsb (Z.eqb b) (binsSeen R) then binsSeen R
                else (binsSeen R ++ [b])%list
    | None => binsSeen R
    end.
Proof. unfold binsSeen. rewrite fold_left_app. reflexivity. Qed.

Lemma binsSeen_spec (R : list Comment) (b : Z) :
  In b (binsSeen R) <-> exists c, In c R /\ slotOf c = Some b.
Proof.
  induction R as [| c R IH] using rev_ind.
  - cbn. split; [intros [] | intros (c & [] & _)].
  - rewrite binsSeen_app. split.
    + intros H.
      assert (Hcases : In b (binsSeen R) \/ slotOf c = Some b).
      { destruct (slotOf c) as [b' |]; [| left; exact H].
        destruct (existsb (Z.eqb b') (binsSeen R)); [left; exact H |].
        apply in_app_or in H as [H | [<- | []]]; [left; exact H | right; reflexivity]. }
      destruct Hcases as [H' | H'].
      * apply IH in H' as (c' & Hc' & E). exists c'. split; [| exact E].
        apply in_or_app. left. exact Hc'.
      * exists c. split; [apply in_or_app; right; left; reflexivity | exact H'].
    + intros (c' & Hc' & E). apply in_app_or in Hc' as [Hc' | [<- | []]].
      * assert (H : In b (binsSeen R)) by (apply IH; exists c'; auto).
        destruct (slotOf c) as [b' |]; [| exact H].
        destruct (existsb (Z.eqb b') (binsSeen R)); [exact H |].
        apply in_or_app. left. exact H.
      * rewrite E. destruct (existsb (Z.eqb b) (binsSeen R)) eqn:Ex.
        -- apply existsb_eqb_In. exact Ex.
        -- apply in_or_app. right. left. reflexivity.
Qed.

Lemma binsSeen_NoDup (R : list Comment) : NoDup (binsSeen R).
Proof.
  induction R as [| c R IH] using rev_ind; [constructor |].
  rewrite binsSeen_app. destruct (slotOf c) as [b |]; [| exact IH].
  destruct (existsb (Z.eqb b) (binsSeen R)) eqn:Ex; [exact IH |].
  apply (Permutation_NoDup (l := b :: binsSeen R)).
  - apply Permutation_cons_append.
  - constructor; [| exact IH]. rewrite <- existsb_eqb_In, Ex. discriminate.
Qed.

Section Entries.
Variables f g : Z -> Row.

Lemma get_entries (bs : list Z) (b : Z) :
  get (showZ b) (map (entry f) bs)
  = if existsb (Z.eqb b) bs then Some (f b) else None.
Proof.
  induction bs as [| b' bs IH]; [reflexivity |].
  cbn [map entry get existsb]. rewrite showZ_eqb.
  destruct (Z.eqb_spec b b') as [-> | Hne]; [reflexivity | exact IH].
Qed.

Lemma set_entries_present (bs : list Z) (b : Z) :
  NoDup bs -> In b bs ->
  (forall b', In b' bs -> b' <> b -> g b' = f b') ->
  set (showZ b) (g b) (map (entry f) bs) = map (entry g) bs.
Proof.
  induction bs as [| b' bs IH]; intros Hnd Hin Hext; [destruct Hin |].
  inversion Hnd as [| ? ? Hnotin Hnd']; subst.
  cbn [map entry set]. rewrite showZ_eqb.
  destruct (Z.eqb_spec b b') as [-> | Hne].
  - f_equal. apply map_ext_in. intros b'' Hb''. unfold entry. f_equal.
    symmetry. apply Hext; [right; exact Hb'' |]. intros ->. contradiction.
  - f_equal.
    + unfold entry. f_equal. symmetry. apply Hext; [left; reflexivity | auto].
    + apply IH; [exact Hnd' | destruct Hin as [-> | H]; [contradiction | exact H] |].
      intros b'' Hb''. apply Hext. right. exact Hb''.
Qed.

Lemma set_entries_absent (bs : list Z) (b : Z) :
  ~ In b bs ->
  (forall b', In b' bs -> g b' = f b') ->
  set (showZ b) (g b) (map (entry f) bs) = map (entry g) (bs ++ [b]).
Proof.
  induction bs as [| b' bs IH]; intros Hnotin Hext; [reflexivity |].
  cbn [map entry set app]. rewrite showZ_eqb.
  destruct (Z.eqb_spec b b') as [-> | Hne]; [exfalso; apply Hnotin; left; reflexivity |].
  f_equal.
  - unfold entry. f_equal. symmetry. apply Hext. left. reflexivity.
  - apply IH; [intros H; apply Hnotin; right; exact H |].
    intros b'' Hb''. apply Hext. right. exact Hb''.
Qed.

End Entries.

Lemma tally_app (s : string) (b : Z) (R : list Comment) (c : Comment) :
  tally s b (R ++ [c])
  = tally s b R + (if inBin b c && (sentiment c =? s)%string then 1 else 0).
Proof.
  unfold tally. rewrite filter_app, length_app. cbn [filter].
  destruct (inBin b c && (sentiment c =? s)%string); cbn [List.length]; lia.
Qed.

Lemma tally_none (s : string) (b : Z) (R : list Comment) :
  (forall c, In c R -> inBin b c = false) -> tally s b R = 0.
Proof.
  intros H. unfold tally.
  induction R as [| c R IH]; [reflexivity |].
  cbn [filter]. rewrite (H c (or_introl eq_refl)). cbn [andb].
  apply IH. intros c' Hc'. apply H. right. exact Hc'.
Qed.

Lemma rowFor_outside (R : list Comment) (c : Comment) (b : Z) :
  inBin b c = false -> rowFor (R ++ [c]) b = rowFor R b.
Proof.
  intros H. unfold rowFor. rewrite !tally_app, H. cbn [andb].
  rewrite !Z.add_0_r. reflexivity.
Qed.

Lemma bump_rowFor (R : list Comment) (c : Comment) (b : Z) :
  sentiment c <> "bin" -> inBin b c = true ->
  bump (sentiment c) (rowFor R b) = rowFor (R ++ [c]) b.
Proof.
  intros Hs Hb. unfold rowFor, bump. rewrite !tally_app, Hb. cbn [andb bin positive neutral negative].
  apply String.eqb_neq in Hs. rewrite Hs.
  destruct (sentiment c =? "positive")%string eqn:E1.
  { apply String.eqb_eq in E1. rewrite E1. cbn. rewrite !Z.add_0_r. reflexivity. }
  destruct (sentiment c =? "neutral")%string eqn:E2.
  { apply String.eqb_eq in E2. rewrite E2. cbn. rewrite !Z.add_0_r. reflexivity. }
  destruct (sentiment c =? "negative")%string eqn:E3.
  { cbn. rewrite !Z.add_0_r. reflexivity. }
  rewrite !Z.add_0_r. reflexivity.
Qed.

Section Timeline.
Context {B : Builtins}.

Lemma timelineStep_seconds (m : Obj Row) (c : Comment) :
  seconds c ->
  timelineStep m c
  = match slotOf c with
    | None => m
    | Some b =>
        set (showZ b)
          (bump (sentiment c)
             match get (showZ b) m with
             | Some r => r
             | None => {| bin := Some b; positive := 0; neutral := 0; negative := 0 |}
             end) m
    end.
Proof.
  intros (q & Hq & H0 & H1). unfold timelineStep, toDateFromAny, slotOf.
  rewrite Hq. cbn [falsyTimestamp].
  destruct (Qeq_bool q 0); [reflexivity |].
  rewrite (bin_of_seconds q H0 H1). reflexivity.
Qed.

Lemma timeline_map (R : list Comment) :
  (forall c, In c R -> seconds c) ->
  (forall c, In c R -> sentiment c <> "bin") ->
  fold_left timelineStep R [] = map (entry (rowFor R)) (binsSeen R).
Proof.
  induction R as [| c R IH] using rev_ind; intros Hsec Hsent; [reflexivity |].
  assert (Hc : seconds c) by (apply Hsec, in_or_app; right; left; reflexivity).
  assert (Hs : sentiment c <> "bin") by (apply Hsent, in_or_app; right; left; reflexivity).
  assert (HsecR : forall c', In c' R -> seconds c')
    by (intros c' H; apply Hsec, in_or_app; left; exact H).
  rewrite fold_left_app. cbn [fold_left].
  assert (HsentR : forall c', In c' R -> sentiment c' <> "bin")
    by (intros c' H; apply Hsent, in_or_app; left; exact H).
  rewrite (IH HsecR HsentR).
  rewrite (timelineStep_seconds _ c Hc), binsSeen_app.
  assert (Hother : forall b', In b' (binsSeen R) -> slotOf c <> Some b' ->
                              rowFor (R ++ [c]) b' = rowFor R b').
  { intros b' Hb' Hne. apply rowFor_outside.
    apply binsSeen_spec in Hb' as (c' & _ & E). apply slotOf_multiple in E as (k & ->).
    rewrite (inBin_slotOf c k Hc). destruct (slotOf c) as [b0 |]; [| reflexivity].
    apply Z.eqb_neq. intros ->. apply Hne. reflexivity. }
  destruct (slotOf c) as [b |] eqn:Eslot.
  - assert (Hin : inBin b c = true).
    { destruct (slotOf_multiple c b Eslot) as (k & ->).
      rewrite (inBin_slotOf c k Hc), Eslot. apply Z.eqb_refl. }
    rewrite get_entries.
    destruct (existsb (Z.eqb b) (binsSeen R)) eqn:Ex.
    + rewrite (bump_rowFor R c b Hs Hin).
      apply set_entries_present.
      * apply binsSeen_NoDup.
      * apply existsb_eqb_In. exact Ex.
      * intros b' Hb' Hne. apply Hother; [exact Hb' | congruence].
    + assert (Hnotin : ~ In b (binsSeen R))
        by (rewrite <- existsb_eqb_In, Ex; discriminate).
      assert (Hfresh : {| bin := Some b; positive := 0; neutral := 0; negative := 0 |}
                       = rowFor R b).
      { unfold rowFor.
        assert (Hz : forall c', In c' R -> inBin b c' = false).
        { intros c' Hc'. destruct (slotOf_multiple c b Eslot) as (k & ->).
          rewrite (inBin_slotOf c' k (HsecR c' Hc')).
          destruct (slotOf c') as [b0 |] eqn:E0; [| reflexivity].
          apply Z.eqb_neq. intros ->. apply Hnotin, binsSeen_spec. exists c'. auto. }
        rewrite !(tally_none _ _ _ Hz). reflexivity. }
      rewrite Hfresh, (bump_rowFor R c b Hs Hin).
      apply set_entries_absent; [exact Hnotin |].
      intros b' Hb'. apply Hother; [exact Hb' |].
      intros [= ->]. contradiction.
  - apply map_ext_in. intros b' Hb'. unfold entry. f_equal.
    symmetry. apply Hother; [exact Hb' | discriminate].
Qed.

End Timeline.
(** *** The rows of the timeline *)

Lemma sorted_map {A B} (f : A -> B) (le : B -> B -> Prop) (l : list A) :
  StronglySorted (fun x y => le (f x) (f y)) l -> StronglySorted le (map f l).
Proof.
  induction 1 as [| x l Hl IH Hx]; cbn; constructor; [exact IH |].
  rewrite Forall_forall in *. intros y Hy.
  apply in_map_iff in Hy as (z & <- & Hz). apply Hx, Hz.
Qed.

Lemma sorted_strict (l : list Z) :
  StronglySorted Z.le l -> NoDup l -> StronglySorted Z.lt l.
Proof.
  induction 1 as [| x l Hl IH Hx]; intros Hnd; constructor;
    inversion Hnd as [| ? ? Hnotin Hnd']; subst.
  - apply IH, Hnd'.
  - rewrite Forall_forall in *. intros y Hy.
    specialize (Hx y Hy). assert (x <> y) by (intros ->; contradiction). lia.
Qed.

Lemma tally_sum (b : Z) (R : list Comment) :
  tally "positive" b R + tally "neutral" b R + tally "negative" b R
  = tallyRecognized b R.
Proof.
  unfold tally, tallyRecognized, isRecognized.
  induction R as [| c R IH]; [reflexivity |].
  cbn [filter]. destruct (inBin b c); cbn [andb]; [| exact IH].
  destruct (sentiment c =? "positive")%string eqn:E1.
  { apply String.eqb_eq in E1. rewrite E1. cbn -[Z.of_nat]. lia. }
  destruct (sentiment c =? "neutral")%string eqn:E2.
  { apply String.eqb_eq in E2. rewrite E2. cbn -[Z.of_nat]. lia. }
  destruct (sentiment c =? "negative")%string eqn:E3; cbn -[Z.of_nat]; lia.
Qed.

Section TimelineRows.
Context {B : Builtins}.
Variable R : list Comment.
Hypothesis Hsec : forall c, In c R -> seconds c.
Hypothesis Hsent : forall c, In c R -> sentiment c <> "bin".

Lemma timeline_rows_perm :
  Permutation (processTimelineData R) (map (rowFor R) (binsSeen R)).
Proof.
  unfold processTimelineData, Object_values.
  rewrite sortBy_perm, (timeline_map R Hsec Hsent).
  rewrite (Permutation_map snd (Object_entries_perm _)).
  rewrite map_map. reflexivity.
Qed.

Lemma timeline_rows_have_bins :
  Forall (fun row => bin row = Some (binKey row)) (processTimelineData R).
Proof.
  rewrite Forall_forall. intros row Hrow.
  apply (Permutation_in _ timeline_rows_perm) in Hrow.
  apply in_map_iff in Hrow as (b & <- & _). reflexivity.
Qed.

Lemma timeline_keys_perm :
  Permutation (map binKey (processTimelineData R)) (binsSeen R).
Proof.
  rewrite (Permutation_map binKey timeline_rows_perm), map_map.
  cbn. rewrite map_id. reflexivity.
Qed.

Lemma timeline_rows_sorted :
  StronglySorted Z.lt (map binKey (processTimelineData R)).
Proof.
  apply sorted_strict.
  - apply sorted_map.
    unfold processTimelineData.
    apply (sortBy_sorted compareBins (fun x y => binKey x <= binKey y)
             (fun row => bin row = Some (binKey row))).
    + intros x y Px Py. unfold compareBins. rewrite Px, Py. lia.
    + intros x y Px Py. unfold compareBins. rewrite Px, Py. lia.
    + intros; lia.
    + rewrite Forall_forall. intros row Hrow.
      assert (Hin : In row (processTimelineData R)).
      { unfold processTimelineData.
        apply (Permutation_in _ (Permutation_sym (sortBy_perm compareBins _))). exact Hrow. }
      pose proof timeline_rows_have_bins as H. rewrite Forall_forall in H. apply H, Hin.
  - apply (Permutation_NoDup (Permutation_sym timeline_keys_perm)), binsSeen_NoDup.
Qed.

End TimelineRows.

Lemma slotOf_spec (c : Comment) (b : Z) :
  slotOf c = Some b <->
  exists q, timestamp c = TsNumber q /\ ~ (q == 0)%Q /\ b = slot q.
Proof.
  unfold slotOf. split.
  - destruct (timestamp c) as [q | s]; [| discriminate].
    destruct (Qeq_bool q 0) eqn:E; [discriminate |]. intros [= <-].
    exists q. repeat split. intros H. apply Qeq_bool_iff in H. congruence.
  - intros (q & -> & Hq & ->).
    destruct (Qeq_bool q 0) eqn:E; [| reflexivity].
    apply Qeq_bool_iff in E. contradiction.
Qed.

Lemma getSentimentCounts_retimed (f : Comment -> Timestamp) (R : list Comment) :
  getSentimentCounts (map (retimed f) R) = getSentimentCounts R.
Proof.
  unfold getSentimentCounts.
  generalize [("positive", 0); ("neutral", 0); ("negative", 0)].
  induction R as [| c R IH]; intros acc; [reflexivity |].
  cbn [map fold_left retimed sentiment]. apply IH.
Qed.

Lemma processWordCloudData_retimed (random : nat -> Q) (f : Comment -> Timestamp)
    (R : list Comment) :
  processWordCloudData random (map (retimed f) R) = processWordCloudData random R.
Proof.
  unfold processWordCloudData.
  assert (H : cleanTexts (map (retimed f) R) = cleanTexts R).
  { induction R as [| c R IH]; [reflexivity |].
    cbn [map cleanTexts retimed text]. rewrite IH. reflexivity. }
  rewrite H. reflexivity.
Qed.

(** C6, amended.  For every record set whose timestamps are numbers of
    seconds (non-negative and below 1e12) and in which no sentiment is the
    string "bin": the time-series projection has one row for each bin
    [floor(timestamp / 30) * 30] of a record with a non-zero timestamp, the
    rows are emitted in strictly ascending order of bin start, the records
    with timestamp 0 are left out, and each of the three counts of a row is
    the number of records with that sentiment whose timestamp falls in
    [[bin, bin + 30)], so that the three counts sum to the number of those
    records whose sentiment is one of the three.  A number from 1e12 on is
    read as milliseconds: its bin is [floor(timestamp / 1000 / 30) * 30].
    The sentiment counts and the word cloud do not read the timestamp. *)
Theorem timeline_bins {B : Builtins} (R : list Comment) :
  (forall c, In c R -> seconds c) ->
  (forall c, In c R -> sentiment c <> "bin") ->
  exists bins : list Z,
    map bin (processTimelineData R) = map Some bins
    /\ StronglySorted Z.lt bins
    /\ (forall b, In b bins <->
                  exists c q, In c R /\ timestamp c = TsNumber q
                              /\ ~ (q == 0)%Q /\ b = slot q)
    /\ (forall row b,
           In row (processTimelineData R) -> bin row = Some b ->
           positive row = tally "positive" b R
           /\ neutral row = tally "neutral" b R
           /\ negative row = tally "negative" b R
           /\ positive row + neutral row + negative row = tallyRecognized b R)
    /\ (forall q, (1000000000000 <= q)%Q -> (q <= 8640000000000000)%Q ->
                  option_map binOfDate (toDateFromAny (TsNumber q))
                  = Some (Some (slot (q / 1000))))
    /\ (forall f random,
           getSentimentCounts (map (retimed f) R) = getSentimentCounts R
           /\ processWordCloudData random (map (retimed f) R)
              = processWordCloudData random R).
Proof.
  intros Hsec Hsent.
  exists (map binKey (processTimelineData R)).
  split; [| split; [| split; [| split; [| split]]]];
    [| | | | | intros f random; split;
               [apply getSentimentCounts_retimed | apply processWordCloudData_retimed]].
  - rewrite map_map. apply map_ext_in. intros row Hrow.
    pose proof (timeline_rows_have_bins R Hsec Hsent) as H.
    rewrite Forall_forall in H. apply H, Hrow.
  - apply timeline_rows_sorted; assumption.
  - intros b. split.
    + intros Hb. apply (Permutation_in _ (timeline_keys_perm R Hsec Hsent)) in Hb.
      apply binsSeen_spec in Hb as (c & Hc & E).
      apply slotOf_spec in E as (q & Hq & Hnz & ->). exists c, q. auto.
    + intros (c & q & Hc & Hq & Hnz & ->).
      apply (Permutation_in _ (Permutation_sym (timeline_keys_perm R Hsec Hsent))).
      apply binsSeen_spec. exists c. split; [exact Hc |].
      apply slotOf_spec. exists q. auto.
  - intros row b Hrow Hb.
    apply (Permutation_in _ (timeline_rows_perm R Hsec Hsent)) in Hrow.
    apply in_map_iff in Hrow as (b' & <- & _).
    cbn in Hb. injection Hb as ->. cbn [rowFor positive neutral negative].
    repeat split. apply tally_sum.
  - intros q H0 H1. unfold toDateFromAny. cbn [falsyTimestamp].
    replace (Qeq_bool q 0) with false
      by (symmetry; apply not_true_is_false; rewrite Qeq_bool_iff; lra).
    cbn [option_map]. rewrite (bin_of_milliseconds q H0 H1). reflexivity.
Qed.


Lemma timeline_bins_witness :
  let R := [comment "positive" "weak" (TsNumber 45);
            comment "negative" "strong" (TsNumber 5);
            comment "neutral" "weak" (TsNumber 0);
            comment "positive" "strong" (TsNumber (91 # 2))] in
  (forall c, In c R -> seconds c)
  /\ (forall c, In c R -> sentiment c <> "bin")
  /\ processTimelineData (B := sampleBuiltins) R
     = [{| bin := Some 0; positive := 0; neutral := 0; negative := 1 |};
        {| bin := Some 30; positive := 2; neutral := 0; negative := 0 |}]
  /\ exists bins,
       map bin (processTimelineData (B := sampleBuiltins) R) = map Some bins
       /\ StronglySorted Z.lt bins.
Proof.
  intros R.
  assert (H1 : forall c, In c R -> seconds c).
  { intros c [<- | [<- | [<- | [<- | []]]]]; eexists; (split; [reflexivity |]);
      split; unfold Qle, Qlt; cbn; lia. }
  assert (H2 : forall c, In c R -> sentiment c <> "bin").
  { intros c [<- | [<- | [<- | [<- | []]]]]; discriminate. }
  split; [exact H1 |]. split; [exact H2 |]. split; [reflexivity |].
  destruct (timeline_bins (B := sampleBuiltins) R H1 H2) as (bins & Hb & Hs & _).
  exists bins. split; [exact Hb | exact Hs].
Defined.

(** C6 as stated fails in three ways.  A numeric timestamp from 1e12 on is
    read as milliseconds, so the record is not assigned to
    [floor(timestamp / 30) * 30]; a record whose sentiment is none of the
    three gets a row for its bin but is not counted, so the three counts sum
    to 0 with one record in the bin; and the sentiment "bin" increments the
    bin start of the row itself. *)
Lemma timeline_off_the_stated_bins :
  (processTimelineData (B := sampleBuiltins)
     [comment "positive" "weak" (TsNumber 2000000000000)]
   = [{| bin := Some 1999999980; positive := 1; neutral := 0; negative := 0 |}]
   /\ slot 2000000000000 = 1999999999980)
  /\ (processTimelineData (B := sampleBuiltins) [comment "mixed" "weak" (TsNumber 45)]
      = [{| bin := Some 30; positive := 0; neutral := 0; negative := 0 |}]
      /\ inBin 30 (comment "mixed" "weak" (TsNumber 45)) = true
      /\ 0 + 0 + 0 <> Z.of_nat (List.length [comment "mixed" "weak" (TsNumber 45)]))
  /\ (processTimelineData (B := sampleBuiltins) [comment "bin" "weak" (TsNumber 45)]
      = [{| bin := Some 31; positive := 0; neutral := 0; negative := 0 |}]
      /\ slot 45 = 30).
Proof.
  repeat split; try reflexivity. discriminate.
Qed.

End PopupFacts.

(** ** What the ingestion engine does and never does *)

Import Flow FlowSamples.

Lemma confined_ret {A} (P : Event -> bool) (a : A) : confined P (ret a).
Proof. intros w o w' [= <- <-]. exists []. rewrite app_nil_r. auto. Qed.

Lemma confined_throw {A} (P : Event -> bool) (e : JsError) : confined P (@throw A e).
Proof. intros w o w' [= <- <-]. exists []. rewrite app_nil_r. auto. Qed.

Lemma confined_emit (P : Event -> bool) (ev : Event) :
  P ev = true -> confined P (emit ev).
Proof. intros H w o w' [= <- <-]. exists [ev]. cbn. rewrite H. auto. Qed.

Lemma confined_bind {A B} (P : Event -> bool) (c : M A) (k : A -> M B) :
  confined P c -> (forall a, confined P (k a)) -> confined P (bind c k).
Proof.
  intros Hc Hk w o w'. unfold bind.
  destruct (c w) as [[[a | e] w1] |] eqn:E; [| | discriminate].
  - intros H. destruct (Hc _ _ _ E) as (d1 & T1 & H1).
    destruct (Hk a _ _ _ H) as (d2 & T2 & H2).
    exists (d1 ++ d2)%list. rewrite T2, T1, app_assoc, forallb_app, H1, H2. auto.
  - intros [= <- <-]. exact (Hc _ _ _ E).
Qed.

Lemma confined_tryCatch {A} (P : Event -> bool) (c : M A) (h : JsError -> M A) :
  confined P c -> (forall e, confined P (h e)) -> confined P (tryCatch c h).
Proof.
  intros Hc Hh w o w'. unfold tryCatch.
  destruct (c w) as [[[a | e] w1] |] eqn:E; [| | discriminate].
  - intros [= <- <-]. exact (Hc _ _ _ E).
  - intros H. destruct (Hc _ _ _ E) as (d1 & T1 & H1).
    destruct (Hh e _ _ _ H) as (d2 & T2 & H2).
    exists (d1 ++ d2)%list. rewrite T2, T1, app_assoc, forallb_app, H1, H2. auto.
Qed.

Lemma confined_caught {A} (P : Event -> bool) (c : M A) :
  confined P c -> confined P (caught c).
Proof.
  intros Hc w o w'. unfold caught.
  destruct (c w) as [[o1 w1] |] eqn:E; [| discriminate].
  intros [= <- <-]. exact (Hc _ _ _ E).
Qed.

Lemma confined_fetch (P : Event -> bool) (net : Network) (url : string) :
  (forall u, P (EvFetch u) = true) -> confined P (fetch net url).
Proof.
  intros HP w o w'. unfold fetch.
  destruct (net (calls w) url); intros [= <- <-]; exists [EvFetch url]; cbn;
    rewrite HP; auto.
Qed.

Lemma confined_weaken {A} (P Q : Event -> bool) (c : M A) :
  (forall e, P e = true -> Q e = true) -> confined P c -> confined Q c.
Proof.
  intros HPQ Hc w o w' H. destruct (Hc _ _ _ H) as (d & T & Hd).
  exists d. split; [exact T |].
  rewrite forallb_forall in *. auto.
Qed.

(** One step of a proof that the events of a computation stay in a class,
    following the shape of the computation. *)
Ltac confined_step :=
  match goal with
  | |- confined _ (bind _ _) => apply confined_bind; [| intros ?]
  | |- confined _ (tryCatch _ _) => apply confined_tryCatch; [| intros ?]
  | |- confined _ (caught _) => apply confined_caught
  | |- confined _ (ret _) => apply confined_ret
  | |- confined _ (throw _) => apply confined_throw
  | |- confined _ (fetch _ _) => apply confined_fetch; reflexivity
  | |- confined _ (emit _) => apply confined_emit; reflexivity
  | |- confined _ (sleep _) => apply confined_emit; reflexivity
  | |- confined _ (logInfo _) => apply confined_emit; reflexivity
  | |- confined _ (logWarn _) => apply confined_emit; reflexivity
  | |- confined _ (logError _) => apply confined_emit; reflexivity
  | |- confined _ (match ?x with _ => _ end) => destruct x
  | H : _ |- _ => solve [apply H]
  end.

(** Two traces that differ in the grouping of their parts. *)
Ltac flatten_trace :=
  repeat first [rewrite <- !app_assoc | progress (cbn [app])]; reflexivity.

Section ConfinedWalkers.
Context {RT : Runtime}.
Variable net : Network.

Lemma confined_attempt url : confined isRequestEvent (attempt net url).
Proof. unfold attempt. repeat confined_step. Qed.

Lemma confined_attempts url retries delay :
  forall n i, confined isRequestEvent (attempts net url retries delay n i).
Proof.
  induction n as [| n IH]; intros i; cbn [attempts]; repeat confined_step.
  apply confined_attempt.
Qed.

Lemma confined_fetchWithRetry url retries delay :
  confined isRequestEvent (Background.fetchWithRetry net url retries delay).
Proof.
  unfold Background.fetchWithRetry. repeat confined_step. apply confined_attempts.
Qed.

Lemma confined_repliesLoop :
  forall fuel pid key tok replies,
    confined isRequestEvent (repliesLoop net fuel pid key tok replies).
Proof.
  induction fuel as [| fuel IH]; intros; cbn [repliesLoop].
  - intros w o w'; discriminate.
  - repeat confined_step. apply confined_fetchWithRetry.
Qed.

Lemma confined_fetchReplies fuel pid key :
  confined isRequestEvent (fetchReplies net fuel pid key).
Proof. unfold fetchReplies. repeat confined_step; apply confined_repliesLoop. Qed.

Lemma confined_commentsOfItems rfuel key :
  forall items comments,
    confined isRequestEvent (commentsOfItems net rfuel key items comments).
Proof.
  induction items as [| item rest IH]; intros; cbn [commentsOfItems].
  - apply confined_ret.
  - unfold pushTopLevel. repeat confined_step; apply confined_fetchReplies.
Qed.

Lemma isRequestEvent_isWalkEvent (e : Event) :
  isRequestEvent e = true -> isWalkEvent e = true.
Proof. destruct e; cbn; congruence. Qed.

Lemma confined_commentsLoop rfuel :
  forall fuel vid key tok comments,
    confined isWalkEvent (commentsLoop net rfuel fuel vid key tok comments).
Proof.
  induction fuel as [| fuel IH]; intros; cbn [commentsLoop].
  - intros w o w'; discriminate.
  - repeat confined_step.
    + apply (confined_weaken _ _ _ isRequestEvent_isWalkEvent), confined_fetchWithRetry.
    + apply (confined_weaken _ _ _ isRequestEvent_isWalkEvent), confined_commentsOfItems.
Qed.

Lemma confined_fetchAllComments fuel vid key :
  confined isWalkEvent (fetchAllComments net fuel vid key).
Proof. unfold fetchAllComments. repeat confined_step; apply confined_commentsLoop. Qed.

End ConfinedWalkers.

Lemma progressOf_app (a b : list Event) :
  progressOf (a ++ b) = (progressOf a ++ progressOf b)%list.
Proof. apply flat_map_app. Qed.

Lemma postsOf_app (a b : list Event) :
  postsOf (a ++ b) = (postsOf a ++ postsOf b)%list.
Proof. apply flat_map_app. Qed.

Lemma uiMessagesOf_app (a b : list Event) :
  uiMessagesOf (a ++ b) = (uiMessagesOf a ++ uiMessagesOf b)%list.
Proof. apply flat_map_app. Qed.

Lemma storedOf_app (a b : list Event) :
  storedOf (a ++ b) = (storedOf a ++ storedOf b)%list.
Proof. apply flat_map_app. Qed.

Lemma fetchesOf_app (a b : list Event) :
  fetchesOf (a ++ b) = (fetchesOf a ++ fetchesOf b)%list.
Proof. apply flat_map_app. Qed.

Lemma request_events_carry_nothing (d : list Event) :
  forallb isRequestEvent d = true ->
  progressOf d = [] /\ uiMessagesOf d = [] /\ postsOf d = [] /\ storedOf d = []
  /\ responsesOf d = [].
Proof.
  induction d as [| e d IH]; cbn; [auto |].
  intros H. apply andb_true_iff in H as [He Hd].
  destruct (IH Hd) as (H1 & H2 & H3 & H4 & H5).
  destruct e; cbn in *; try discriminate; auto.
Qed.

Lemma walk_events_carry_nothing (d : list Event) :
  forallb isWalkEvent d = true ->
  uiMessagesOf d = [] /\ postsOf d = [] /\ storedOf d = [] /\ responsesOf d = [].
Proof.
  induction d as [| e d IH]; cbn; [auto |].
  intros H. apply andb_true_iff in H as [He Hd].
  destruct (IH Hd) as (H2 & H3 & H4 & H5).
  destruct e as [| | | [] | | |]; cbn in *; try discriminate; auto.
Qed.

(** X1.  The walk over the threads only requests pages, pauses, logs and sends
    progress messages, and the reply walks inside it do not even send those.
    Whether it returns or throws, [fetchAllComments] posts nothing to the
    analysis service, writes nothing to the storage, sends no [updateUI]
    message and does not answer the trigger. *)
Theorem walk_only_fetches_and_reports {RT : Runtime} (net : Network) (fuel : nat)
    (videoId apiKey : string) (w w' : World) (o : Outcome (list Comment)) :
  fetchAllComments net fuel videoId apiKey w = Some (o, w') ->
  exists d,
    trace w' = (trace w ++ d)%list
    /\ forallb isWalkEvent d = true
    /\ uiMessagesOf d = [] /\ postsOf d = [] /\ storedOf d = [] /\ responsesOf d = [].
Proof.
  intros H.
  destruct (confined_fetchAllComments net fuel videoId apiKey _ _ _ H) as (d & T & Hd).
  exists d. split; [exact T |]. split; [exact Hd |].
  apply walk_events_carry_nothing, Hd.
Qed.

Lemma walk_only_fetches_and_reports_witness :
  fetchAllComments (RT := sampleRuntime) brokenRepliesNet 2 "video" "key" world0
  = Some (Return [topComment; firstReply], brokenRunEnd)
  /\ exists d,
       trace brokenRunEnd = (trace world0 ++ d)%list
       /\ forallb isWalkEvent d = true
       /\ uiMessagesOf d = [] /\ postsOf d = [] /\ storedOf d = [] /\ responsesOf d = [].
Proof.
  assert (H : fetchAllComments (RT := sampleRuntime) brokenRepliesNet 2 "video" "key" world0
              = Some (Return [topComment; firstReply], brokenRunEnd))
    by (vm_compute; reflexivity).
  split; [exact H |].
  exact (walk_only_fetches_and_reports (RT := sampleRuntime) brokenRepliesNet 2 "video" "key"
           world0 brokenRunEnd (Return [topComment; firstReply]) H).
Defined.

(** *** What the walkers collect *)

Section Collected.
Context {RT : Runtime}.
Variable net : Network.

Lemma replyOfItem_unclassified (item : Json) (c : Comment) :
  replyOfItem item = Return (Some c) -> unclassified c.
Proof.
  unfold replyOfItem.
  destruct (propOf item "snippet") as [snippet | e]; [| discriminate].
  destruct (truthy snippet); cbn [negb]; [| discriminate].
  unfold emojisOf.
  destruct (truthy (optGet snippet "textDisplay")) eqn:Ht.
  - destruct (optGet snippet "textDisplay") as [[| | | s | |] |]; try discriminate.
    intros [= <-]. repeat split.
  - intros [= <-]. repeat split.
Qed.

Lemma commentOfItem_unclassified (item : Json) (snippet : JsVal) (c : Comment) :
  commentOfItem item snippet = Return c -> unclassified c.
Proof.
  unfold commentOfItem, emojisOf.
  destruct (truthy (optGet snippet "textDisplay")) eqn:Ht.
  - destruct (optGet snippet "textDisplay") as [[| | | s | |] |]; try discriminate.
    intros [= <-]. repeat split.
  - intros [= <-]. unfold unclassified, textOf; cbn.
    destruct (optGet snippet "textDisplay") as [[| | | s | |] |]; cbn in Ht;
      try discriminate; repeat split.
    destruct s; [reflexivity | discriminate].
Qed.

Lemma pushReplies_extends (items : list Json) :
  forall replies replies' err,
    pushReplies items replies = (replies', err) ->
    exists more, replies' = (replies ++ more)%list /\ Forall unclassified more.
Proof.
  induction items as [| item rest IH]; intros replies replies' err; cbn [pushReplies].
  - intros [= <- <-]. exists []. rewrite app_nil_r. auto.
  - destruct (replyOfItem item) as [[c |] | e] eqn:Hitem.
    + intros H. destruct (IH _ _ _ H) as (more & -> & Hm).
      exists (c :: more). rewrite <- app_assoc. split; [reflexivity |].
      constructor; [exact (replyOfItem_unclassified _ _ Hitem) | exact Hm].
    + apply IH.
    + intros [= <- <-]. exists []. rewrite app_nil_r. auto.
Qed.

Lemma repliesLoop_extends :
  forall fuel pid key tok replies w o w',
    repliesLoop net fuel pid key tok replies w = Some (o, w') ->
    exists more err,
      o = Return ((replies ++ more)%list, err) /\ Forall unclassified more.
Proof.
  induction fuel as [| fuel IH]; intros pid key tok replies w o w'; cbn [repliesLoop];
    [discriminate |].
  unfold bind at 1, caught.
  destruct (Background.fetchWithRetry net _ 3 1000 w) as [[o1 w1] |]; [| discriminate].
  assert (Hstay : forall e, ret (replies, Some e) w1 = Some (o, w') ->
            exists more err,
              o = Return ((replies ++ more)%list, err) /\ Forall unclassified more).
  { intros e [= <- <-]. exists [], (Some e). rewrite app_nil_r. auto. }
  destruct o1 as [data | e]; [| apply Hstay].
  destruct (forEachItems data) as [items | e]; [| apply Hstay].
  destruct (pushReplies items replies) as [replies' err] eqn:Hpush.
  destruct (pushReplies_extends _ _ _ _ Hpush) as (more & -> & Hm).
  assert (Hdone : forall err1, ret ((replies ++ more)%list, err1) w1 = Some (o, w') ->
            exists more0 err0,
              o = Return ((replies ++ more0)%list, err0) /\ Forall unclassified more0).
  { intros err1 [= <- <-]. exists more, err1. auto. }
  destruct err as [e |]; [apply Hdone |].
  destruct (nextPageToken data) as [tok' | e]; [| apply Hdone].
  destruct (truthy (Some tok')); [| apply Hdone].
  intros H. destruct (IH _ _ _ _ _ _ _ H) as (more2 & err2 & -> & Hm2).
  exists (more ++ more2)%list, err2. rewrite app_assoc. split; [reflexivity |].
  apply Forall_app; auto.
Qed.

Lemma fetchReplies_collects (fuel : nat) (pid : JsVal) (key : string) (w : World)
    (o : Outcome (list Comment)) (w' : World) :
  fetchReplies net fuel pid key w = Some (o, w') ->
  exists replies, o = Return replies /\ Forall unclassified replies.
Proof.
  unfold fetchReplies, bind at 1, logInfo, log, emit. unfold bind at 1.
  destruct (repliesLoop net fuel pid key (JStr "") [] _) as [[o1 w1] |] eqn:Hloop;
    [| discriminate].
  destruct (repliesLoop_extends _ _ _ _ _ _ _ _ Hloop) as (more & err & -> & Hm).
  cbn [app]. destruct err; intros [= <- <-]; exists more; auto.
Qed.

Lemma commentsOfItems_extends (rfuel : nat) (key : string) (items : list Json) :
  forall comments w o w',
    commentsOfItems net rfuel key items comments w = Some (o, w') ->
    exists more err,
      o = Return ((comments ++ more)%list, err) /\ Forall unclassified more.
Proof.
  induction items as [| item rest IH]; intros comments w o w'; cbn [commentsOfItems].
  - intros [= <- <-]. exists [], None. rewrite app_nil_r. auto.
  - assert (Hfirst : exists first w1,
               pushTopLevel item comments w = Some (Return (comments ++ first)%list, w1)
               /\ Forall unclassified first).
    { unfold pushTopLevel.
      destruct (truthy (topLevelSnippet item));
        [| exists [], w; rewrite app_nil_r; auto].
      destruct (commentOfItem item (topLevelSnippet item)) as [c | e] eqn:Hc.
      - exists [c], w. split; [reflexivity |].
        constructor; [exact (commentOfItem_unclassified _ _ _ Hc) | constructor].
      - eexists [], _. rewrite app_nil_r. split; [reflexivity | constructor]. }
    destruct Hfirst as (first & w1 & Hfirst & Hf).
    unfold bind at 1. rewrite Hfirst.
    assert (Hstop : forall e w2, ret ((comments ++ first)%list, Some e) w2 = Some (o, w') ->
              exists more err,
                o = Return ((comments ++ more)%list, err) /\ Forall unclassified more).
    { intros e w2 [= <- <-]. exists first, (Some e). auto. }
    destruct (propOf item "snippet") as [s | e]; [| apply Hstop].
    destruct (truthy s && gtZero (optGet s "totalReplyCount")).
    + destruct (propOfV (optGet s "topLevelComment") "id") as [pid | e]; [| apply Hstop].
      unfold bind at 1, logInfo, log, emit. unfold bind at 1, tryCatch.
      destruct (fetchReplies net rfuel pid key _) as [[o2 w2] |] eqn:Hr; [| discriminate].
      destruct (fetchReplies_collects _ _ _ _ _ _ Hr) as (replies & -> & Hrep).
      intros H. destruct (IH _ _ _ _ H) as (more & err & -> & Hm).
      exists (first ++ replies ++ more)%list, err.
      rewrite !app_assoc. split; [reflexivity |].
      rewrite !Forall_app. auto.
    + intros H. destruct (IH _ _ _ _ H) as (more & err & -> & Hm).
      exists (first ++ more)%list, err. rewrite !app_assoc. split; [reflexivity |].
      apply Forall_app; auto.
Qed.

(** The loop over the pages of threads: what it returns extends what it was
    given, and every progress message carries the number of records held
    when it was sent. *)
Lemma commentsLoop_progress (rfuel : nat) :
  forall fuel vid key tok comments w o w',
    commentsLoop net rfuel fuel vid key tok comments w = Some (o, w') ->
    exists more err d,
      o = Return ((comments ++ more)%list, err)
      /\ Forall unclassified more
      /\ trace w' = (trace w ++ d)%list
      /\ Forall (fun n => (List.length comments <= n <= List.length (comments ++ more))%nat)
           (progressOf d)
      /\ StronglySorted le (progressOf d)
      /\ (err = None ->
          progressOf d <> [] /\ last (progressOf d) 0%nat = List.length (comments ++ more)).
Proof.
  induction fuel as [| fuel IH]; intros vid key tok comments w o w'; cbn [commentsLoop];
    [discriminate |].
  unfold bind at 1, logInfo, log, emit. unfold bind at 1, caught.
  destruct (Background.fetchWithRetry net _ 3 1000 _) as [[o1 w1] |] eqn:Hfetch;
    [| discriminate].
  destruct (confined_fetchWithRetry net _ _ _ _ _ _ Hfetch) as (d1 & T1 & Hd1).
  cbn [trace] in T1.
  apply request_events_carry_nothing in Hd1 as (Hp1 & _).
  assert (Hstay : forall e, ret (comments, Some e) w1 = Some (o, w') ->
            exists more err d,
              o = Return ((comments ++ more)%list, err)
              /\ Forall unclassified more
              /\ trace w' = (trace w ++ d)%list
              /\ Forall (fun n => (List.length comments <= n
                                   <= List.length (comments ++ more))%nat)
                   (progressOf d)
              /\ StronglySorted le (progressOf d)
              /\ (err = None ->
                  progressOf d <> []
                  /\ last (progressOf d) 0%nat = List.length (comments ++ more))).
  { intros e [= <- <-].
    exists [], (Some e), (EvLog Info "Fetching comments batch with pageToken:" :: d1).
    rewrite app_nil_r, T1, <- app_assoc. cbn [app progressOf flat_map].
    change (flat_map _ d1) with (progressOf d1). rewrite Hp1.
    repeat split; try constructor; discriminate. }
  destruct o1 as [data | e]; [| apply Hstay].
  destruct (forOfItems data) as [items | e]; [| apply Hstay].
  clear Hstay. unfold bind at 1.
  destruct (commentsOfItems net rfuel key items comments w1) as [[o2 w2] |] eqn:Hitems;
    [| discriminate].
  destruct (confined_commentsOfItems net _ _ _ _ _ _ _ Hitems) as (d2 & T2 & Hd2).
  apply request_events_carry_nothing in Hd2 as (Hp2 & _).
  destruct (commentsOfItems_extends _ _ _ _ _ _ _ Hitems) as (more & err & -> & Hm).
  assert (Hstop : forall err1, err1 <> None ->
            ret ((comments ++ more)%list, err1) w2 = Some (o, w') ->
            exists more0 err0 d,
              o = Return ((comments ++ more0)%list, err0)
              /\ Forall unclassified more0
              /\ trace w' = (trace w ++ d)%list
              /\ Forall (fun n => (List.length comments <= n
                                   <= List.length (comments ++ more0))%nat)
                   (progressOf d)
              /\ StronglySorted le (progressOf d)
              /\ (err0 = None ->
                  progressOf d <> []
                  /\ last (progressOf d) 0%nat = List.length (comments ++ more0))).
  { intros err1 Hne [= <- <-].
    exists more, err1, (EvLog Info "Fetching comments batch with pageToken:" :: d1 ++ d2)%list.
    rewrite T2, T1, <- !app_assoc. cbn [app progressOf flat_map].
    change (flat_map ?f (d1 ++ d2)%list) with (progressOf (d1 ++ d2)).
    rewrite progressOf_app, Hp1, Hp2.
    repeat split; try constructor; auto; contradiction. }
  destruct err as [e |]; [apply Hstop; discriminate |].
  destruct (nextPageToken data) as [tok' | e]; [| apply Hstop; discriminate].
  clear Hstop.
  unfold bind at 1, emit. unfold bind at 1, logInfo, log, emit.
  unfold bind at 1, sleep, emit. cbn [calls trace].
  set (n := List.length (comments ++ more)).
  set (d0 := (EvLog Info "Fetching comments batch with pageToken:" :: d1 ++ d2
              ++ [EvSendMessage (ProgressUpdate n);
                  EvLog Info "Fetched comments so far..."; EvSleep 200])%list).
  assert (Hd0 : progressOf d0 = [n]).
  { unfold d0. cbn [progressOf flat_map app].
    change (flat_map ?f (d1 ++ ?r)%list) with (progressOf (d1 ++ r)).
    rewrite !progressOf_app, Hp1, Hp2. reflexivity. }
  assert (Hlen : (List.length comments <= n)%nat).
  { unfold n. rewrite length_app. lia. }
  destruct (truthy (Some tok')).
  - intros H. destruct (IH _ _ _ _ _ _ _ H) as (more2 & err2 & d3 & -> & Hm2 & T3 & Hb & Hs & Hl).
    cbn [trace] in T3.
    exists (more ++ more2)%list, err2, (d0 ++ d3)%list.
    rewrite app_assoc. split; [reflexivity |].
    split; [apply Forall_app; auto |].
    split.
    { rewrite T3, T2, T1. unfold d0. flatten_trace. }
    rewrite progressOf_app, Hd0. cbn [app]. fold n in Hb.
    assert (Hn2 : (n <= List.length ((comments ++ more) ++ more2))%nat).
    { unfold n. rewrite (length_app (comments ++ more)). lia. }
    split; [| split].
    + constructor; [lia |].
      eapply Forall_impl; [| exact Hb]. cbn. intros a Ha. lia.
    + constructor; [exact Hs |].
      eapply Forall_impl; [| exact Hb]. cbn. intros a Ha. lia.
    + intros He. destruct (Hl He) as (Hne & Hlast). split; [discriminate |].
      destruct (progressOf d3) as [| p ps]; [contradiction |]. exact Hlast.
  - intros [= <- <-]. exists more, None, d0.
    split; [reflexivity |]. split; [exact Hm |].
    split.
    { cbn [trace]. rewrite T2, T1. unfold d0. flatten_trace. }
    rewrite Hd0. fold n.
    repeat split; try (constructor; [lia | constructor]); try (repeat constructor);
      try discriminate; lia.
Qed.

End Collected.

(** *** One attempt of fetchWithRetry *)

Lemma orElse_empty (t : string) : orElse t "" = t.
Proof. unfold orElse. destruct t; reflexivity. Qed.

Lemma orElse_cons (c : ascii) (t d : string) : orElse (String c t) d = String c t.
Proof. reflexivity. Qed.

(** What one attempt makes of a response, case by case. *)
Lemma outcomeOf_responded {RT : Runtime} (r : HttpResponse) :
  let text := match body r with Some t => t | None => "" end in
  let httpError :=
    mkError ("HTTP " ++ showZ (status r) ++ ": "
             ++ orElse (substring 0 300 text) (statusText r)) in
  outcomeOf (Responded r)
  = match JSON_parse (orElse text "{}") with
    | Some json =>
        if negb (ok r) && truthy (optGet (optGet (Some json) "error") "message")
        then Throw httpError
        else Return json
    | None =>
        if ok r then Throw (mkError "Failed to parse JSON response") else Throw httpError
    end.
Proof.
  cbv zeta. unfold outcomeOf, attempt, fetch, bind, tryCatch, logWarn, logInfo, log, emit,
    ret, throw.
  cbn [calls trace world0]. rewrite orElse_empty.
  destruct r as [k st stx b]; cbn [ok status statusText body].
  destruct k; cbn [negb andb];
    destruct (JSON_parse (orElse match b with Some t => t | None => "" end "{}"))
      as [json |]; try reflexivity.
  destruct (truthy (optGet (optGet (Some json) "error") "message")); reflexivity.
Qed.


(** X2.  A response that is not [ok] is still taken for a page when its body
    parses and carries no [error.message]: the first attempt returns the
    parsed body, without a pause and without a second request. An empty or
    unreadable body is read as the text of an empty object. *)
Theorem error_status_without_message_is_a_payload {RT : Runtime} (net : Network)
    (url : string) (retries delay : Z) (w : World) (r : HttpResponse) (json : Json) :
  1 <= retries ->
  net (calls w) url = Responded r ->
  ok r = false ->
  JSON_parse (orElse (match body r with Some t => t | None => "" end) "{}") = Some json ->
  truthy (optGet (optGet (Some json) "error") "message") = false ->
  exists d,
    Background.fetchWithRetry net url retries delay w
    = Some (Return json, {| calls := calls w + 1; trace := trace w ++ d |})
    /\ fetchesOf d = [url]
    /\ sleepsOf d = [].
Proof.
  intros Hr Hnet Hok Hparse Hmsg.
  destruct (fetchWithRetry_run net url retries delay w Hr) as (d & Hd & Hs).
  cbv zeta in Hd, Hs.
  assert (H0 : outcomeOf (net (calls w + 0)%nat url) = Return json).
  { rewrite Nat.add_0_r, Hnet, outcomeOf_responded. cbv zeta.
    rewrite Hparse, Hok, Hmsg. reflexivity. }
  assert (Hfs : firstSuccess (fun k => outcomeOf (net (calls w + k)%nat url))
                  (Z.to_nat retries) 0 = Some (0%nat, json)).
  { destruct (Z.to_nat retries) as [| n] eqn:En; [lia |].
    cbn [firstSuccess]. rewrite H0. reflexivity. }
  unfold attemptsMade in Hd, Hs. rewrite Hfs in Hd, Hs.
  exists d. split; [exact Hd |]. cbn [linearSchedule] in Hs.
  split.
  - rewrite (fetchesOf_as_schedule _ _ Hs). reflexivity.
  - rewrite (sleepsOf_as_schedule _ _ Hs). reflexivity.
Qed.

Lemma error_status_without_message_is_a_payload_witness :
  1 <= 3
  /\ failingNet (calls world0) "u" = bareError 500 "Internal Server Error"
  /\ exists d,
       Background.fetchWithRetry (RT := sampleRuntime) failingNet "u" 3 1000 world0
       = Some (Return (JObj []), {| calls := 1; trace := trace world0 ++ d |})
       /\ fetchesOf d = ["u"]
       /\ sleepsOf d = [].
Proof.
  assert (H0 : 1 <= 3) by lia.
  assert (H1 : failingNet (calls world0) "u" = bareError 500 "Internal Server Error")
    by reflexivity.
  split; [exact H0 |]. split; [exact H1 |].
  exact (error_status_without_message_is_a_payload (RT := sampleRuntime) failingNet "u"
           3 1000 world0
           {| ok := false; status := 500; statusText := "Internal Server Error";
              body := None |}
           (JObj []) H0 H1 eq_refl eq_refl eq_refl).
Defined.



(** *** fetchAllComments *)

(** X4.  A run of [fetchAllComments] that returns has sent at least one
    progress message; the counts of the progress messages never decrease, and
    the last one is the number of comments returned. *)
Theorem progress_counts_end_at_the_total {RT : Runtime} (net : Network) (fuel : nat)
    (videoId apiKey : string) (w w' : World) (comments : list Comment) :
  fetchAllComments net fuel videoId apiKey w = Some (Return comments, w') ->
  exists d,
    trace w' = (trace w ++ d)%list
    /\ progressOf d <> []
    /\ StronglySorted le (progressOf d)
    /\ last (progressOf d) 0%nat = List.length comments.
Proof.
  unfold fetchAllComments, bind at 1, logInfo, log, emit. unfold bind at 1.
  destruct (commentsLoop net fuel fuel videoId apiKey (JStr "") [] _)
    as [[o1 w1] |] eqn:Hloop; [| discriminate].
  destruct (commentsLoop_progress _ _ _ _ _ _ _ _ _ _ Hloop)
    as (more & err & d & -> & _ & T & _ & Hs & Hl).
  cbn [app trace] in *. destruct err as [e |]; [discriminate |].
  intros [= <- <-]. destruct (Hl eq_refl) as (Hne & Hlast).
  exists (EvLog Info "Starting fetchAllComments" :: d
          ++ [EvLog Info "Total comments fetched"])%list.
  cbn [trace]. rewrite T, <- !app_assoc. split; [reflexivity |].
  cbn [progressOf flat_map app].
  change (flat_map ?f (d ++ ?r)%list) with (progressOf (d ++ r)).
  rewrite progressOf_app. cbn [progressOf flat_map]. rewrite app_nil_r.
  auto.
Qed.

Lemma progress_counts_end_at_the_total_witness :
  fetchAllComments (RT := sampleRuntime) brokenRepliesNet 2 "video" "key" world0
  = Some (Return [topComment; firstReply], brokenRunEnd)
  /\ exists d,
       trace brokenRunEnd = (trace world0 ++ d)%list
       /\ progressOf d <> []
       /\ StronglySorted le (progressOf d)
       /\ last (progressOf d) 0%nat = 2%nat.
Proof.
  assert (H : fetchAllComments (RT := sampleRuntime) brokenRepliesNet 2 "video" "key" world0
              = Some (Return [topComment; firstReply], brokenRunEnd))
    by (vm_compute; reflexivity).
  split; [exact H |].
  exact (progress_counts_end_at_the_total (RT := sampleRuntime) brokenRepliesNet 2
           "video" "key" world0 brokenRunEnd [topComment; firstReply] H).
Defined.

(** X5.  Every record that [fetchAllComments] returns, top-level comment or
    reply, is unclassified: its sentiment and its strength are [null], its
    topic is "General", and its emojis are those matched in its own text. *)
Theorem fetched_comments_are_unclassified {RT : Runtime} (net : Network) (fuel : nat)
    (videoId apiKey : string) (w w' : World) (comments : list Comment) :
  fetchAllComments net fuel videoId apiKey w = Some (Return comments, w') ->
  Forall unclassified comments.
Proof.
  unfold fetchAllComments, bind at 1, logInfo, log, emit. unfold bind at 1.
  destruct (commentsLoop net fuel fuel videoId apiKey (JStr "") [] _)
    as [[o1 w1] |] eqn:Hloop; [| discriminate].
  destruct (commentsLoop_progress _ _ _ _ _ _ _ _ _ _ Hloop)
    as (more & err & d & -> & Hm & _).
  cbn [app]. destruct err as [e |]; [discriminate |].
  intros [= <- <-]. exact Hm.
Qed.

Lemma fetched_comments_are_unclassified_witness :
  fetchAllComments (RT := sampleRuntime) brokenRepliesNet 2 "video" "key" world0
  = Some (Return [topComment; firstReply], brokenRunEnd)
  /\ Forall (unclassified (RT := sampleRuntime)) [topComment; firstReply].
Proof.
  assert (H : fetchAllComments (RT := sampleRuntime) brokenRepliesNet 2 "video" "key" world0
              = Some (Return [topComment; firstReply], brokenRunEnd))
    by (vm_compute; reflexivity).
  split; [exact H |].
  exact (fetched_comments_are_unclassified (RT := sampleRuntime) brokenRepliesNet 2
           "video" "key" world0 brokenRunEnd [topComment; firstReply] H).
Defined.

(** X6.  An empty or unreadable body makes an empty walk, whatever the status:
    the body is read as the text of an empty object, so the first page has no
    thread and no cursor, and [fetchAllComments] returns no comment after one
    request and one progress message that counts zero. *)
Theorem empty_body_is_an_empty_video {RT : Runtime} (net : Network) (fuel : nat)
    (videoId apiKey : string) (w : World) (r : HttpResponse) :
  (1 <= fuel)%nat ->
  JSON_parse "{}" = Some (JObj []) ->
  net (calls w) (threadsUrl videoId apiKey (JStr "")) = Responded r ->
  body r = None \/ body r = Some "" ->
  exists d,
    fetchAllComments net fuel videoId apiKey w
    = Some (Return [], {| calls := calls w + 1; trace := trace w ++ d |})
    /\ fetchesOf d = [threadsUrl videoId apiKey (JStr "")]
    /\ progressOf d = [0%nat].
Proof.
  intros Hfuel Hparse Hnet Hbody.
  destruct fuel as [| fuel]; [lia |].
  unfold fetchAllComments, bind at 1, logInfo, log, emit. unfold bind at 1.
  cbn [commentsLoop]. unfold bind at 1, logInfo, log, emit. unfold bind at 1, caught.
  cbn [calls trace].
  set (url := threadsUrl videoId apiKey (JStr "")) in *.
  match goal with
  | |- context [Background.fetchWithRetry net url 3 1000 ?w1] =>
      destruct (fetchWithRetry_run net url 3 1000 w1 ltac:(lia)) as (d & Hd & Hs)
  end.
  cbv zeta in Hd, Hs. cbn [calls trace] in Hd, Hs.
  assert (H0 : outcomeOf (net (calls w + 0)%nat url) = Return (JObj [])).
  { rewrite Nat.add_0_r, Hnet, outcomeOf_responded. cbv zeta.
    assert (Ht : match body r with Some t => t | None => "" end = "")
      by (destruct Hbody as [-> | ->]; reflexivity).
    rewrite Ht. cbn [orElse String.eqb]. rewrite Hparse. cbn.
    rewrite andb_false_r. reflexivity. }
  change (Z.to_nat 3) with 3%nat in Hd, Hs.
  unfold attemptsMade in Hd, Hs. cbn [firstSuccess] in Hd, Hs. rewrite H0 in Hd, Hs.
  assert (Hq : forallb isRequestEvent d = true).
  { destruct (confined_fetchWithRetry net url 3 1000 _ _ _ Hd) as (d' & T & Hd').
    cbn [trace] in T. apply app_inv_head in T. subst d'. exact Hd'. }
  apply request_events_carry_nothing in Hq as (Hp & _).
  cbn [linearSchedule] in Hs.
  clearbody url. rewrite Hd. cbn.
  exists ([EvLog Info "Starting fetchAllComments";
           EvLog Info "Fetching comments batch with pageToken:"]
          ++ d
          ++ [EvSendMessage (ProgressUpdate 0); EvLog Info "Fetched comments so far...";
              EvSleep 200; EvLog Info "Total comments fetched"])%list.
  split; [f_equal; f_equal; f_equal; flatten_trace |].
  rewrite !fetchesOf_app, !progressOf_app, (fetchesOf_as_schedule _ _ Hs), Hp.
  split; reflexivity.
Qed.

Lemma empty_body_is_an_empty_video_witness :
  (1 <= 1)%nat
  /\ JSON_parse (Runtime := sampleRuntime) "{}" = Some (JObj [])
  /\ exists d,
       fetchAllComments (RT := sampleRuntime) failingNet 1 "video" "key" world0
       = Some (Return [], {| calls := 1; trace := trace world0 ++ d |})
       /\ fetchesOf d = [threadsUrl (RT := sampleRuntime) "video" "key" (JStr "")]
       /\ progressOf d = [0%nat].
Proof.
  assert (H0 : (1 <= 1)%nat) by lia.
  assert (H1 : JSON_parse (Runtime := sampleRuntime) "{}" = Some (JObj [])) by reflexivity.
  split; [exact H0 |]. split; [exact H1 |].
  exact (empty_body_is_an_empty_video (RT := sampleRuntime) failingNet 1 "video" "key"
           world0
           {| ok := false; status := 500; statusText := "Internal Server Error";
              body := None |}
           H0 H1 eq_refl (or_introl eq_refl)).
Defined.

(** *** sendAllComments *)

(** The shape of a run of [sendAllComments], as the listener relies on
    it. *)
Lemma sendAllComments_shape {RT : Runtime} (env : Env) (comments : list Comment)
    (w : World) :
  exists d m,
    sendAllComments env comments w
    = Some (Return tt, {| calls := calls w; trace := trace w ++ d |})
    /\ postsOf d = [comments]
    /\ uiMessagesOf d = [m]
    /\ responsesOf d = [].
Proof.
  unfold sendAllComments, post, storageSet, sendMessage, bind, tryCatch, logInfo, logWarn,
    logError, log, emit, ret, throw.
  cbn [calls trace].
  destruct (analyze env comments) as [e | [k st stx b]]; cbn [ok status body negb];
    [| destruct k; cbn [negb];
       [destruct b as [t |];
        [destruct (JSON_parse t) as [data |]; [destruct (storageSetError env) |] |] |]];
    eexists _, _;
    repeat first [progress (cbn [calls trace app]) | rewrite <- !app_assoc];
    (split; [reflexivity |]); repeat split.
Qed.

(** X7.  [sendAllComments] never throws and does not depend on the loop
    budget. It posts the batch once, sends exactly one [updateUI] message,
    answers no trigger and requests no page. The message carries the parsed
    answer of the analysis service when that is [ok] and parses, and else the
    text of the failure; the answer is stored only in the first case. *)
Theorem sendAllComments_reports_once {RT : Runtime} (env : Env)
    (comments : list Comment) (w : World) :
  exists d m,
    sendAllComments env comments w
    = Some (Return tt, {| calls := calls w; trace := trace w ++ d |})
    /\ postsOf d = [comments]
    /\ uiMessagesOf d = [m]
    /\ progressOf d = [] /\ fetchesOf d = [] /\ responsesOf d = []
    /\ m = match analyze env comments with
           | Rejected e => UpdateUIError (errText e)
           | Responded r =>
               if ok r then
                 match body r with
                 | Some t =>
                     match JSON_parse t with
                     | Some data => UpdateUIResults data
                     | None => UpdateUIError "Invalid JSON from analysis API"
                     end
                 | None => UpdateUIError "Invalid JSON from analysis API"
                 end
               else UpdateUIError ("Analysis API error: " ++ showZ (status r) ++ " "
                                   ++ match body r with Some t => t | None => "" end)
           end
    /\ storedOf d = match m with UpdateUIResults data => [data] | _ => [] end.
Proof.
  unfold sendAllComments, post, storageSet, sendMessage, bind, tryCatch, logInfo, logWarn,
    logError, log, emit, ret, throw.
  cbn [calls trace].
  destruct (analyze env comments) as [e | [k st stx b]]; cbn [ok status body negb];
    [| destruct k; cbn [negb];
       [destruct b as [t |];
        [destruct (JSON_parse t) as [data |]; [destruct (storageSetError env) |] |] |]];
    eexists _, _;
    repeat first [progress (cbn [calls trace app]) | rewrite <- !app_assoc];
    (split; [reflexivity |]); repeat split.
Qed.



(** *** The message listener, path by path *)

Lemma fetchAllComments_throws {RT : Runtime} (net : Network) (fuel : nat)
    (videoId apiKey : string) (w w' : World) (e : JsError) :
  fetchAllComments net fuel videoId apiKey w = Some (Throw e, w') ->
  exists reason,
    e = mkError ("Failed to fetch comments for video " ++ videoId ++ ": " ++ reason).
Proof.
  unfold fetchAllComments, bind at 1, logInfo, log, emit. unfold bind at 1.
  destruct (commentsLoop net fuel fuel videoId apiKey (JStr "") [] _)
    as [[o1 w1] |] eqn:Hloop; [| discriminate].
  destruct (commentsLoop_progress _ _ _ _ _ _ _ _ _ _ Hloop)
    as (more & err & d & -> & _).
  cbn [app]. destruct err as [cause |]; [| discriminate].
  intros [= <- <-]. exists (errText cause). reflexivity.
Qed.

Lemma last_of_two {A} (l : list A) (x y z : A) : last (l ++ [x; y]) z = y.
Proof. change [x; y] with ([x] ++ [y])%list. rewrite app_assoc. apply last_last. Qed.

Section ListenerPaths.
Context {RT : Runtime}.
Variable env : Env.

Lemma onMessage_with_id (fuel : nat) (request : Request) (vid : string) (w : World) :
  action request = "fetchComments" ->
  videoId request = Some vid ->
  vid <> "" ->
  onMessage env fuel request w
  = (tryCatch
       (tryCatch (analyzeVideo env fuel vid)
          (fun err =>
             logError "Unhandled error during fetchComments pipeline" ;;
             tryCatch (sendResponse (RespError (errText err)))
               (fun e => logWarn "Failed to send response in catch")))
       (fun err =>
          logError "IIFE for fetchComments failed to start" ;;
          tryCatch (sendResponse (RespError (String_of_error err)))
            (fun _ => ret tt)) ;;
     ret true) (pipelineStart w).
Proof.
  intros Ha Hv Hne. unfold onMessage. rewrite Ha, String.eqb_refl.
  unfold bind at 1, logInfo, log, emit. unfold bind at 1.
  unfold tryCatch at 1 2, fetchCommentsBody, bind at 1, logInfo, log, emit.
  rewrite Hv. cbn [nonEmpty calls trace].
  apply String.eqb_neq in Hne. rewrite Hne. cbn [negb].
  reflexivity.
Qed.

Lemma analyzeVideo_with_key (fuel : nat) (vid key : string) (w : World) :
  storedKey env = Some key ->
  key <> "" ->
  analyzeVideo env fuel vid w
  = (allComments <- fetchAllComments (net env) fuel vid key ;;
     sendAllComments env allComments ;;
     logInfo "Finished full comment pipeline for video:" ;;
     sendResponse (RespSuccess (List.length allComments))) w.
Proof.
  intros Hk Hne. unfold analyzeVideo, storageGet, storedKey in *.
  destruct (ytApiKey env) as [e | v]; [discriminate |]. subst v.
  unfold bind at 1, tryCatch, ret. cbn [nonEmpty].
  apply String.eqb_neq in Hne. rewrite Hne. reflexivity.
Qed.

End ListenerPaths.

(** X9.  Without a usable key nothing leaves the extension: when the read of
    [ytApiKey] fails, or nothing or the empty string is stored (the value that
    the installation handler writes), a trigger that carries a video id is
    answered with the error "YouTube API key not set." and no page is
    requested, nothing is posted, no message is sent, for any loop budget. *)
Theorem missing_key_stops_before_the_network {RT : Runtime} (env : Env) (fuel : nat)
    (request : Request) (vid : string) (w : World) :
  action request = "fetchComments" ->
  videoId request = Some vid ->
  vid <> "" ->
  nonEmpty (storedKey env) = false ->
  exists d,
    onMessage env fuel request w
    = Some (Return true, {| calls := calls w; trace := trace w ++ d |})
    /\ responsesOf d = [RespError "YouTube API key not set."]
    /\ fetchesOf d = [] /\ postsOf d = [] /\ uiMessagesOf d = [] /\ progressOf d = [].
Proof.
  intros Ha Hv Hne Hkey.
  rewrite (onMessage_with_id env fuel request vid w Ha Hv Hne).
  unfold analyzeVideo, storageGet, storedKey in *.
  unfold bind, tryCatch, sendResponse, logWarn, log, emit, ret, throw, pipelineStart, logged.
  destruct (ytApiKey env) as [e | v]; cbn [calls trace nonEmpty].
  - eexists. rewrite <- !app_assoc. cbn [app]. split; [reflexivity |]. repeat split.
  - rewrite Hkey. cbn [calls trace].
    eexists. rewrite <- !app_assoc. cbn [app]. split; [reflexivity |]. repeat split.
Qed.

Lemma missing_key_stops_before_the_network_witness :
  action fetchCommentsRequest = "fetchComments"
  /\ videoId fetchCommentsRequest = Some "video"
  /\ nonEmpty (storedKey keylessEnv) = false
  /\ exists d,
       onMessage (RT := sampleRuntime) keylessEnv 0 fetchCommentsRequest world0
       = Some (Return true, {| calls := 0; trace := trace world0 ++ d |})
       /\ responsesOf d = [RespError "YouTube API key not set."]
       /\ fetchesOf d = [] /\ postsOf d = [] /\ uiMessagesOf d = [] /\ progressOf d = [].
Proof.
  assert (H0 : action fetchCommentsRequest = "fetchComments") by reflexivity.
  assert (H1 : videoId fetchCommentsRequest = Some "video") by reflexivity.
  assert (H2 : "video" <> "") by discriminate.
  assert (H3 : nonEmpty (storedKey keylessEnv) = false) by reflexivity.
  split; [exact H0 |]. split; [exact H1 |]. split; [exact H3 |].
  exact (missing_key_stops_before_the_network (RT := sampleRuntime) keylessEnv 0
           fetchCommentsRequest "video" world0 H0 H1 H2 H3).
Defined.

(** X10.  When the walk returns, the listener posts exactly the comments
    returned, sends one [updateUI] message, and then answers with a success
    that counts those comments; a failure of the analysis service changes the
    message, not the answer. *)
Theorem success_counts_the_fetched_comments {RT : Runtime} (env : Env) (fuel : nat)
    (request : Request) (vid key : string) (w w2 : World) (comments : list Comment) :
  action request = "fetchComments" ->
  videoId request = Some vid ->
  vid <> "" ->
  storedKey env = Some key ->
  key <> "" ->
  fetchAllComments (net env) fuel vid key (pipelineStart w) = Some (Return comments, w2) ->
  exists d m,
    onMessage env fuel request w
    = Some (Return true, {| calls := calls w2; trace := trace w2 ++ d |})
    /\ postsOf d = [comments]
    /\ uiMessagesOf d = [m]
    /\ responsesOf d = [RespSuccess (List.length comments)]
    /\ last d (EvSleep 0) = EvResponse (RespSuccess (List.length comments)).
Proof.
  intros Ha Hv Hne Hk Hkne Hwalk.
  rewrite (onMessage_with_id env fuel request vid w Ha Hv Hne).
  unfold bind at 1, tryCatch at 1 2.
  rewrite (analyzeVideo_with_key env fuel vid key _ Hk Hkne).
  unfold bind at 1. rewrite Hwalk. unfold bind at 1.
  destruct (sendAllComments_shape env comments w2) as (d & m & -> & Hp & Hm & Hr).
  unfold bind, logInfo, log, sendResponse, emit, ret. cbn [calls trace].
  exists (d ++ [EvLog Info "Finished full comment pipeline for video:";
                EvResponse (RespSuccess (List.length comments))])%list, m.
  rewrite <- !app_assoc. cbn [app]. split; [reflexivity |].
  rewrite postsOf_app, uiMessagesOf_app, responsesOf_app, Hp, Hm, Hr.
  repeat split. apply last_of_two.
Qed.

Lemma success_counts_the_fetched_comments_witness :
  storedKey (envOf brokenRepliesNet) = Some "key"
  /\ fetchAllComments (RT := sampleRuntime) (net (envOf brokenRepliesNet)) 2 "video" "key"
       (pipelineStart world0)
     = Some (Return [topComment; firstReply], listenerWalkEnd)
  /\ exists d m,
       onMessage (RT := sampleRuntime) (envOf brokenRepliesNet) 2 fetchCommentsRequest world0
       = Some (Return true,
               {| calls := calls listenerWalkEnd; trace := trace listenerWalkEnd ++ d |})
       /\ postsOf d = [[topComment; firstReply]]
       /\ uiMessagesOf d = [m]
       /\ responsesOf d = [RespSuccess 2]
       /\ last d (EvSleep 0) = EvResponse (RespSuccess 2).
Proof.
  assert (H0 : action fetchCommentsRequest = "fetchComments") by reflexivity.
  assert (H1 : videoId fetchCommentsRequest = Some "video") by reflexivity.
  assert (H2 : "video" <> "") by discriminate.
  assert (H3 : storedKey (envOf brokenRepliesNet) = Some "key") by reflexivity.
  assert (H4 : "key" <> "") by discriminate.
  assert (H5 : fetchAllComments (RT := sampleRuntime) (net (envOf brokenRepliesNet)) 2
                 "video" "key" (pipelineStart world0)
               = Some (Return [topComment; firstReply], listenerWalkEnd))
    by (vm_compute; reflexivity).
  split; [exact H3 |]. split; [exact H5 |].
  exact (success_counts_the_fetched_comments (RT := sampleRuntime) (envOf brokenRepliesNet)
           2 fetchCommentsRequest "video" "key" world0 listenerWalkEnd
           [topComment; firstReply] H0 H1 H2 H3 H4 H5).
Defined.

(** X11.  When the walk throws, the listener posts nothing and sends no
    [updateUI] message: it logs the failure and answers with the message of
    the error, "Failed to fetch comments for video <id>: <cause>". *)
Theorem walk_failure_is_answered_not_posted {RT : Runtime} (env : Env) (fuel : nat)
    (request : Request) (vid key : string) (w w2 : World) (e : JsError) :
  action request = "fetchComments" ->
  videoId request = Some vid ->
  vid <> "" ->
  storedKey env = Some key ->
  key <> "" ->
  fetchAllComments (net env) fuel vid key (pipelineStart w) = Some (Throw e, w2) ->
  exists reason,
    onMessage env fuel request w
    = Some (Return true,
            {| calls := calls w2;
               trace := trace w2
                        ++ [EvLog Error "Unhandled error during fetchComments pipeline";
                            EvResponse
                              (RespError ("Failed to fetch comments for video " ++ vid
                                          ++ ": " ++ reason))] |}).
Proof.
  intros Ha Hv Hne Hk Hkne Hwalk.
  destruct (fetchAllComments_throws _ _ _ _ _ _ _ Hwalk) as (reason & ->).
  exists reason.
  rewrite (onMessage_with_id env fuel request vid w Ha Hv Hne).
  unfold bind at 1, tryCatch at 1 2.
  rewrite (analyzeVideo_with_key env fuel vid key _ Hk Hkne).
  unfold bind at 1. rewrite Hwalk.
  unfold bind, tryCatch, logError, log, sendResponse, emit, ret. cbn [calls trace].
  rewrite <- !app_assoc. reflexivity.
Qed.

Lemma walk_failure_is_answered_not_posted_witness :
  storedKey (envOf downNet) = Some "key"
  /\ fetchAllComments (RT := sampleRuntime) (net (envOf downNet)) 1 "video" "key"
       (pipelineStart world0)
     = Some (Throw downError, listenerDownEnd)
  /\ exists reason,
       onMessage (RT := sampleRuntime) (envOf downNet) 1 fetchCommentsRequest world0
       = Some (Return true,
               {| calls := calls listenerDownEnd;
                  trace := trace listenerDownEnd
                           ++ [EvLog Error "Unhandled error during fetchComments pipeline";
                               EvResponse
                                 (RespError ("Failed to fetch comments for video " ++ "video"
                                             ++ ": " ++ reason))] |}).
Proof.
  assert (H0 : action fetchCommentsRequest = "fetchComments") by reflexivity.
  assert (H1 : videoId fetchCommentsRequest = Some "video") by reflexivity.
  assert (H2 : "video" <> "") by discriminate.
  assert (H3 : storedKey (envOf downNet) = Some "key") by reflexivity.
  assert (H4 : "key" <> "") by discriminate.
  assert (H5 : fetchAllComments (RT := sampleRuntime) (net (envOf downNet)) 1
                 "video" "key" (pipelineStart world0)
               = Some (Throw downError, listenerDownEnd))
    by (vm_compute; reflexivity).
  split; [exact H3 |]. split; [exact H5 |].
  exact (walk_failure_is_answered_not_posted (RT := sampleRuntime) (envOf downNet)
           1 fetchCommentsRequest "video" "key" world0 listenerDownEnd downError
           H0 H1 H2 H3 H4 H5).
Defined.

(** X12.  A trigger without a video id is answered from the active tab,
    without any request: with no tab, or a tab without a url, the answer is
    "Could not determine active tab or URL"; with a url that does not parse,
    or has no parameter [v], or an empty one, it is "Video ID not provided.".
    *)
Theorem trigger_without_video_id {RT : Runtime} (env : Env) (fuel : nat)
    (request : Request) (w : World) :
  action request = "fetchComments" ->
  nonEmpty (videoId request) = false ->
  ((forall tab rest, activeTabs env = Some (tab :: rest) -> nonEmpty (tab_url tab) = false) ->
   onMessage env fuel request w
   = Some (Return true,
           logged (pipelineStart w)
             (EvResponse (RespError "Could not determine active tab or URL"))))
  /\ (forall tab rest u,
         activeTabs env = Some (tab :: rest) ->
         tab_url tab = Some u ->
         u <> "" ->
         (forall v, URL_searchParam u "v" = Some (Some v) -> v = "") ->
         exists lvl label,
           onMessage env fuel request w
           = Some (Return true,
                   logged (logged (pipelineStart w) (EvLog lvl label))
                     (EvResponse (RespError "Video ID not provided.")))).
Proof.
  intros Ha Hv.
  assert (Hstart : onMessage env fuel request w
                   = (tryCatch
                        (tryCatch (fromActiveTab env fuel)
                           (fun err =>
                              logError "Unhandled error during fetchComments pipeline" ;;
                              tryCatch (sendResponse (RespError (errText err)))
                                (fun e => logWarn "Failed to send response in catch")))
                        (fun err =>
                           logError "IIFE for fetchComments failed to start" ;;
                           tryCatch (sendResponse (RespError (String_of_error err)))
                             (fun _ => ret tt)) ;;
                      ret true) (pipelineStart w)).
  { unfold onMessage. rewrite Ha, String.eqb_refl.
    unfold bind at 1, logInfo, log, emit. unfold bind at 1.
    unfold tryCatch at 1 2, fetchCommentsBody, bind at 1, logInfo, log, emit.
    rewrite Hv. reflexivity. }
  rewrite Hstart. clear Hstart. split.
  - intros Htab. unfold fromActiveTab, bind, tryCatch, sendResponse, emit, ret.
    destruct (activeTabs env) as [[| tab rest] |]; try reflexivity.
    specialize (Htab tab rest eq_refl).
    destruct (tab_url tab) as [u |]; [| reflexivity].
    cbn [nonEmpty] in Htab. rewrite Htab. reflexivity.
  - intros tab rest u Htabs Hurl Hne Hparam.
    unfold fromActiveTab. rewrite Htabs, Hurl.
    apply String.eqb_neq in Hne. rewrite Hne. cbn [negb].
    unfold bind, tryCatch, sendResponse, logInfo, logWarn, log, emit, ret, throw.
    destruct (URL_searchParam u "v") as [[v |] |] eqn:Hp.
    + rewrite (Hparam v eq_refl). cbn. eexists _, _. reflexivity.
    + cbn. eexists _, _. reflexivity.
    + cbn. eexists _, _. reflexivity.
Qed.

Lemma trigger_without_video_id_witness :
  action popupRequest = "fetchComments"
  /\ nonEmpty (videoId popupRequest) = false
  /\ onMessage (RT := sampleRuntime) (envOf downNet) 0 popupRequest world0
     = Some (Return true,
             logged (pipelineStart world0)
               (EvResponse (RespError "Could not determine active tab or URL")))
  /\ exists lvl label,
       onMessage (RT := sampleRuntime) otherTabEnv 0 popupRequest world0
       = Some (Return true,
               logged (logged (pipelineStart world0) (EvLog lvl label))
                 (EvResponse (RespError "Video ID not provided."))).
Proof.
  assert (H0 : action popupRequest = "fetchComments") by reflexivity.
  assert (H1 : nonEmpty (videoId popupRequest) = false) by reflexivity.
  split; [exact H0 |]. split; [exact H1 |]. split.
  - apply (proj1 (trigger_without_video_id (RT := sampleRuntime) (envOf downNet) 0
                    popupRequest world0 H0 H1)).
    intros tab rest H. discriminate.
  - apply (proj2 (trigger_without_video_id (RT := sampleRuntime) otherTabEnv 0
                    popupRequest world0 H0 H1)
             {| tab_url := Some "https://example.org/" |} [] "https://example.org/");
      try reflexivity; [discriminate |].
    intros v H. discriminate.
Defined.

(** *** Items of a page of threads *)

(** X13.  An item that is not [null] and has no (truthy) [snippet] is passed
    over without a trace: nothing is pushed, no reply is walked, and the loop
    goes on with the next item. An item that is [null] ends the loop over the
    page with a [TypeError], where the optional chaining of the first
    statement still passed. *)
Theorem thread_items_without_snippet {RT : Runtime} (net : Network) (rfuel : nat)
    (apiKey : string) (item : Json) (rest : list Json) (comments : list Comment)
    (w : World) :
  item <> JNull ->
  truthy (getProp item "snippet") = false ->
  commentsOfItems net rfuel apiKey (item :: rest) comments w
  = commentsOfItems net rfuel apiKey rest comments w
  /\ commentsOfItems net rfuel apiKey (JNull :: rest) comments w
     = Some (Return (comments,
                     Some (TypeError "Cannot read properties of null (reading 'snippet')")),
             w).
Proof.
  intros Hnull Hsn. split; [| reflexivity].
  cbn [commentsOfItems]. unfold pushTopLevel, topLevelSnippet.
  assert (Hopt : optGet (Some item) "snippet" = getProp item "snippet")
    by (destruct item; try reflexivity; contradiction).
  assert (Hprop : propOf item "snippet" = Return (getProp item "snippet"))
    by (destruct item; try reflexivity; contradiction).
  rewrite Hopt, Hprop, Hsn.
  assert (Htop : optGet (optGet (getProp item "snippet") "topLevelComment") "snippet" = None).
  { destruct (getProp item "snippet") as [[| b | n | s | l | fs] |]; cbn in Hsn |- *;
      try reflexivity; discriminate. }
  rewrite Htop. reflexivity.
Qed.

Lemma thread_items_without_snippet_witness :
  JObj [("kind", JStr "youtube#commentThread")] <> JNull
  /\ truthy (getProp (JObj [("kind", JStr "youtube#commentThread")]) "snippet") = false
  /\ commentsOfItems (RT := sampleRuntime) downNet 1 "key"
       [JObj [("kind", JStr "youtube#commentThread")]; threadItem] [] afterThreadPage
     = commentsOfItems (RT := sampleRuntime) downNet 1 "key" [threadItem] [] afterThreadPage.
Proof.
  assert (H0 : JObj [("kind", JStr "youtube#commentThread")] <> JNull) by discriminate.
  assert (H1 : truthy (getProp (JObj [("kind", JStr "youtube#commentThread")]) "snippet")
               = false) by reflexivity.
  split; [exact H0 |]. split; [exact H1 |].
  exact (proj1 (thread_items_without_snippet (RT := sampleRuntime) downNet 1 "key"
                  (JObj [("kind", JStr "youtube#commentThread")]) [threadItem] []
                  afterThreadPage H0 H1)).
Defined.

(** ** The older walkers beside the background script *)

Lemma firstSuccess_all_fail (outcomes : nat -> Outcome Json) (n : nat) :
  forall k,
    (forall j, (k <= j < k + n)%nat -> fails (outcomes j) = true) ->
    firstSuccess outcomes n k = None.
Proof.
  induction n as [| n IH]; intros k H; [reflexivity |].
  cbn [firstSuccess].
  pose proof (H k ltac:(lia)) as Hk.
  destruct (outcomes k) as [json | e]; [discriminate |].
  apply IH. intros j Hj. apply H. lia.
Qed.

Section ConfinedLegacy.
Context {RT : Runtime}.
Variable net : Network.

Lemma confined_legacy_attempt url : confined isRequestEvent (Legacy.attempt net url).
Proof. unfold Legacy.attempt. repeat confined_step. Qed.

Lemma confined_legacy_attempts url retries delay :
  forall n i, confined isRequestEvent (Legacy.attempts net url retries delay n i).
Proof.
  induction n as [| n IH]; intros i; cbn [Legacy.attempts]; repeat confined_step.
  apply confined_legacy_attempt.
Qed.

Lemma confined_legacy_fetchWithRetry url retries delay :
  confined isRequestEvent (Legacy.fetchWithRetry net url retries delay).
Proof.
  unfold Legacy.fetchWithRetry. repeat confined_step. apply confined_legacy_attempts.
Qed.

End ConfinedLegacy.

(** X14.  Where the first page cannot be fetched because the source is
    unreachable, the two copies tell their caller different things. The older
    copy rethrows the error of its [fetchWithRetry] as it is: "Failed fetching
    URL after 3 attempts", without the video and without the reason. The
    background script throws "Failed to fetch comments for video <id>: Failed
    fetching URL after 3 attempts: <reason of the last failure>". Both make
    three requests and send no progress message. *)
Theorem unreachable_source_in_both_copies {RT : Runtime} (net : Network) (fuel : nat)
    (videoId apiKey : string) (w : World) (e : nat -> JsError) :
  (1 <= fuel)%nat ->
  (forall k, (k < 3)%nat ->
             net (calls w + k)%nat (threadsUrl videoId apiKey (JStr "")) = Rejected (e k)) ->
  (exists d,
      LegacyWalkers.fetchAllComments net fuel videoId apiKey w
      = Some (Throw (mkError "Failed fetching URL after 3 attempts"),
              {| calls := calls w + 3; trace := trace w ++ d |})
      /\ fetchesOf d = repeat (threadsUrl videoId apiKey (JStr "")) 3
      /\ progressOf d = [])
  /\ (exists d,
         fetchAllComments net fuel videoId apiKey w
         = Some (Throw (mkError ("Failed to fetch comments for video " ++ videoId ++ ": "
                                 ++ "Failed fetching URL after 3 attempts: "
                                 ++ errText (e 2%nat))),
                 {| calls := calls w + 3; trace := trace w ++ d |})
         /\ fetchesOf d = repeat (threadsUrl videoId apiKey (JStr "")) 3
         /\ progressOf d = []).
Proof.
  intros Hfuel Hnet. destruct fuel as [| fuel]; [lia |].
  set (url := threadsUrl videoId apiKey (JStr "")) in *.
  split.
  - unfold LegacyWalkers.fetchAllComments, bind at 1, logInfo, log, emit. unfold bind at 1.
    cbn [LegacyWalkers.commentsLoop]. unfold bind at 1, logInfo, log, emit.
    unfold bind at 1, caught. cbn [calls trace]. fold url.
    match goal with
    | |- context [Legacy.fetchWithRetry net url 3 1000 ?w1] =>
        destruct (legacy_fetchWithRetry_run net url 3 1000 w1 ltac:(lia)) as (d & Hd & Hs)
    end.
    cbv zeta in Hd, Hs. cbn [calls trace] in Hd, Hs.
    change (Z.to_nat 3) with 3%nat in Hd, Hs. unfold attemptsMade in Hd, Hs.
    rewrite firstSuccess_all_fail in Hd, Hs
      by (intros j Hj; rewrite Hnet by lia; reflexivity).
    assert (Hp : progressOf d = []).
    { destruct (confined_legacy_fetchWithRetry net url 3 1000 _ _ _ Hd) as (d' & T & Hd').
      cbn [trace] in T. apply app_inv_head in T. subst d'.
      apply request_events_carry_nothing in Hd'. tauto. }
    clearbody url. rewrite Hd. cbn.
    exists ([EvLog Info "Starting fetchAllComments";
             EvLog Info "Fetching comments batch with pageToken:"]
            ++ d ++ [EvLog Error "Error fetching all comments"])%list.
    split; [f_equal; f_equal; try reflexivity; f_equal; flatten_trace |].
    rewrite !fetchesOf_app, !progressOf_app, (fetchesOf_as_schedule _ _ Hs), Hp.
    rewrite fetchesOf_constantSchedule. split; reflexivity.
  - unfold fetchAllComments, bind at 1, logInfo, log, emit. unfold bind at 1.
    cbn [commentsLoop]. unfold bind at 1, logInfo, log, emit.
    unfold bind at 1, caught. cbn [calls trace]. fold url.
    match goal with
    | |- context [Background.fetchWithRetry net url 3 1000 ?w1] =>
        destruct (fetchWithRetry_run net url 3 1000 w1 ltac:(lia)) as (d & Hd & Hs)
    end.
    cbv zeta in Hd, Hs. cbn [calls trace] in Hd, Hs.
    change (Z.to_nat 3) with 3%nat in Hd, Hs. unfold attemptsMade in Hd, Hs.
    rewrite firstSuccess_all_fail in Hd, Hs
      by (intros j Hj; rewrite Hnet by lia; reflexivity).
    change (3 - 1)%nat with 2%nat in Hd. rewrite (Hnet 2%nat) in Hd by lia.
    change (reasonOf (outcomeOf (Rejected (e 2%nat)))) with (errText (e 2%nat)) in Hd.
    assert (Hp : progressOf d = []).
    { destruct (confined_fetchWithRetry net url 3 1000 _ _ _ Hd) as (d' & T & Hd').
      cbn [trace] in T. apply app_inv_head in T. subst d'.
      apply request_events_carry_nothing in Hd'. tauto. }
    clearbody url. rewrite Hd. cbn -[errText].
    exists ([EvLog Info "Starting fetchAllComments";
             EvLog Info "Fetching comments batch with pageToken:"]
            ++ d ++ [EvLog Error "Error fetching all comments"])%list.
    split; [f_equal; f_equal; try reflexivity; f_equal; flatten_trace |].
    rewrite !fetchesOf_app, !progressOf_app, (fetchesOf_as_schedule _ _ Hs), Hp.
    rewrite fetchesOf_linearSchedule. split; reflexivity.
Qed.

Lemma unreachable_source_in_both_copies_witness :
  (1 <= 1)%nat
  /\ (forall k, (k < 3)%nat ->
                downNet (calls world0 + k)%nat
                  (threadsUrl (RT := sampleRuntime) "video" "key" (JStr ""))
                = Rejected (TypeError "Failed to fetch"))
  /\ (exists d,
         LegacyWalkers.fetchAllComments (RT := sampleRuntime) downNet 1 "video" "key" world0
         = Some (Throw (mkError "Failed fetching URL after 3 attempts"),
                 {| calls := 3; trace := trace world0 ++ d |}))
  /\ (exists d,
         fetchAllComments (RT := sampleRuntime) downNet 1 "video" "key" world0
         = Some (Throw downError, {| calls := 3; trace := trace world0 ++ d |})).
Proof.
  assert (H0 : (1 <= 1)%nat) by lia.
  assert (H1 : forall k, (k < 3)%nat ->
                 downNet (calls world0 + k)%nat
                   (threadsUrl (RT := sampleRuntime) "video" "key" (JStr ""))
                 = Rejected (TypeError "Failed to fetch")) by reflexivity.
  split; [exact H0 |]. split; [exact H1 |].
  destruct (unreachable_source_in_both_copies (RT := sampleRuntime) downNet 1 "video" "key"
              world0 (fun _ => TypeError "Failed to fetch") H0 H1)
    as ((d1 & E1 & _) & (d2 & E2 & _)).
  split; [exists d1; exact E1 | exists d2; exact E2].
Defined.

(** X15.  One thread without a snippet ends the loop over the page in the
    older copy: it reads [item.snippet.totalReplyCount] without a guard, and
    the [TypeError] leaves the loop with the comments collected so far. The
    background script guards the read and goes on with the next item. *)
Theorem older_walk_fails_on_thread_without_snippet {RT : Runtime} (net : Network)
    (rfuel : nat) (apiKey : string) (item : Json) (rest : list Json)
    (comments : list Comment) (w : World) :
  item <> JNull ->
  getProp item "snippet" = None ->
  LegacyWalkers.commentsOfItems net rfuel apiKey (item :: rest) comments w
  = Some (Return (comments,
                  Some (TypeError
                          "Cannot read properties of undefined (reading 'totalReplyCount')")),
          w)
  /\ commentsOfItems net rfuel apiKey (item :: rest) comments w
     = commentsOfItems net rfuel apiKey rest comments w.
Proof.
  intros Hnull Hsn.
  assert (Hopt : optGet (Some item) "snippet" = None)
    by (destruct item; try contradiction; exact Hsn).
  assert (Hprop : propOf item "snippet" = Return None)
    by (destruct item; try contradiction; unfold propOf; rewrite Hsn; reflexivity).
  split.
  - cbn [LegacyWalkers.commentsOfItems].
    unfold LegacyWalkers.pushTopLevel, topLevelSnippet. rewrite Hopt, Hprop. reflexivity.
  - cbn [commentsOfItems]. unfold pushTopLevel, topLevelSnippet.
    rewrite Hopt, Hprop. reflexivity.
Qed.

Lemma older_walk_fails_on_thread_without_snippet_witness :
  JObj [("kind", JStr "youtube#commentThread")] <> JNull
  /\ getProp (JObj [("kind", JStr "youtube#commentThread")]) "snippet" = None
  /\ LegacyWalkers.commentsOfItems (RT := sampleRuntime) downNet 1 "key"
       [JObj [("kind", JStr "youtube#commentThread")]; threadItem] [topComment]
       afterThreadPage
     = Some (Return ([topComment],
                     Some (TypeError
                             "Cannot read properties of undefined (reading 'totalReplyCount')")),
             afterThreadPage).
Proof.
  assert (H0 : JObj [("kind", JStr "youtube#commentThread")] <> JNull) by discriminate.
  assert (H1 : getProp (JObj [("kind", JStr "youtube#commentThread")]) "snippet" = None)
    by reflexivity.
  split; [exact H0 |]. split; [exact H1 |].
  exact (proj1 (older_walk_fails_on_thread_without_snippet (RT := sampleRuntime) downNet 1
                  "key" (JObj [("kind", JStr "youtube#commentThread")]) [threadItem]
                  [topComment] afterThreadPage H0 H1)).
Defined.

(** ** The other aggregations of the popup *)

Module ChartFacts.
Import Js Popup PopupSamples PopupCharts PopupFacts.

(** *** Objects built key by key *)

Lemma existsb_eqb_string (k : string) (ks : list string) :
  existsb (String.eqb k) ks = true <-> In k ks.
Proof.
  rewrite existsb_exists. split.
  - intros (x & Hx & E). apply String.eqb_eq in E. subst. exact Hx.
  - intros H. exists k. split; [exact H | apply String.eqb_refl].
Qed.

Lemma existsb_eqb_string_false (k : string) (ks : list string) :
  existsb (String.eqb k) ks = false <-> ~ In k ks.
Proof.
  rewrite <- existsb_eqb_string. destruct (existsb (String.eqb k) ks); intuition congruence.
Qed.

Section Keyed.
Context {V : Type}.

Lemma get_keyed (f : string -> V) (ks : list string) (k : string) :
  get k (keyed f ks) = if existsb (String.eqb k) ks then Some (f k) else None.
Proof.
  induction ks as [| a ks IH]; cbn; [reflexivity |].
  destruct (String.eqb_spec k a) as [-> | Hne]; cbn; [reflexivity | exact IH].
Qed.

Lemma keyed_ext (f g : string -> V) (ks : list string) :
  (forall k, In k ks -> f k = g k) -> keyed f ks = keyed g ks.
Proof.
  intros H. unfold keyed. apply map_ext_in. intros k Hk. rewrite (H k Hk). reflexivity.
Qed.

Lemma set_keyed_present (f : string -> V) (ks : list string) (k : string) (v : V) :
  NoDup ks -> In k ks ->
  set k v (keyed f ks) = keyed (fun j => if (j =? k)%string then v else f j) ks.
Proof.
  induction ks as [| a ks IH]; intros Hnd Hin; [destruct Hin |].
  inversion Hnd as [| ? ? Ha Hnd']; subst. cbn.
  destruct (String.eqb_spec k a) as [-> | Hne].
  - rewrite String.eqb_refl. f_equal.
    apply keyed_ext. intros j Hj.
    destruct (String.eqb_spec j a) as [-> | _]; [contradiction | reflexivity].
  - destruct Hin as [-> | Hin]; [contradiction |].
    destruct (String.eqb_spec a k) as [-> | _]; [contradiction |].
    f_equal. apply IH; assumption.
Qed.

Lemma set_keyed_absent (f : string -> V) (ks : list string) (k : string) (v : V) :
  ~ In k ks ->
  set k v (keyed f ks)
  = keyed (fun j => if (j =? k)%string then v else f j) (ks ++ [k]).
Proof.
  induction ks as [| a ks IH]; intros Hin; cbn.
  - rewrite String.eqb_refl. reflexivity.
  - destruct (String.eqb_spec k a) as [-> | Hne]; [exfalso; apply Hin; left; reflexivity |].
    destruct (String.eqb_spec a k) as [-> | _]; [contradiction |].
    f_equal. apply IH. intros H. apply Hin. right. exact H.
Qed.

(** One step of an aggregation: the value under [k] is created as [d] when
    it is missing, and updated. *)
Lemma step_keyed (f : string -> V) (ks : list string) (k : string) (d : V)
    (upd : V -> V) :
  NoDup ks ->
  (~ In k ks -> f k = d) ->
  set k (upd (match get k (keyed f ks) with Some r => r | None => d end)) (keyed f ks)
  = keyed (fun j => if (j =? k)%string then upd (f j) else f j)
      (if existsb (String.eqb k) ks then ks else ks ++ [k]).
Proof.
  intros Hnd Hd. rewrite get_keyed.
  destruct (existsb (String.eqb k) ks) eqn:E.
  - apply existsb_eqb_string in E. rewrite (set_keyed_present _ _ _ _ Hnd E).
    apply keyed_ext. intros j _. destruct (String.eqb_spec j k) as [-> | _]; reflexivity.
  - apply existsb_eqb_string_false in E. rewrite (set_keyed_absent _ _ _ _ E).
    apply keyed_ext. intros j _.
    destruct (String.eqb_spec j k) as [-> | _]; [rewrite (Hd E) |]; reflexivity.
Qed.

End Keyed.

Lemma NoDup_seen_step (ks : list string) (k : string) :
  NoDup ks -> NoDup (if existsb (String.eqb k) ks then ks else ks ++ [k]).
Proof.
  intros Hnd. destruct (existsb (String.eqb k) ks) eqn:E; [exact Hnd |].
  apply existsb_eqb_string_false in E.
  apply NoDup_app; [exact Hnd | repeat constructor; intros [] |].
  intros x Hx [<- | []]. contradiction.
Qed.

Lemma firstSeen_cons (ks : list string) (x : string) (l : list string) :
  firstSeen ks (x :: l)
  = firstSeen (if existsb (String.eqb x) ks then ks else ks ++ [x]) l.
Proof. reflexivity. Qed.

Lemma firstSeen_NoDup (l : list string) :
  forall ks, NoDup ks -> NoDup (firstSeen ks l).
Proof.
  induction l as [| x l IH]; intros ks Hnd; [exact Hnd |].
  rewrite firstSeen_cons. apply IH, NoDup_seen_step, Hnd.
Qed.

Lemma firstSeen_In (l : list string) :
  forall ks k, In k (firstSeen ks l) <-> In k ks \/ In k l.
Proof.
  induction l as [| x l IH]; intros ks k.
  - cbn. tauto.
  - rewrite firstSeen_cons, IH. cbn [In].
    destruct (existsb (String.eqb x) ks) eqn:E.
    + apply existsb_eqb_string in E. split; [tauto |].
      intros [H | [<- | H]]; auto.
    + rewrite in_app_iff. cbn [In]. tauto.
Qed.

Lemma firstSeen_prefix (l : list string) :
  forall ks, exists more, firstSeen ks l = (ks ++ more)%list.
Proof.
  induction l as [| x l IH]; intros ks.
  - exists []. rewrite app_nil_r. reflexivity.
  - rewrite firstSeen_cons. destruct (existsb (String.eqb x) ks).
    + apply IH.
    + destruct (IH (ks ++ [x])%list) as (more & ->).
      exists (x :: more). rewrite <- app_assoc. reflexivity.
Qed.

Lemma occurrences_cons (k x : string) (l : list string) :
  occurrences k (x :: l) = (if (k =? x)%string then 1 else 0) + occurrences k l.
Proof.
  unfold occurrences. cbn [filter]. destruct (k =? x)%string; cbn [List.length]; lia.
Qed.

Lemma occurrences_pos (k : string) (l : list string) :
  In k l <-> 1 <= occurrences k l.
Proof.
  induction l as [| x l IH]; [cbn; split; [intros [] | unfold occurrences; cbn; lia] |].
  rewrite occurrences_cons. cbn [In].
  assert (H0 : 0 <= occurrences k l) by (unfold occurrences; lia).
  destruct (String.eqb_spec k x) as [-> | Hne].
  - split; [lia | auto].
  - rewrite IH. split; [intros [E | H]; [congruence | lia] | intros H; right; lia].
Qed.

(** The tally of a list of keys into an object. *)
Lemma tally_keyed (l : list string) :
  forall (f : string -> Z) (ks : list string),
    NoDup ks ->
    (forall k, ~ In k ks -> f k = 0) ->
    fold_left countEmoji l (keyed f ks)
    = keyed (fun k => f k + occurrences k l) (firstSeen ks l).
Proof.
  induction l as [| x l IH]; intros f ks Hnd Hzero.
  - cbn. apply keyed_ext. intros k _. unfold occurrences. cbn. lia.
  - cbn [fold_left]. rewrite firstSeen_cons. unfold countEmoji at 2.
    assert (Hstep := step_keyed f ks x 0 (fun v => v + 1) Hnd (Hzero x)).
    change (match get x (keyed f ks) with Some r => r | None => 0 end)
      with (orZero (get x (keyed f ks))) in Hstep.
    rewrite Hstep, IH.
    + apply keyed_ext. intros k _. rewrite occurrences_cons.
      destruct (String.eqb_spec k x) as [-> | _]; lia.
    + apply NoDup_seen_step, Hnd.
    + intros k Hk. destruct (String.eqb_spec k x) as [-> | Hne].
      * exfalso. apply Hk. destruct (existsb (String.eqb x) ks) eqn:E.
        -- apply existsb_eqb_string, E.
        -- apply in_or_app. right. left. reflexivity.
      * apply Hzero. intros H. apply Hk.
        destruct (existsb (String.eqb x) ks); [exact H | apply in_or_app; left; exact H].
Qed.

Lemma tally_from_nothing (l : list string) :
  fold_left countEmoji l [] = keyed (fun k => occurrences k l) (firstSeen [] l).
Proof.
  change (@nil (string * Z)) with (keyed (fun _ : string => 0) []).
  rewrite tally_keyed; [| constructor | reflexivity].
  apply keyed_ext. intros k _. lia.
Qed.

Lemma map_fst_keyed {V} (f : string -> V) (ks : list string) : map fst (keyed f ks) = ks.
Proof. unfold keyed. rewrite map_map. cbn. apply map_id. Qed.

Lemma In_keyed {V} (f : string -> V) (ks : list string) (k : string) (v : V) :
  In (k, v) (keyed f ks) <-> In k ks /\ v = f k.
Proof.
  unfold keyed. rewrite in_map_iff. split.
  - intros (j & [= <- <-] & Hj). auto.
  - intros (Hk & ->). exists k. auto.
Qed.

(** *** Counting the records key by key *)

Lemma sumZ_app (a b : list Z) : sumZ (a ++ b) = sumZ a + sumZ b.
Proof. induction a as [| x a IH]; cbn; [reflexivity | unfold sumZ in *; cbn; lia]. Qed.

Lemma sum_indicator (s : string) (ks : list string) :
  NoDup ks -> In s ks ->
  sumZ (map (fun k => if (k =? s)%string then 1 else 0) ks) = 1.
Proof.
  induction ks as [| a ks IH]; intros Hnd Hin; [destruct Hin |].
  inversion Hnd as [| ? ? Ha Hnd']; subst. cbn.
  destruct (String.eqb_spec a s) as [-> | Hne].
  - assert (H0 : sumZ (map (fun k => if (k =? s)%string then 1 else 0) ks) = 0).
    { clear IH Hnd Hnd' Hin. induction ks as [| b ks IH]; [reflexivity |].
      cbn. destruct (String.eqb_spec b s) as [-> | _];
        [exfalso; apply Ha; left; reflexivity |].
      apply IH. intros H. apply Ha. right. exact H. }
    unfold sumZ in *. lia.
  - destruct Hin as [-> | Hin]; [contradiction |].
    specialize (IH Hnd' Hin). unfold sumZ in *. lia.
Qed.

Lemma sumZ_map_add {A} (f g : A -> Z) (l : list A) :
  sumZ (map (fun x => f x + g x) l) = sumZ (map f l) + sumZ (map g l).
Proof. induction l as [| x l IH]; cbn; [reflexivity | unfold sumZ in *; cbn in *; lia]. Qed.

(** The records are counted once each by the keys they carry. *)
Lemma sum_by_key {A} (key : A -> string) (R : list A) (ks : list string) :
  NoDup ks ->
  (forall c, In c R -> In (key c) ks) ->
  sumZ (map (fun k => Z.of_nat (List.length (filter (fun c => (key c =? k)%string) R))) ks)
  = Z.of_nat (List.length R).
Proof.
  intros Hnd. induction R as [| c R IH]; intros Hin.
  - cbn. clear. induction ks as [| k ks IH]; [reflexivity | cbn; exact IH].
  - rewrite (map_ext _ (fun k => (if (k =? key c)%string then 1 else 0)
                                 + Z.of_nat (List.length
                                               (filter (fun c0 => (key c0 =? k)%string) R)))).
    + rewrite sumZ_map_add, IH by (intros c0 H0; apply Hin; right; exact H0).
      rewrite (sum_indicator _ _ Hnd (Hin c (or_introl eq_refl))).
      cbn [List.length]. lia.
    + intros k. cbn [filter]. rewrite (String.eqb_sym (key c) k).
      destruct (k =? key c)%string; cbn [List.length]; lia.
Qed.

Lemma fold_left_map {A B C} (f : A -> C -> A) (g : B -> C) (l : list B) (a : A) :
  fold_left (fun acc x => f acc (g x)) l a = fold_left f (map g l) a.
Proof. revert a. induction l as [| x l IH]; intros a; cbn; [reflexivity | apply IH]. Qed.

Lemma occurrences_sentiment (s : string) (R : list Comment) :
  occurrences s (map sentiment R) = countOf s R.
Proof.
  unfold occurrences, countOf. f_equal.
  induction R as [| c R IH]; [reflexivity |].
  cbn [map filter]. rewrite (String.eqb_sym s (sentiment c)).
  destruct (sentiment c =? s)%string; cbn [List.length]; rewrite IH; reflexivity.
Qed.

Lemma getSentimentCounts_keyed (R : list Comment) :
  getSentimentCounts R
  = keyed (fun s => countOf s R)
      (firstSeen ["positive"; "neutral"; "negative"] (map sentiment R)).
Proof.
  unfold getSentimentCounts.
  change (fold_left _ R ?init)
    with (fold_left (fun acc c => countEmoji acc (sentiment c)) R init).
  rewrite (fold_left_map countEmoji sentiment).
  change [("positive", 0); ("neutral", 0); ("negative", 0)]
    with (keyed (fun _ : string => 0) ["positive"; "neutral"; "negative"]).
  rewrite tally_keyed.
  - apply keyed_ext. intros k _. rewrite occurrences_sentiment. lia.
  - repeat constructor; cbn; intuition discriminate.
  - reflexivity.
Qed.

Lemma Object_entries_plain {V} (o : Obj V) :
  (forall e, In e o -> isArrayIndex (fst e) = false) -> Object_entries o = o.
Proof.
  intros H. unfold Object_entries.
  assert (H12 : filter (fun e : string * V => isArrayIndex (fst e)) o = []
                /\ filter (fun e : string * V => negb (isArrayIndex (fst e))) o = o).
  { induction o as [| e o IH]; [split; reflexivity |]. cbn [filter].
    rewrite (H e (or_introl eq_refl)). cbn [negb].
    destruct IH as [IH1 IH2]; [intros e' He'; apply H; right; exact He' |].
    rewrite IH2. split; [exact IH1 | reflexivity]. }
  destruct H12 as [-> ->]. reflexivity.
Qed.

Lemma map_fst_filter {V} (p : string -> bool) (o : Obj V) :
  map fst (filter (fun e => p (fst e)) o) = filter p (map fst o).
Proof.
  induction o as [| e o IH]; [reflexivity |].
  cbn [filter map]. destruct (p (fst e)); cbn [map]; rewrite IH; reflexivity.
Qed.

(** The order in which the keys of an object are enumerated: the array
    indices first, then the other names in the order of their creation. *)
Lemma Object_keys_split {V} (o : Obj V) :
  exists indices,
    map fst (Object_entries o)
    = (indices ++ filter (fun k => negb (isArrayIndex k)) (map fst o))%list
    /\ Forall (fun k => isArrayIndex k = true) indices.
Proof.
  unfold Object_entries. rewrite map_app.
  rewrite (map_fst_filter (fun k => negb (isArrayIndex k))).
  eexists. split; [reflexivity |].
  rewrite Forall_forall. intros k Hk.
  apply in_map_iff in Hk as (e & <- & He).
  apply (Permutation_in _ (sortBy_perm _ _)) in He.
  apply filter_In in He as (_ & He). exact He.
Qed.

(** X16.  Whatever the sentiments are, the object of [getSentimentCounts]
    holds one key for each of positive, neutral and negative and for each
    other sentiment of the records, none of them twice; its keys are
    enumerated with the sentiments that are written like array indices first,
    then positive, neutral and negative, then the other sentiments in the
    order of their first record.  The value under a key is the number of
    records with that sentiment, so a label outside the three changes none of
    the three counts; and the values sum to the number of records. The
    statement is for records none of whose sentiments is a name inherited
    from [Object.prototype]. *)
Theorem sentiment_counts_are_exhaustive (R : list Comment) :
  (forall c, In c R -> inheritedKey (sentiment c) = false) ->
  let counts := getSentimentCounts R in
  let keys := map fst (Object_entries counts) in
  (exists indices others,
      keys = (indices ++ ["positive"; "neutral"; "negative"] ++ others)%list
      /\ Forall (fun k => isArrayIndex k = true) indices
      /\ Forall (fun k => isArrayIndex k = false) others)
  /\ ((forall c, In c R -> isArrayIndex (sentiment c) = false) ->
      keys = firstSeen ["positive"; "neutral"; "negative"] (map sentiment R))
  /\ NoDup keys
  /\ (forall s, In s keys <->
                recognized s \/ exists c, In c R /\ sentiment c = s)
  /\ (forall s n, In (s, n) counts -> n = countOf s R)
  /\ (forall s, recognized s -> get s counts = Some (countOf s R))
  /\ sumZ (map snd counts) = Z.of_nat (List.length R).
Proof.
  intros _ counts keys. subst keys counts. rewrite getSentimentCounts_keyed.
  set (three := ["positive"; "neutral"; "negative"]).
  set (seen := firstSeen three (map sentiment R)).
  set (f := fun s : string => countOf s R).
  assert (Hnd3 : NoDup three) by (repeat constructor; cbn; intuition discriminate).
  assert (Hnd : NoDup seen) by (apply firstSeen_NoDup, Hnd3).
  assert (Hperm : Permutation (map fst (Object_entries (keyed f seen))) seen).
  { rewrite <- (map_fst_keyed f seen) at 2. apply Permutation_map, Object_entries_perm. }
  assert (Hseen : forall s, In s seen <-> recognized s \/ exists c, In c R /\ sentiment c = s).
  { intros s. unfold seen. rewrite firstSeen_In, in_map_iff.
    split; (intros [H | (c & H1 & H2)]; [left; exact H | right; exists c; auto]). }
  split; [| split; [| split; [| split; [| split; [| split]]]]].
  - destruct (Object_keys_split (keyed f seen)) as (indices & -> & Hidx).
    rewrite map_fst_keyed.
    destruct (firstSeen_prefix (map sentiment R) three) as (more & Hmore).
    fold seen in Hmore. rewrite Hmore, filter_app.
    exists indices, (filter (fun k => negb (isArrayIndex k)) more).
    split; [reflexivity |]. split; [exact Hidx |].
    rewrite Forall_forall. intros k Hk. apply filter_In in Hk as (_ & Hk).
    apply negb_true_iff, Hk.
  - intros Hplain. rewrite Object_entries_plain; [apply map_fst_keyed |].
    intros [k v] He. apply In_keyed in He as (Hk & _). cbn [fst].
    apply Hseen in Hk as [Hk | (c & Hc & <-)]; [| apply Hplain, Hc].
    destruct Hk as [<- | [<- | [<- | []]]]; reflexivity.
  - apply (Permutation_NoDup (Permutation_sym Hperm)), Hnd.
  - intros s. rewrite <- Hseen. split; intros H.
    + apply (Permutation_in _ Hperm), H.
    + apply (Permutation_in _ (Permutation_sym Hperm)), H.
  - intros s n Hin. apply In_keyed in Hin as (_ & ->). reflexivity.
  - intros s Hs. rewrite get_keyed.
    assert (Hin : In s seen) by (apply Hseen; left; exact Hs).
    apply existsb_eqb_string in Hin. rewrite Hin. reflexivity.
  - unfold keyed. rewrite map_map. cbn [snd]. unfold f, countOf.
    apply (sum_by_key sentiment R seen Hnd).
    intros c Hc. apply Hseen. right. exists c. auto.
Qed.

Lemma sentiment_counts_are_exhaustive_witness :
  let R := updateCommentsData
             [prediction (Some "Mixed") None None;
              prediction (Some "7") None None;
              prediction (Some "positive") None None;
              prediction (Some "MIXED") None None] [] in
  (forall c, In c R -> inheritedKey (sentiment c) = false)
  /\ getSentimentCounts R
     = [("positive", 1); ("neutral", 0); ("negative", 0); ("mixed", 2); ("7", 1)]
  /\ map fst (Object_entries (getSentimentCounts R))
     = ["7"; "positive"; "neutral"; "negative"; "mixed"]
  /\ NoDup (map fst (Object_entries (getSentimentCounts R)))
  /\ sumZ (map snd (getSentimentCounts R)) = Z.of_nat (List.length R).
Proof.
  intros R.
  assert (H : forall c, In c R -> inheritedKey (sentiment c) = false).
  { intros c [<- | [<- | [<- | [<- | []]]]]; reflexivity. }
  split; [exact H |]. split; [reflexivity |]. split; [reflexivity |].
  destruct (sentiment_counts_are_exhaustive R H) as (_ & _ & Hnd & _ & _ & _ & Hsum).
  split; [exact Hnd | exact Hsum].
Defined.

(** *** The topic matrix *)

Lemma sumZ_perm (a b : list Z) : Permutation a b -> sumZ a = sumZ b.
Proof.
  induction 1 as [| x a b _ IH | x y a | a b c _ IH1 _ IH2]; unfold sumZ in *; cbn in *; lia.
Qed.

Lemma map_snd_keyed {V} (f : string -> V) (ks : list string) :
  map snd (keyed f ks) = map f ks.
Proof. unfold keyed. rewrite map_map. reflexivity. Qed.

Lemma topicCount_cons (t s : string) (c : Comment) (R : list Comment) :
  topicCount t s (c :: R)
  = (if (topic c =? t)%string && (sentiment c =? s)%string then 1 else 0)
    + topicCount t s R.
Proof.
  unfold topicCount. cbn [filter].
  destruct ((topic c =? t)%string && (sentiment c =? s)%string); cbn [List.length]; lia.
Qed.

Section Topics.
Context {B : Builtins}.

Lemma increment_counts (c : Comment) (row : TopicRow) (R : list Comment) :
  recognized (sentiment c) ->
  withCounts (increment (sentiment c) row) (topic c) R
  = withCounts row (topic c) (c :: R).
Proof.
  intros Hs. unfold withCounts. rewrite !topicCount_cons, String.eqb_refl.
  destruct Hs as [Hs | [Hs | [Hs | []]]]; rewrite <- Hs; unfold increment;
    cbn -[Z.add]; f_equal; lia.
Qed.

Lemma other_topic_counts (c : Comment) (row : TopicRow) (t : string) (R : list Comment) :
  t <> topic c ->
  withCounts row t R = withCounts row t (c :: R).
Proof.
  intros Hne. unfold withCounts. rewrite !topicCount_cons.
  destruct (String.eqb_spec (topic c) t) as [E | _]; [congruence |].
  cbn -[Z.add]. f_equal; lia.
Qed.

Lemma topics_keyed (R : list Comment) :
  forall (f : string -> TopicRow) (ks : list string),
    (forall c, In c R -> recognized (sentiment c)) ->
    NoDup ks ->
    (forall k, ~ In k ks -> f k = newTopicRow k) ->
    fold_left topicStep R (keyed f ks)
    = keyed (fun t => withCounts (f t) t R) (firstSeen ks (map topic R)).
Proof.
  induction R as [| c R IH]; intros f ks Hrec Hnd Hnew.
  - cbn. apply keyed_ext. intros k _. unfold withCounts, topicCount. cbn.
    destruct (f k). cbn. f_equal; lia.
  - cbn [fold_left map]. rewrite firstSeen_cons. unfold topicStep at 2.
    rewrite (step_keyed f ks (topic c) (newTopicRow (topic c))
               (increment (sentiment c)) Hnd (Hnew (topic c))).
    rewrite IH.
    + apply keyed_ext. intros k _.
      destruct (String.eqb_spec k (topic c)) as [-> | Hne].
      * apply increment_counts. apply Hrec. left. reflexivity.
      * apply other_topic_counts. exact Hne.
    + intros c' Hc'. apply Hrec. right. exact Hc'.
    + apply NoDup_seen_step, Hnd.
    + intros k Hk. destruct (String.eqb_spec k (topic c)) as [-> | Hne].
      * exfalso. apply Hk. destruct (existsb (String.eqb (topic c)) ks) eqn:E.
        -- apply existsb_eqb_string, E.
        -- apply in_or_app. right. left. reflexivity.
      * apply Hnew. intros H. apply Hk.
        destruct (existsb (String.eqb (topic c)) ks);
          [exact H | apply in_or_app; left; exact H].
Qed.

Lemma topics_from_nothing (R : list Comment) :
  (forall c, In c R -> recognized (sentiment c)) ->
  fold_left topicStep R [] = keyed (topicRowFor R) (firstSeen [] (map topic R)).
Proof.
  intros Hrec.
  change (@nil (string * TopicRow)) with (keyed newTopicRow []).
  rewrite topics_keyed; [| exact Hrec | constructor | reflexivity].
  apply keyed_ext. intros k _. reflexivity.
Qed.

Lemma rowTotal_topicRowFor (R : list Comment) (t : string) :
  (forall c, In c R -> recognized (sentiment c)) ->
  rowTotal (topicRowFor R t)
  = Z.of_nat (List.length (filter (fun c => (topic c =? t)%string) R)).
Proof.
  unfold rowTotal, topicRowFor. cbn.
  induction R as [| c R IH]; intros Hrec; [reflexivity |].
  rewrite !topicCount_cons. cbn [filter].
  assert (IH' := IH (fun c' Hc' => Hrec c' (or_intror Hc'))). clear IH.
  destruct (Hrec c (or_introl eq_refl)) as [Hs | [Hs | [Hs | []]]]; rewrite <- Hs;
    destruct (topic c =? t)%string; cbn -[Z.add Z.of_nat topicCount]; lia.
Qed.

End Topics.

(** X17.  For records whose sentiments are among positive, neutral and
    negative, [processTopicSentimentData] returns one row for each distinct
    topic, and the three counts of a row are the numbers of records with that
    topic and each sentiment. The rows come in the order in which the topics
    first occur, unless a topic is written like an array index; no row is
    empty, and the counts of all rows sum to the number of records. The
    statement is for topics that are not names inherited from
    [Object.prototype]. *)
Theorem topic_matrix {B : Builtins} (R : list Comment) :
  (forall c, In c R -> recognized (sentiment c)) ->
  (forall c, In c R -> inheritedKey (topic c) = false) ->
  let rows := processTopicSentimentData R in
  let topics := firstSeen [] (map topic R) in
  Permutation rows (map (topicRowFor R) topics)
  /\ NoDup topics
  /\ (forall t, In t topics <-> exists c, In c R /\ topic c = t)
  /\ ((forall c, In c R -> isArrayIndex (topic c) = false) ->
      rows = map (topicRowFor R) topics)
  /\ (forall row, In row rows -> 1 <= rowTotal row)
  /\ sumZ (map rowTotal rows) = Z.of_nat (List.length R).
Proof.
  intros Hrec _ rows topics. subst rows. unfold processTopicSentimentData.
  rewrite (topics_from_nothing R Hrec). fold topics.
  assert (Hnd : NoDup topics) by (apply firstSeen_NoDup; constructor).
  assert (Hin : forall t, In t topics <-> exists c, In c R /\ topic c = t).
  { intros t. unfold topics. rewrite firstSeen_In, in_map_iff. cbn [In].
    split; [intros [[] | (c & H1 & H2)]; exists c; auto
           | intros (c & H1 & H2); right; exists c; auto]. }
  assert (Hperm : Permutation (Object_values (keyed (topicRowFor R) topics))
                    (map (topicRowFor R) topics)).
  { unfold Object_values. rewrite <- map_snd_keyed.
    apply Permutation_map, Object_entries_perm. }
  split; [exact Hperm |]. split; [exact Hnd |]. split; [exact Hin |].
  split; [| split].
  - intros Hplain. unfold Object_values.
    rewrite Object_entries_plain; [apply map_snd_keyed |].
    intros [k v] He. apply In_keyed in He as (Hk & _). cbn [fst].
    apply Hin in Hk as (c & Hc & <-). apply Hplain, Hc.
  - intros row Hrow. apply (Permutation_in _ Hperm) in Hrow.
    apply in_map_iff in Hrow as (t & <- & Ht).
    rewrite (rowTotal_topicRowFor R t Hrec).
    apply Hin in Ht as (c & Hc & <-).
    assert (H : In c (filter (fun c0 => (topic c0 =? topic c)%string) R)).
    { apply filter_In. split; [exact Hc | apply String.eqb_refl]. }
    destruct (filter (fun c0 => (topic c0 =? topic c)%string) R); [destruct H |].
    cbn [List.length]. lia.
  - rewrite (sumZ_perm _ _ (Permutation_map rowTotal Hperm)), map_map.
    rewrite (map_ext _ (fun t => Z.of_nat (List.length
                                             (filter (fun c => (topic c =? t)%string) R))))
      by (intros t; apply rowTotal_topicRowFor, Hrec).
    apply (sum_by_key topic R topics Hnd).
    intros c Hc. apply Hin. exists c. auto.
Qed.

Lemma topic_matrix_witness :
  let R := [{| id := None; text := None; sentiment := "positive"; strength := "weak";
               topic := "Music"; timestamp := TsNumber 0; emojis := [] |};
            {| id := None; text := None; sentiment := "negative"; strength := "weak";
               topic := "General"; timestamp := TsNumber 0; emojis := [] |};
            {| id := None; text := None; sentiment := "positive"; strength := "weak";
               topic := "Music"; timestamp := TsNumber 0; emojis := [] |}] in
  (forall c, In c R -> recognized (sentiment c))
  /\ (forall c, In c R -> inheritedKey (topic c) = false)
  /\ (forall c, In c R -> isArrayIndex (topic c) = false)
  /\ processTopicSentimentData (B := sampleBuiltins) R
     = [{| t_topic := Named "Music"; t_positive := 2; t_neutral := 0; t_negative := 0;
           t_others := [] |};
        {| t_topic := Named "General"; t_positive := 0; t_neutral := 0; t_negative := 1;
           t_others := [] |}]
  /\ sumZ (map rowTotal (processTopicSentimentData (B := sampleBuiltins) R)) = 3.
Proof.
  intros R.
  assert (H1 : forall c, In c R -> recognized (sentiment c)).
  { intros c [<- | [<- | [<- | []]]]; unfold recognized; cbn; tauto. }
  assert (H2 : forall c, In c R -> inheritedKey (topic c) = false).
  { intros c [<- | [<- | [<- | []]]]; reflexivity. }
  assert (H3 : forall c, In c R -> isArrayIndex (topic c) = false).
  { intros c [<- | [<- | [<- | []]]]; reflexivity. }
  split; [exact H1 |]. split; [exact H2 |]. split; [exact H3 |].
  destruct (topic_matrix (B := sampleBuiltins) R H1 H2) as (_ & _ & _ & Hrows & _ & Hsum).
  split; [rewrite (Hrows H3); reflexivity | exact Hsum].
Defined.

(** *** Rankings: the emojis and the word cloud *)

Lemma NoDup_firstn_of {A} (n : nat) (l : list A) : NoDup l -> NoDup (firstn n l).
Proof.
  intros H. rewrite <- (firstn_skipn n l) in H. apply NoDup_app_remove_r in H. exact H.
Qed.

Lemma sorted_app_inv {A} (le : A -> A -> Prop) (a b : list A) :
  StronglySorted le (a ++ b) ->
  StronglySorted le a /\ forall x y, In x a -> In y b -> le x y.
Proof.
  induction a as [| h a IH]; cbn; intros H.
  - split; [constructor | intros x y []].
  - inversion H as [| ? ? Hs Hh]; subst. destruct (IH Hs) as [Ha Hab].
    rewrite Forall_forall in Hh. split.
    + constructor; [exact Ha |]. rewrite Forall_forall. intros x Hx.
      apply Hh, in_or_app. left. exact Hx.
    + intros x y [<- | Hx] Hy; [apply Hh, in_or_app; right; exact Hy | apply Hab; assumption].
Qed.

Lemma sorted_firstn {A} (le : A -> A -> Prop) (n : nat) (l : list A) :
  StronglySorted le l -> StronglySorted le (firstn n l).
Proof.
  intros H. rewrite <- (firstn_skipn n l) in H. apply sorted_app_inv in H. tauto.
Qed.

Lemma firstn_all_or_full {A} (n : nat) (l : list A) (x : A) :
  In x l -> ~ In x (firstn n l) -> List.length (firstn n l) = n /\ In x (skipn n l).
Proof.
  intros Hin Hout. rewrite <- (firstn_skipn n l) in Hin.
  apply in_app_or in Hin as [H | H]; [contradiction |].
  split; [| exact H].
  apply firstn_length_le.
  destruct (Nat.le_gt_cases n (List.length l)) as [Hle | Hgt]; [exact Hle |].
  rewrite skipn_all2 in H by lia. destruct H.
Qed.

(** The first [n] entries of a tally in descending order of the counts. *)
Lemma ranking (n : nat) (l : list string) :
  let top := firstn n (sortedWords (fold_left countEmoji l [])) in
  (List.length top <= n)%nat
  /\ NoDup (map fst top)
  /\ (forall k c, In (k, c) top -> In k l /\ c = occurrences k l)
  /\ StronglySorted (fun a b : string * Z => snd b <= snd a) top
  /\ (forall k, In k l -> ~ In k (map fst top) ->
                List.length top = n
                /\ forall k' c', In (k', c') top -> occurrences k l <= c').
Proof.
  intros top. subst top. rewrite tally_from_nothing.
  set (counts := keyed (fun k => occurrences k l) (firstSeen [] l)).
  pose proof (sortedWords_perm counts) as Hperm.
  pose proof (sortedWords_sorted counts) as Hsorted.
  set (sorted := sortedWords counts) in *.
  assert (Hkeys : NoDup (map fst sorted)).
  { apply (Permutation_NoDup (Permutation_sym (Permutation_map fst Hperm))).
    unfold counts. rewrite map_fst_keyed. apply firstSeen_NoDup. constructor. }
  assert (Hentry : forall k c, In (k, c) sorted -> In k l /\ c = occurrences k l).
  { intros k c H. apply (Permutation_in _ Hperm) in H.
    apply In_keyed in H as (Hk & ->). split; [| reflexivity].
    apply firstSeen_In in Hk as [[] | Hk]. exact Hk. }
  split; [apply firstn_le_length |].
  split; [rewrite <- firstn_map; apply NoDup_firstn_of, Hkeys |].
  split; [intros k c H; apply Hentry, (In_firstn n), H |].
  split; [apply sorted_firstn, Hsorted |].
  intros k Hk Hout.
  assert (Hin : In (k, occurrences k l) sorted).
  { apply (Permutation_in _ (Permutation_sym Hperm)). apply In_keyed.
    split; [apply firstSeen_In; right; exact Hk | reflexivity]. }
  assert (Hnot : ~ In (k, occurrences k l) (firstn n sorted)).
  { intros H. apply Hout. apply (in_map fst) in H. exact H. }
  destruct (firstn_all_or_full n sorted _ Hin Hnot) as [Hlen Hrest].
  split; [exact Hlen |].
  intros k' c' H'.
  rewrite <- (firstn_skipn n sorted) in Hsorted.
  apply sorted_app_inv in Hsorted as [_ Hle].
  exact (Hle _ _ H' Hrest).
Qed.

Lemma emojiCounts_flat (R : list Comment) :
  emojiCounts R = fold_left countEmoji (allEmojis R) [].
Proof.
  unfold emojiCounts, allEmojis. generalize (@nil (string * Z)) as m.
  induction R as [| c R IH]; intros m; [reflexivity |].
  cbn [fold_left flat_map]. rewrite fold_left_app. apply IH.
Qed.

(** X18.  [processEmojiData] returns at most six entries, for six different
    emojis, in descending order of their counts; the count of an entry is the
    number of occurrences of the emoji in the records; and an emoji that
    occurs but is not returned is left out because six others occur at least
    as often. The statement is for emojis that are not names inherited from
    [Object.prototype]. *)
Theorem emoji_ranking (R : list Comment) :
  (forall c e, In c R -> In e (emojis c) -> inheritedKey e = false) ->
  let top := processEmojiData R in
  (List.length top <= 6)%nat
  /\ NoDup (map fst top)
  /\ (forall e n, In (e, n) top ->
                  In e (allEmojis R) /\ n = occurrences e (allEmojis R))
  /\ StronglySorted (fun a b : string * Z => snd b <= snd a) top
  /\ (forall e, In e (allEmojis R) -> ~ In e (map fst top) ->
                List.length top = 6%nat
                /\ forall e' n', In (e', n') top -> occurrences e (allEmojis R) <= n').
Proof.
  intros _ top. subst top. unfold processEmojiData. rewrite emojiCounts_flat.
  exact (ranking 6 (allEmojis R)).
Qed.

Lemma emoji_ranking_witness :
  let R := [{| id := None; text := None; sentiment := "positive"; strength := "weak";
               topic := "General"; timestamp := TsNumber 0; emojis := [":)"; "<3"] |};
            {| id := None; text := None; sentiment := "positive"; strength := "weak";
               topic := "General"; timestamp := TsNumber 0; emojis := ["<3"] |}] in
  (forall c e, In c R -> In e (emojis c) -> inheritedKey e = false)
  /\ processEmojiData R = [("<3", 2); (":)", 1)]
  /\ (List.length (processEmojiData R) <= 6)%nat
  /\ NoDup (map fst (processEmojiData R)).
Proof.
  intros R.
  assert (H : forall c e, In c R -> In e (emojis c) -> inheritedKey e = false).
  { intros c e [<- | [<- | []]]; cbn; intros He;
      repeat (destruct He as [<- | He]; [reflexivity |]); destruct He. }
  split; [exact H |]. split; [reflexivity |].
  destruct (emoji_ranking R H) as (H1 & H2 & _).
  split; [exact H1 | exact H2].
Defined.

Lemma fold_countWord (l : list string) :
  forall m, fold_left countWord l m = fold_left countEmoji (filter keepsWord l) m.
Proof.
  induction l as [| w l IH]; intros m; [reflexivity |].
  cbn [fold_left filter]. unfold countWord at 2, keepsWord at 1.
  destruct ((2 <? String.length w)%nat && negb (isStopWord w)); cbn [fold_left]; apply IH.
Qed.

Lemma wordCounts_tally (texts : list string) :
  wordCounts texts = fold_left countEmoji (filter keepsWord (tokens texts)) [].
Proof. unfold wordCounts. apply fold_countWord. Qed.

Lemma map_word_mapi {A} (f : nat -> A -> Word) (g : A -> string) (l : list A) :
  (forall i x, word (f i x) = g x) ->
  forall i, map word (mapi f i l) = map g l.
Proof.
  intros H. induction l as [| x l IH]; intros i; [reflexivity |].
  cbn. rewrite H, IH. reflexivity.
Qed.

Lemma length_mapi {A B} (f : nat -> A -> B) (l : list A) :
  forall i, List.length (mapi f i l) = List.length l.
Proof. induction l as [| x l IH]; intros i; cbn; [reflexivity | rewrite IH; reflexivity]. Qed.

Lemma sorted_mapi {A B} (le : A -> A -> Prop) (le' : B -> B -> Prop)
    (f : nat -> A -> B) (l : list A) :
  (forall i j x y, In x l -> In y l -> le x y -> le' (f i x) (f j y)) ->
  StronglySorted le l ->
  forall i, StronglySorted le' (mapi f i l).
Proof.
  intros Hf Hs. induction Hs as [| x l Hl IH Hx]; intros i; cbn; [constructor |].
  constructor.
  - apply IH. intros i' j' a b Ha Hb. apply Hf; right; assumption.
  - rewrite Forall_forall in *. intros y Hy.
    apply In_mapi in Hy as (j & b & Hb & ->).
    apply Hf; [left; reflexivity | right; exact Hb | apply Hx, Hb].
Qed.

(** X19.  The word cloud holds at most thirty words, all different, in
    descending order of their sizes; each of them is a word of the cleaned
    texts that is longer than two characters and is not a stop word; and a
    word that passes this filter is missing only when the cloud is full. The
    statement is for ASCII texts none of whose words is a name inherited from
    [Object.prototype]. *)
Theorem cloud_words (random : nat -> Q) (R : list Comment) (texts : list string) :
  (forall c t, In c R -> text c = Some t -> asciiText t = true) ->
  cleanTexts R = Some texts ->
  (forall k, In k (tokens texts) -> inheritedName k = false) ->
  let cloud := processWordCloudData random R in
  (List.length cloud <= 30)%nat
  /\ NoDup (map word cloud)
  /\ (forall w, In w cloud ->
                In (word w) (tokens texts)
                /\ (2 < String.length (word w))%nat
                /\ isStopWord (word w) = false)
  /\ StronglySorted (fun a b : Word => Num_le (size b) (size a)) cloud
  /\ (forall k, In k (tokens texts) -> keepsWord k = true ->
                ~ In k (map word cloud) -> List.length cloud = 30%nat).
Proof.
  intros _ Htexts _ cloud. subst cloud. unfold processWordCloudData, cloudOf. rewrite Htexts.
  rewrite wordCounts_tally.
  set (kept := filter keepsWord (tokens texts)).
  destruct (ranking 30 kept) as (Hlen & Hnd & Hin & Hsorted & Hfull).
  pose proof (sortedWords_range (fold_left countEmoji kept [])) as Hrange.
  set (sorted := sortedWords (fold_left countEmoji kept [])) in *.
  set (mx := match sorted with e :: _ => snd e | [] => 1 end).
  set (mn := match sorted with
             | _ :: _ => snd (last sorted (EmptyString, 1))
             | [] => 1
             end).
  cbv zeta.
  set (f := fun (i : nat) (e : string * Z) =>
              {| word := fst e; size := scale mx mn (snd e);
                 rotation := if Qle_bool (random i) (7 # 10) then 0 else -90 |}).
  assert (Hwords : map word (mapi f 0 (firstn 30 sorted)) = map fst (firstn 30 sorted))
    by (apply map_word_mapi; reflexivity).
  assert (Hm : forall e, In e sorted -> mn <= snd e <= mx).
  { subst mn mx. destruct sorted as [| h t] eqn:Es; [intros e [] |].
    apply (Hrange h t eq_refl). }
  split; [rewrite length_mapi; exact Hlen |].
  split; [rewrite Hwords; exact Hnd |].
  split; [| split].
  - intros w Hw. apply In_mapi in Hw as (i & [k c] & He & ->). cbn [word f fst].
    apply Hin in He as (Hk & _). unfold kept in Hk. apply filter_In in Hk as (Hk & Hkeep).
    unfold keepsWord in Hkeep. apply andb_true_iff in Hkeep as (H1 & H2).
    apply Nat.ltb_lt in H1. apply negb_true_iff in H2. auto.
  - apply (sorted_mapi (fun a b : string * Z => snd b <= snd a)); [| exact Hsorted].
    intros i j x y Hx Hy Hxy. cbn [size f].
    apply In_firstn in Hx. apply In_firstn in Hy.
    apply scale_monotone; [apply Hm, Hy | exact Hxy | apply Hm, Hx].
  - intros k Hk Hkeep Hout. rewrite length_mapi.
    apply (Hfull k); [apply filter_In; auto | rewrite <- Hwords; exact Hout].
Qed.

Lemma cloud_words_witness :
  let R := [{| id := Some "c"; text := Some "Love, love, LOVE (love)! Song song dance";
               sentiment := "positive"; strength := "weak"; topic := "General";
               timestamp := TsNumber 5; emojis := [] |}] in
  let texts := ["love love love love song song dance"] in
  (forall c t, In c R -> text c = Some t -> asciiText t = true)
  /\ cleanTexts R = Some texts
  /\ (forall k, In k (tokens texts) -> inheritedName k = false)
  /\ map word (processWordCloudData (fun _ => 0%Q) R) = ["love"; "song"; "dance"]
  /\ (List.length (processWordCloudData (fun _ => 0%Q) R) <= 30)%nat
  /\ NoDup (map word (processWordCloudData (fun _ => 0%Q) R))
  /\ StronglySorted (fun a b : Word => Num_le (size b) (size a))
       (processWordCloudData (fun _ => 0%Q) R).
Proof.
  intros R texts.
  assert (Ha : forall c t, In c R -> text c = Some t -> asciiText t = true).
  { intros c t [<- | []] [= <-]. reflexivity. }
  assert (H0 : cleanTexts R = Some texts) by reflexivity.
  assert (H1 : forall k, In k (tokens texts) -> inheritedName k = false).
  { intros k Hk. vm_compute in Hk.
    repeat (destruct Hk as [<- | Hk]; [reflexivity |]). destruct Hk. }
  split; [exact Ha |]. split; [exact H0 |]. split; [exact H1 |].
  split; [vm_compute; reflexivity |].
  destruct (cloud_words (fun _ => 0%Q) R texts Ha H0 H1) as (H2 & H3 & _ & H4 & _).
  split; [exact H2 |]. split; [exact H3 | exact H4].
Defined.

(** X20.  One record without a text empties the word cloud: [toLowerCase]
    throws on the missing text, the [catch] of [processWordCloudData] returns
    the empty array, and the words of the other records are lost with it. *)
Theorem missing_text_empties_the_cloud (random : nat -> Q) (R : list Comment)
    (c : Comment) :
  In c R -> text c = None -> processWordCloudData random R = [].
Proof.
  intros Hin Htext. unfold processWordCloudData.
  assert (H : cleanTexts R = None).
  { induction R as [| x R IH]; [destruct Hin |].
    cbn [cleanTexts]. destruct Hin as [-> | Hin].
    - rewrite Htext. reflexivity.
    - rewrite (IH Hin). destruct (text x); reflexivity. }
  rewrite H. reflexivity.
Qed.

Lemma missing_text_empties_the_cloud_witness :
  let c := {| id := Some "c2"; text := None; sentiment := "neutral"; strength := "weak";
              topic := "General"; timestamp := TsNumber 0; emojis := [] |} in
  let R := [comment "positive" "weak" (TsNumber 5); c] in
  In c R /\ text c = None
  /\ processWordCloudData (fun _ => 0%Q) R = []
  /\ processWordCloudData (fun _ => 0%Q) [comment "positive" "weak" (TsNumber 5)] <> [].
Proof.
  intros c R.
  assert (H0 : In c R) by (right; left; reflexivity).
  assert (H1 : text c = None) by reflexivity.
  split; [exact H0 |]. split; [exact H1 |].
  split; [exact (missing_text_empties_the_cloud (fun _ => 0%Q) R c H0 H1) | discriminate].
Defined.

(** *** formatTime *)

Lemma padStart2_twoDigits (r : Z) :
  0 <= r < 100 -> padStart2 (showZ r) = twoDigits r /\ String.length (twoDigits r) = 2%nat.
Proof.
  intros Hr.
  assert (H : forall n : nat, (n < 100)%nat ->
                padStart2 (showZ (Z.of_nat n)) = twoDigits (Z.of_nat n)
                /\ String.length (twoDigits (Z.of_nat n)) = 2%nat).
  { intros n Hn. do 100 (destruct n as [| n]; [split; reflexivity |]). lia. }
  rewrite <- (Z2Nat.id r) by lia. apply H. lia.
Qed.

Lemma date_of_seconds (q : Q) :
  (0 <= q)%Q -> (q < 1000000000000)%Q ->
  newDate (toMillis q) = Some (Qfloor (q * 1000)).
Proof.
  intros H0 H1. unfold toMillis.
  replace (Qle_bool 1000000000000 q) with false
    by (symmetry; apply not_true_is_false; rewrite Qle_bool_iff; lra).
  unfold newDate.
  replace (Qle_bool (Qabs (q * 1000)) 8640000000000000) with true
    by (symmetry; apply Qle_bool_iff; rewrite Qabs_pos by lra; lra).
  unfold Qtrunc.
  replace (Qle_bool 0 (q * 1000)) with true
    by (symmetry; apply Qle_bool_iff; lra).
  reflexivity.
Qed.

(** X21.  A timestamp of [q] seconds, positive and below [1e12], is shown as
    the whole minutes, a colon and the remaining seconds on two digits. The
    minutes are not reduced to hours: they are all the minutes since the
    origin of the timestamps. *)
Theorem formatTime_of_seconds {B : Builtins} (q : Q) :
  (0 < q)%Q -> (q < 1000000000000)%Q ->
  formatTime (TsNumber q)
  = showZ (Qfloor q / 60) ++ ":" ++ twoDigits (Qfloor q mod 60)
  /\ String.length (twoDigits (Qfloor q mod 60)) = 2%nat
  /\ 0 <= Qfloor q / 60.
Proof.
  intros H0 H1. unfold formatTime, toDateFromAny. cbn [falsyTimestamp].
  replace (Qeq_bool q 0) with false
    by (symmetry; apply not_true_is_false; rewrite Qeq_bool_iff; lra).
  rewrite date_of_seconds by lra.
  change (1000%Q) with (inject_Z 1000). rewrite Qfloor_scaled by lia.
  assert (Hs : 0 <= Qfloor q).
  { change 0 with (Qfloor 0). apply Qfloor_resp_le. lra. }
  rewrite Z.rem_mod_nonneg by lia.
  pose proof (Z.mod_pos_bound (Qfloor q) 60 ltac:(lia)) as Hm.
  destruct (padStart2_twoDigits (Qfloor q mod 60) ltac:(lia)) as [-> Hl].
  split; [reflexivity |]. split; [exact Hl |].
  apply Z.div_pos; lia.
Qed.

Lemma formatTime_of_seconds_witness :
  (0 < 3725)%Q /\ (3725 < 1000000000000)%Q
  /\ formatTime (B := sampleBuiltins) (TsNumber 3725) = "62:05".
Proof.
  assert (H0 : (0 < 3725)%Q) by reflexivity.
  assert (H1 : (3725 < 1000000000000)%Q) by reflexivity.
  split; [exact H0 |]. split; [exact H1 |].
  exact (proj1 (formatTime_of_seconds (B := sampleBuiltins) 3725 H0 H1)).
Defined.

(** *** updateCommentsData *)

Lemma lowerAscii_idempotent (c : ascii) : lowerAscii (lowerAscii c) = lowerAscii c.
Proof. destruct c as [[] [] [] [] [] [] [] []]; reflexivity. Qed.

Lemma toLowerCase_idempotent (s : string) : toLowerCase (toLowerCase s) = toLowerCase s.
Proof.
  induction s as [| c s IH]; [reflexivity |].
  cbn. rewrite lowerAscii_idempotent, IH. reflexivity.
Qed.

Lemma orElse_lower (s d : string) :
  d <> "" -> toLowerCase d = d ->
  orElse (toLowerCase s) d <> ""
  /\ toLowerCase (orElse (toLowerCase s) d) = orElse (toLowerCase s) d.
Proof.
  intros Hd Hl. unfold orElse.
  destruct (String.eqb_spec (toLowerCase s) "") as [E | E].
  - split; assumption.
  - split; [exact E | apply toLowerCase_idempotent].
Qed.

Lemma normalize_normalized (p : Prediction) : normalized (normalize p).
Proof.
  unfold normalized, normalize. cbn [sentiment strength topic timestamp].
  assert (Hs : forall (o : option string) (d : string),
             d <> "" -> toLowerCase d = d ->
             match o with Some s => orElse (toLowerCase s) d | None => d end <> ""
             /\ toLowerCase match o with Some s => orElse (toLowerCase s) d | None => d end
                = match o with Some s => orElse (toLowerCase s) d | None => d end).
  { intros [s |] d Hd Hl; [apply orElse_lower; assumption | split; assumption]. }
  destruct (Hs (p_sentiment p) "neutral") as [H1 H2]; [discriminate | reflexivity |].
  destruct (Hs (p_sentimentStrength p) "weak") as [H3 H4]; [discriminate | reflexivity |].
  split; [exact H1 |]. split; [exact H3 |].
  split; [| split; [exact H2 | split; [exact H4 |]]].
  - destruct (p_topic p) as [t |]; [| discriminate].
    unfold orElse. destruct (String.eqb_spec t "") as [E | E]; [discriminate | exact E].
  - destruct (p_timestamp p) as [ts |]; [| reflexivity].
    destruct (falsyTimestamp ts) eqn:E; [reflexivity |].
    intros H. rewrite E in H. discriminate.
Qed.

(** X22.  [updateCommentsData] keeps the records normalized: after any update,
    every record has a sentiment and a strength that are not empty and are in
    lower case, a topic that is not empty, and a timestamp that is 0 whenever
    it is falsy. An update with predictions replaces the records by one record
    for each prediction, in order; an update without predictions leaves the
    records as they were. *)
Theorem update_keeps_records_normalized (predictions : list Prediction)
    (commentsData : list Comment) :
  Forall normalized commentsData ->
  let updated := updateCommentsData predictions commentsData in
  Forall normalized updated
  /\ (predictions <> [] -> map id updated = map p_id predictions
                           /\ map text updated = map p_text predictions)
  /\ (predictions = [] -> updated = commentsData).
Proof.
  intros Hold updated. subst updated. unfold updateCommentsData.
  destruct predictions as [| p ps].
  - split; [exact Hold |]. split; [intros H; contradiction | reflexivity].
  - split; [| split; [| discriminate]].
    + rewrite Forall_forall. intros c Hc.
      apply in_map_iff in Hc as (p' & <- & _). apply normalize_normalized.
    + intros _. rewrite !map_map. split; reflexivity.
Qed.

Lemma update_keeps_records_normalized_witness :
  let updated := updateCommentsData
                   [prediction (Some "Positive") None None;
                    prediction None (Some "STRONG") (Some (TsString ""))] [] in
  Forall normalized (@nil Comment)
  /\ Forall normalized updated
  /\ map sentiment updated = ["positive"; "neutral"]
  /\ map strength updated = ["weak"; "strong"]
  /\ map timestamp updated = [TsNumber 0; TsNumber 0].
Proof.
  intros updated.
  assert (H : Forall normalized (@nil Comment)) by constructor.
  split; [exact H |].
  split; [exact (proj1 (update_keeps_records_normalized
                          [prediction (Some "Positive") None None;
                           prediction None (Some "STRONG") (Some (TsString ""))] [] H)) |].
  repeat split.
Defined.

(** *** The overall sentiment *)

Lemma named_counts (R : list Comment) (s : string) :
  recognized s -> orZero (get s (getSentimentCounts R)) = countOf s R.
Proof.
  intros Hs. rewrite getSentimentCounts_keyed, get_keyed.
  assert (Hin : In s (firstSeen ["positive"; "neutral"; "negative"] (map sentiment R)))
    by (apply firstSeen_In; left; exact Hs).
  apply existsb_eqb_string in Hin. rewrite Hin. reflexivity.
Qed.

Lemma entries_of_percentages (a b c : Num) :
  Object_entries [("Positive", a); ("Neutral", b); ("Negative", c)]
  = [("Positive", a); ("Neutral", b); ("Negative", c)].
Proof. reflexivity. Qed.

(** The percentage of a count within the total, as it is printed. *)
Lemma tenths_spec (c T : Z) :
  0 <= c <= T -> 0 < T ->
  exists q,
    percent c T = Finite q
    /\ fixedTenths q = tenths c T
    /\ toFixed1 (Finite q) = fixed1 (tenths c T)
    /\ 0 <= tenths c T <= 1000
    /\ (Qabs (inject_Z (tenths c T) - inject_Z c / inject_Z T * 1000)
        <= (1 # 2) + (1 # 1000000000000))%Q.
Proof.
  intros Hc HT.
  destruct (printed_percent c T Hc HT) as (q & E & H0 & Hs & Hr & Ha).
  assert (Et : tenths c T = tenthsOf q).
  { unfold tenths. rewrite E. unfold fixedTenths.
    apply Qle_bool_iff in H0. rewrite H0. reflexivity. }
  exists q. rewrite Et. split; [exact E |].
  split; [unfold fixedTenths; apply Qle_bool_iff in H0; rewrite H0; reflexivity |].
  split; [rewrite <- E; exact Hs |]. split; [exact Hr | exact Ha].
Qed.

(** A count that is a third of the total or more is printed as 33.3 or
    more. *)
Lemma tenths_of_a_third (c T : Z) :
  0 <= c <= T -> 0 < T -> T <= 3 * c -> 333 <= tenths c T.
Proof.
  intros Hc HT H3.
  destruct (tenths_spec c T Hc HT) as (q & _ & _ & _ & _ & Ha).
  assert (HT' : (0 < inject_Z T)%Q) by (unfold Qlt; cbn; lia).
  assert (H : ((1 # 3) <= inject_Z c / inject_Z T)%Q).
  { apply Qle_shift_div_l; [exact HT' |].
    unfold Qle, Qmult, inject_Z. cbn [Qnum Qden Pos.mul]. lia. }
  assert (Hlt : (inject_Z 332 < inject_Z (tenths c T))%Q).
  { change (inject_Z 332) with 332%Q.
    revert Ha H. generalize (inject_Z (tenths c T)) (inject_Z c / inject_Z T)%Q.
    intros t r. apply Qabs_case; intros; lra. }
  rewrite <- Zlt_Qlt in Hlt. lia.
Qed.

(** The entry of the count [d], printed as [t] tenths, is the dominant
    one: the facts about it follow from the comparisons in the context. *)
Ltac dominant d t Hfall Hall :=
  eexists _, d; split; [reflexivity |];
  cbn [o_total positivePct neutralPct negativePct dominantSentiment dominantValue
       trendSymbol];
  destruct (Hfall t) as [Hf1 Hf2]; [lia |];
  repeat split; try assumption; try lia; try (apply Hall; cbn; tauto);
  try (cbn; tauto); try (intros; discriminate); try (intros; lia).

(** X23.  What the overall chart shows. Nothing is drawn when no record has
    one of the three sentiments. Otherwise each percentage is printed as the
    numeral with one decimal nearest to it, up to the rounding of the doubles;
    the dominant sentiment is the first of Positive, Neutral and Negative
    whose numeral is the largest; that numeral is at least 33.3, so the trend
    is the arrow up from 60.0 on and the two-sided arrow below: the branch of
    the arrow down is never taken. The statement is for records none of whose
    sentiments is a name inherited from [Object.prototype]. *)
Theorem overall_sentiment_summary (R : list Comment) :
  (forall c, In c R -> inheritedKey (sentiment c) = false) ->
  let p := countOf "positive" R in
  let n := countOf "neutral" R in
  let g := countOf "negative" R in
  let total := p + n + g in
  (total = 0 -> renderOverallSentimentChart R = None)
  /\ (total <> 0 ->
      exists o d,
        renderOverallSentimentChart R = Some o
        /\ o_total o = total
        /\ positivePct o = fixed1 (tenths p total)
        /\ neutralPct o = fixed1 (tenths n total)
        /\ negativePct o = fixed1 (tenths g total)
        /\ (forall c, In c [p; n; g] ->
              0 <= tenths c total <= 1000
              /\ (Qabs (inject_Z (tenths c total) - inject_Z c / inject_Z total * 1000)
                  <= (1 # 2) + (1 # 1000000000000))%Q)
        /\ In (dominantSentiment o, d) [("Positive", p); ("Neutral", n); ("Negative", g)]
        /\ dominantValue o = fixed1 (tenths d total)
        /\ tenths p total <= tenths d total
        /\ tenths n total <= tenths d total
        /\ tenths g total <= tenths d total
        /\ (tenths p total = tenths d total -> dominantSentiment o = "Positive")
        /\ (dominantSentiment o = "Negative" -> tenths n total < tenths g total)
        /\ 333 <= tenths d total
        /\ trendSymbol o = (if 600 <=? tenths d total then Rising else Steady)
        /\ trendSymbol o <> Falling).
Proof.
  intros _ p n g total.
  unfold renderOverallSentimentChart.
  rewrite !named_counts by (unfold recognized; cbn; tauto).
  fold p n g. fold total. cbv zeta.
  rewrite entries_of_percentages.
  assert (Hp : 0 <= p) by (unfold p, countOf; lia).
  assert (Hn : 0 <= n) by (unfold n, countOf; lia).
  assert (Hg : 0 <= g) by (unfold g, countOf; lia).
  split.
  - intros H0. apply Z.eqb_eq in H0. rewrite H0. reflexivity.
  - intros Hne. apply Z.eqb_neq in Hne. rewrite Hne.
    assert (HT : 0 < total) by (apply Z.eqb_neq in Hne; unfold total in *; lia).
    destruct (tenths_spec p total) as (qp & Ep & Tp & Fp & Rp & Ap);
      [unfold total; lia | exact HT |].
    destruct (tenths_spec n total) as (qn & En & Tn & Fn & Rn & An);
      [unfold total; lia | exact HT |].
    destruct (tenths_spec g total) as (qg & Eg & Tg & Fg & Rg & Ag);
      [unfold total; lia | exact HT |].
    assert (Hall : forall c, In c [p; n; g] ->
              0 <= tenths c total <= 1000
              /\ (Qabs (inject_Z (tenths c total) - inject_Z c / inject_Z total * 1000)
                  <= (1 # 2) + (1 # 1000000000000))%Q).
    { intros c [<- | [<- | [<- | []]]]; split; assumption. }
    assert (Hthird : 333 <= tenths p total \/ 333 <= tenths n total
                     \/ 333 <= tenths g total).
    { destruct (Z_le_gt_dec total (3 * p)) as [H | H];
        [left; apply tenths_of_a_third; unfold total in *; lia |].
      destruct (Z_le_gt_dec total (3 * n)) as [H' | H'];
        [right; left; apply tenths_of_a_third; unfold total in *; lia |].
      right; right. apply tenths_of_a_third; unfold total in *; lia. }
    rewrite Ep, En, Eg.
    cbn [sortBy fold_right insertBy snd compareFixed fixedGe fixedLe].
    rewrite ?Fp, ?Fn, ?Fg, ?Tp, ?Tn, ?Tg.
    set (tp := tenths p total) in *. set (tn := tenths n total) in *.
    set (tg := tenths g total) in *.
    assert (Hfall : forall t : Z, 333 <= t ->
              (if 600 <=? t then Rising
               else if t <=? 300 then Falling else Steady)
              = (if 600 <=? t then Rising else Steady)
              /\ (if 600 <=? t then Rising
                  else if t <=? 300 then Falling else Steady) <> Falling).
    { intros t Ht. destruct (600 <=? t); [split; [reflexivity | discriminate] |].
      destruct (Z.leb_spec t 300); [lia | split; [reflexivity | discriminate]]. }
    destruct (Z.leb_spec (tg - tn) 0) as [H1 | H1];
      cbn [insertBy snd compareFixed fixedGe fixedLe];
      rewrite ?Fp, ?Fn, ?Fg, ?Tp, ?Tn, ?Tg; fold tp tn tg.
    + destruct (Z.leb_spec (tn - tp) 0) as [H2 | H2];
        cbn [fixedGe fixedLe]; rewrite ?Fp, ?Fn, ?Fg, ?Tp, ?Tn, ?Tg; fold tp tn tg.
      * dominant p tp Hfall Hall.
      * dominant n tn Hfall Hall.
    + destruct (Z.leb_spec (tg - tp) 0) as [H2 | H2];
        cbn [fixedGe fixedLe]; rewrite ?Fp, ?Fn, ?Fg, ?Tp, ?Tn, ?Tg; fold tp tn tg.
      * dominant p tp Hfall Hall.
      * dominant g tg Hfall Hall.
Qed.

Lemma overall_sentiment_summary_witness :
  let R := (repeat (comment "positive" "weak" (TsNumber 5)) 689
            ++ repeat (comment "neutral" "weak" (TsNumber 6)) 621
            ++ repeat (comment "negative" "strong" (TsNumber 7)) 690)%list in
  (forall c, In c R -> inheritedKey (sentiment c) = false)
  /\ countOf "positive" R + countOf "neutral" R + countOf "negative" R <> 0
  /\ exists o,
       renderOverallSentimentChart R = Some o
       /\ positivePct o = "34.4"
       /\ negativePct o = "34.5"
       /\ dominantSentiment o = "Negative"
       /\ dominantValue o = "34.5"
       /\ trendSymbol o <> Falling.
Proof.
  intros R.
  assert (H : forall c, In c R -> inheritedKey (sentiment c) = false).
  { intros c Hc. unfold R in Hc.
    apply in_app_or in Hc as [Hc | Hc]; [| apply in_app_or in Hc as [Hc | Hc]];
      apply repeat_spec in Hc; subst c; reflexivity. }
  assert (Hne : countOf "positive" R + countOf "neutral" R + countOf "negative" R <> 0)
    by (vm_compute; discriminate).
  split; [exact H |]. split; [exact Hne |].
  destruct (proj2 (overall_sentiment_summary R H) Hne) as (o & d & Ho & Hrest).
  exists o. split; [exact Ho |].
  assert (E : renderOverallSentimentChart R
              = Some {| o_total := 2000; positivePct := "34.4"; neutralPct := "31.1";
                        negativePct := "34.5"; dominantSentiment := "Negative";
                        dominantValue := "34.5"; trendSymbol := Steady |})
    by (vm_compute; reflexivity).
  rewrite E in Ho. injection Ho as <-.
  repeat split. discriminate.
Defined.

(** *** The words of the cloud, character by character *)

Lemma allChars_app (p : ascii -> bool) (a b : string) :
  allChars p (a ++ b) = allChars p a && allChars p b.
Proof.
  induction a as [| c a IH]; [reflexivity |].
  cbn [append allChars]. rewrite IH, andb_assoc. reflexivity.
Qed.

Lemma toLowerCase_fixed (s : string) :
  allChars (fun c => Ascii.eqb (lowerAscii c) c) (toLowerCase s) = true.
Proof.
  induction s as [| c s IH]; [reflexivity |].
  cbn [toLowerCase allChars]. rewrite lowerAscii_idempotent, Ascii.eqb_refl. exact IH.
Qed.

Lemma stripPunctuation_plain (s : string) :
  allChars (fun c => Ascii.eqb (lowerAscii c) c) s = true ->
  allChars plainChar (stripPunctuation s) = true.
Proof.
  induction s as [| c s IH]; [reflexivity |].
  cbn [allChars stripPunctuation]. intros H. apply andb_true_iff in H as [Hc Hs].
  destruct (isPunctuation c) eqn:E; [apply IH, Hs |].
  cbn [allChars]. unfold plainChar at 1. rewrite E, Hc. cbn [negb andb]. apply IH, Hs.
Qed.

Lemma cleanTexts_plain (R : list Comment) :
  forall texts, cleanTexts R = Some texts -> Forall (fun t => allChars plainChar t = true) texts.
Proof.
  induction R as [| c R IH]; intros texts; cbn [cleanTexts].
  - intros [= <-]. constructor.
  - destruct (text c) as [t |]; [| discriminate].
    destruct (cleanTexts R) as [ts |]; [| discriminate].
    intros [= <-]. constructor; [| apply IH; reflexivity].
    apply stripPunctuation_plain, toLowerCase_fixed.
Qed.

Lemma join_plain (texts : list string) :
  Forall (fun t => allChars plainChar t = true) texts ->
  allChars plainChar (join " " texts) = true.
Proof.
  unfold join. destruct texts as [| x r]; [reflexivity |].
  intros H. inversion H as [| ? ? Hx Hr]; subst. clear H.
  revert x Hx. induction Hr as [| y r Hy Hr IH]; intros x Hx; [exact Hx |].
  cbn [fold_left]. apply IH.
  rewrite !allChars_app, Hx, Hy. reflexivity.
Qed.

Lemma splitSpaces_words (s : string) :
  forall cur afterSpace,
    allChars plainChar s = true ->
    allChars wordChar cur = true ->
    Forall (fun k => allChars wordChar k = true) (splitSpaces s cur afterSpace).
Proof.
  induction s as [| c s IH]; intros cur afterSpace Hs Hcur; cbn [splitSpaces].
  - repeat constructor. exact Hcur.
  - cbn [allChars] in Hs. apply andb_true_iff in Hs as [Hc Hs].
    destruct (isSpace c) eqn:E.
    + destruct afterSpace; [apply IH; assumption |].
      constructor; [exact Hcur | apply IH; [exact Hs | reflexivity]].
    + apply IH; [exact Hs |].
      rewrite allChars_app, Hcur. cbn [allChars andb]. unfold wordChar.
      rewrite E, Hc. reflexivity.
Qed.

(** X24.  Every word of the cloud is made of characters that are not spaces,
    are none of the punctuation marks that [replace] removes, and are left
    unchanged by [toLowerCase]: no capital letter, no full stop, comma,
    exclamation or question mark, quote, parenthesis or slash. *)
Theorem cloud_words_are_clean (random : nat -> Q) (R : list Comment) (w : Word) :
  In w (processWordCloudData random R) ->
  allChars wordChar (word w) = true.
Proof.
  unfold processWordCloudData, cloudOf.
  destruct (cleanTexts R) as [texts |] eqn:Htexts; [| intros []].
  cbv zeta. intros Hw.
  apply In_mapi in Hw as (i & [k c] & He & ->). cbn [word fst].
  apply In_firstn in He.
  apply (Permutation_in _ (sortedWords_perm _)) in He.
  rewrite wordCounts_tally, tally_from_nothing in He.
  apply In_keyed in He as (Hk & _).
  apply firstSeen_In in Hk as [[] | Hk].
  apply filter_In in Hk as (Hk & _).
  pose proof (splitSpaces_words (join " " texts) EmptyString false
                (join_plain _ (cleanTexts_plain _ _ Htexts)) eq_refl) as Hall.
  rewrite Forall_forall in Hall. apply Hall, Hk.
Qed.

Lemma cloud_words_are_clean_witness :
  let R := [{| id := None; text := Some "Great SONG, (really)!"; sentiment := "positive";
               strength := "weak"; topic := "General"; timestamp := TsNumber 0;
               emojis := [] |}] in
  let w := {| word := "great"; size := 2; rotation := 0 |} in
  In w (processWordCloudData (fun _ => 0%Q) R)
  /\ map word (processWordCloudData (fun _ => 0%Q) R) = ["great"; "song"; "really"]
  /\ allChars wordChar (word w) = true.
Proof.
  intros R w.
  assert (H : In w (processWordCloudData (fun _ => 0%Q) R)) by (left; reflexivity).
  split; [exact H |]. split; [reflexivity |].
  exact (cloud_words_are_clean (fun _ => 0%Q) R w H).
Defined.

(** *** The titles of the timeline *)

Lemma slot_of_seconds (q : Q) :
  (0 <= q)%Q -> (q < 1000000000000)%Q ->
  exists k, 0 <= k /\ slot q = 30 * k /\ 30 * k < 1000000000000.
Proof.
  intros H0 H1. exists (Qfloor (q / 30)). unfold slot.
  assert (Hk : 0 <= Qfloor (q / 30)).
  { change 0 with (Qfloor 0). apply Qfloor_resp_le.
    apply Qle_shift_div_l; [reflexivity | lra]. }
  split; [exact Hk |]. split; [lia |].
  assert (Hle : (inject_Z (Qfloor (q / 30)) <= q / 30)%Q) by apply Qfloor_le.
  assert (Hq : (q / 30 < 1000000000000 / 30)%Q).
  { unfold Qdiv. apply Qmult_lt_compat_r; [reflexivity | exact H1]. }
  assert (Hlt : (inject_Z (Qfloor (q / 30)) < inject_Z 33333333334)%Q).
  { apply Qle_lt_trans with (q / 30)%Q; [exact Hle |].
    apply Qlt_trans with (1000000000000 / 30)%Q; [exact Hq | reflexivity]. }
  rewrite <- Zlt_Qlt in Hlt. lia.
Qed.

(** X25.  The time in the title of a point of the timeline is the start of its
    bin, in minutes and seconds from the origin of the timestamps: for the bin
    [30 * k] it is [k / 2] minutes and 00 or 30 seconds. The bin 0 is falsy
    for [formatTime] and is shown as 00:00, with two digits for the minutes,
    where the next bin is shown as 0:30. The statement is for records with
    timestamps in seconds and sentiments other than "bin". *)
Theorem timeline_titles {B : Builtins} (R : list Comment) (row : Row) :
  (forall c, In c R -> seconds c) ->
  (forall c, In c R -> sentiment c <> "bin") ->
  In row (processTimelineData R) ->
  exists k,
    0 <= k
    /\ bin row = Some (30 * k)
    /\ tooltipTime row
       = if k =? 0 then "00:00"
         else showZ (k / 2) ++ ":" ++ (if Z.even k then "00" else "30").
Proof.
  intros Hsec Hsent Hrow.
  apply (Permutation_in _ (timeline_rows_perm R Hsec Hsent)) in Hrow.
  apply in_map_iff in Hrow as (b & <- & Hb).
  apply binsSeen_spec in Hb as (c & Hc & Hslot).
  apply slotOf_spec in Hslot as (q & Hq & Hnz & ->).
  destruct (Hsec c Hc) as (q' & Hq' & H0 & H1).
  rewrite Hq in Hq'. injection Hq' as <-.
  destruct (slot_of_seconds q H0 H1) as (k & Hk & -> & Hlt).
  exists k. split; [exact Hk |]. split; [reflexivity |].
  unfold tooltipTime, rowFor. cbn [bin].
  destruct (Z.eqb_spec k 0) as [-> | Hne]; [reflexivity |].
  assert (Hpos : (0 < inject_Z (30 * k))%Q)
    by (change 0%Q with (inject_Z 0); rewrite <- Zlt_Qlt; lia).
  assert (Hup : (inject_Z (30 * k) < 1000000000000)%Q).
  { change 1000000000000%Q with (inject_Z 1000000000000). rewrite <- Zlt_Qlt. exact Hlt. }
  unfold formatTime, toDateFromAny. cbn [falsyTimestamp].
  replace (Qeq_bool (inject_Z (30 * k)) 0) with false
    by (symmetry; apply not_true_is_false; rewrite Qeq_bool_iff; lra).
  rewrite date_of_seconds by lra.
  change (1000%Q) with (inject_Z 1000). rewrite Qfloor_scaled by lia.
  rewrite Qfloor_Z.
  rewrite Z.rem_mod_nonneg by lia.
  replace (30 * k / 60) with (k / 2)
    by (change 60 with (30 * 2); rewrite Z.div_mul_cancel_l by lia; reflexivity).
  replace (30 * k mod 60) with (30 * (k mod 2))
    by (change 60 with (30 * 2); rewrite Z.mul_mod_distr_l by lia; reflexivity).
  rewrite Zeven_mod. 
  pose proof (Z.mod_pos_bound k 2 ltac:(lia)) as Hm.
  destruct (Z.eqb_spec (k mod 2) 0) as [E | E].
  - rewrite E. reflexivity.
  - replace (k mod 2) with 1 by lia. reflexivity.
Qed.

Lemma timeline_titles_witness :
  let R := [comment "positive" "weak" (TsNumber 5);
            comment "negative" "weak" (TsNumber 100);
            comment "positive" "strong" (TsNumber 130)] in
  (forall c, In c R -> seconds c)
  /\ (forall c, In c R -> sentiment c <> "bin")
  /\ map (tooltipTime (B := sampleBuiltins)) (processTimelineData (B := sampleBuiltins) R)
     = ["00:00"; "1:30"; "2:00"]
  /\ exists k,
       0 <= k
       /\ bin {| bin := Some 90; positive := 0; neutral := 0; negative := 1 |}
          = Some (30 * k).
Proof.
  intros R.
  assert (H1 : forall c, In c R -> seconds c).
  { intros c [<- | [<- | [<- | []]]]; eexists; (split; [reflexivity |]);
      split; reflexivity || discriminate. }
  assert (H2 : forall c, In c R -> sentiment c <> "bin").
  { intros c [<- | [<- | [<- | []]]]; discriminate. }
  split; [exact H1 |]. split; [exact H2 |]. split; [reflexivity |].
  assert (H3 : In {| bin := Some 90; positive := 0; neutral := 0; negative := 1 |}
                 (processTimelineData (B := sampleBuiltins) R))
    by (right; left; reflexivity).
  destruct (timeline_titles (B := sampleBuiltins) R _ H1 H2 H3) as (k & Hk & Hb & _).
  exists k. split; [exact Hk | exact Hb].
Defined.

(** *** The timeline counts each record once *)

(** The key of the bin of a record, for the records that have one. *)
Lemma counted_in_bin (c : Comment) (k : Z) :
  seconds c ->
  inBin (30 * k) c && isRecognized (sentiment c)
  = (negb (falsyTimestamp (timestamp c)) && isRecognized (sentiment c))
    && (keyOf (slotOf c) =? showZ (30 * k))%string.
Proof.
  intros Hc. rewrite (inBin_slotOf c k Hc).
  destruct Hc as (q & Hq & _). unfold slotOf. rewrite Hq. cbn [falsyTimestamp].
  destruct (Qeq_bool q 0); [reflexivity |]. cbn [negb andb keyOf].
  rewrite showZ_eqb. destruct (isRecognized (sentiment c)), (slot q =? 30 * k); reflexivity.
Qed.

Lemma NoDup_map_showZ (l : list Z) : NoDup l -> NoDup (map showZ l).
Proof.
  induction 1 as [| b l Hb Hl IH]; cbn; constructor; [| exact IH].
  intros H. apply in_map_iff in H as (b' & E & Hb').
  apply showZ_inj in E. subst b'. contradiction.
Qed.

Lemma tallyRecognized_by_key (R : list Comment) (k : Z) :
  (forall c, In c R -> seconds c) ->
  tallyRecognized (30 * k) R
  = Z.of_nat
      (List.length
         (filter (fun c => (keyOf (slotOf c) =? showZ (30 * k))%string)
            (filter (fun c => negb (falsyTimestamp (timestamp c))
                              && isRecognized (sentiment c)) R))).
Proof.
  intros Hsec. unfold tallyRecognized. f_equal.
  induction R as [| c R IH]; [reflexivity |].
  assert (IH' := IH (fun c' Hc' => Hsec c' (or_intror Hc'))). clear IH.
  cbn [filter].
  rewrite (counted_in_bin c k (Hsec c (or_introl eq_refl))).
  destruct (negb (falsyTimestamp (timestamp c)) && isRecognized (sentiment c));
    cbn [andb filter]; [| exact IH'].
  destruct (keyOf (slotOf c) =? showZ (30 * k))%string; cbn [List.length];
    rewrite IH'; reflexivity.
Qed.

(** X26.  The counts of all the rows of the timeline sum to the number of
    records that have a timestamp other than 0 and one of the three
    sentiments: such a record is counted in one row and only there, and the
    other records, which may still create a row, are counted nowhere. The
    statement is for records with timestamps in seconds and sentiments other
    than "bin". *)
Theorem timeline_counts_each_record_once {B : Builtins} (R : list Comment) :
  (forall c, In c R -> seconds c) ->
  (forall c, In c R -> sentiment c <> "bin") ->
  sumZ (map (fun row => positive row + neutral row + negative row)
          (processTimelineData R))
  = Z.of_nat (List.length
                (filter (fun c => negb (falsyTimestamp (timestamp c))
                                  && isRecognized (sentiment c)) R)).
Proof.
  intros Hsec Hsent.
  rewrite (sumZ_perm _ _ (Permutation_map _ (timeline_rows_perm R Hsec Hsent))).
  rewrite map_map. cbn [rowFor positive neutral negative].
  set (counted := filter (fun c => negb (falsyTimestamp (timestamp c))
                                   && isRecognized (sentiment c)) R).
  assert (Hbins : forall b, In b (binsSeen R) -> exists k, b = 30 * k).
  { intros b Hb. apply binsSeen_spec in Hb as (c & _ & Hslot).
    exact (slotOf_multiple c b Hslot). }
  rewrite (map_ext_in _ (fun b => Z.of_nat
                                     (List.length
                                        (filter (fun c => (keyOf (slotOf c) =? showZ b)%string)
                                           counted)))).
  - rewrite <- (map_map showZ
                  (fun k => Z.of_nat
                              (List.length
                                 (filter (fun c => (keyOf (slotOf c) =? k)%string) counted)))).
    apply (sum_by_key (fun c => keyOf (slotOf c)) counted (map showZ (binsSeen R))).
    + apply NoDup_map_showZ, binsSeen_NoDup.
    + intros c Hc. unfold counted in Hc. apply filter_In in Hc as (Hc & Hp).
      apply andb_true_iff in Hp as (Hts & _).
      destruct (Hsec c Hc) as (q & Hq & _).
      assert (Hslot : slotOf c = Some (slot q)).
      { unfold slotOf. rewrite Hq in *. cbn [falsyTimestamp] in Hts.
        destruct (Qeq_bool q 0); [discriminate | reflexivity]. }
      rewrite Hslot. cbn [keyOf]. apply in_map. apply binsSeen_spec.
      exists c. auto.
  - intros b Hb. destruct (Hbins b Hb) as (k & ->).
    rewrite tally_sum. apply tallyRecognized_by_key, Hsec.
Qed.

Lemma timeline_counts_each_record_once_witness :
  let R := [comment "positive" "weak" (TsNumber 5);
            comment "mixed" "weak" (TsNumber 100);
            comment "negative" "weak" (TsNumber 0);
            comment "positive" "strong" (TsNumber 20)] in
  (forall c, In c R -> seconds c)
  /\ (forall c, In c R -> sentiment c <> "bin")
  /\ processTimelineData (B := sampleBuiltins) R
     = [{| bin := Some 0; positive := 2; neutral := 0; negative := 0 |};
        {| bin := Some 90; positive := 0; neutral := 0; negative := 0 |}]
  /\ sumZ (map (fun row => positive row + neutral row + negative row)
             (processTimelineData (B := sampleBuiltins) R)) = 2.
Proof.
  intros R.
  assert (H1 : forall c, In c R -> seconds c).
  { intros c [<- | [<- | [<- | [<- | []]]]]; eexists; (split; [reflexivity |]);
      split; reflexivity || discriminate. }
  assert (H2 : forall c, In c R -> sentiment c <> "bin").
  { intros c [<- | [<- | [<- | [<- | []]]]]; discriminate. }
  split; [exact H1 |]. split; [exact H2 |]. split; [reflexivity |].
  exact (timeline_counts_each_record_once (B := sampleBuiltins) R H1 H2).
Defined.

End ChartFacts.

(** ** The content script and the listener *)

Module ContentFacts.
Import Content.

Lemma notifyBackground_cases (videoId lastVideoId : option string) :
  (notifyBackground videoId lastVideoId = (lastVideoId, [])
   /\ (videoId = None \/ videoId = Some "" \/ videoId = lastVideoId))
  \/ (exists v, videoId = Some v /\ v <> "" /\ lastVideoId <> Some v
                /\ notifyBackground videoId lastVideoId
                   = (Some v, [VideoIdDetected v; FetchComments v])).
Proof.
  unfold notifyBackground. destruct videoId as [v |]; [| left; auto].
  destruct (String.eqb_spec v "") as [-> | Hne]; [left; auto |].
  destruct lastVideoId as [l |].
  - destruct (String.eqb_spec v l) as [-> | Hl]; [left; auto |].
    right. exists v. repeat split; congruence.
  - right. exists v. repeat split; congruence.
Qed.

Lemma last_after {A} (l : list A) : forall a d : A, last (a :: l) d = last l a.
Proof.
  induction l as [| b l IH]; intros a d; [reflexivity |].
  change (last (a :: b :: l) d) with (last (b :: l) d).
  rewrite (IH b d), (IH b a). reflexivity.
Qed.

Lemma detections_requested (ids : list (option string)) :
  forall lastVideoId,
    let r := detections ids lastVideoId in
    fst r = last (map Some (requested (snd r))) lastVideoId
    /\ Forall (fun v => v <> "") (requested (snd r))
    /\ noRepeat (requested (snd r))
    /\ (forall v rest, requested (snd r) = v :: rest -> lastVideoId <> Some v)
    /\ Forall (fun sent => sent = []
                           \/ exists v, sent = [VideoIdDetected v; FetchComments v])
         (snd r).
Proof.
  induction ids as [| videoId rest IH]; intros lastVideoId.
  - cbn. repeat split; try constructor. intros v rest0 H. discriminate.
  - cbn [detections].
    destruct (notifyBackground_cases videoId lastVideoId)
      as [[E _] | (v & -> & Hne & Hlast & E)]; rewrite E.
    + specialize (IH lastVideoId). cbv zeta in IH.
      destruct (detections rest lastVideoId) as [last2 more].
      cbn [fst snd] in *. unfold requested in *. cbn [flat_map app].
      destruct IH as (H1 & H2 & H3 & H4 & H5).
      repeat split; try assumption. constructor; [left; reflexivity | exact H5].
    + specialize (IH (Some v)). cbv zeta in IH.
      destruct (detections rest (Some v)) as [last2 more].
      cbn [fst snd] in *. unfold requested in *. cbn [flat_map app].
      destruct IH as (H1 & H2 & H3 & H4 & H5).
      set (reqs := flat_map _ more) in *.
      split; [| split; [| split; [| split]]].
      * rewrite H1. cbn [map]. symmetry. apply last_after.
      * constructor; assumption.
      * destruct reqs as [| b reqs']; [exact I |].
        split; [| exact H3]. intros ->. exact (H4 b reqs' eq_refl eq_refl).
      * intros v0 rest0 [= <- _]. exact Hlast.
      * constructor; [right; exists v; reflexivity | exact H5].
Qed.

(** X27.  The content script asks for the comments of a video only when the id
    found is not empty and differs from the id of its last request: over any
    sequence of detections, no two requests in a row are for the same video,
    the variable [lastVideoId] holds the video of the last request, and each
    call of [notifyBackground] sends nothing or the two messages
    [videoIdDetected] and [fetchComments] for one id. *)
Theorem content_script_requests_each_change_once (ids : list (option string))
    (calls : list (list Sent)) (final : option string) :
  detections ids None = (final, calls) ->
  noRepeat (requested calls)
  /\ Forall (fun v => v <> "") (requested calls)
  /\ final = last (map Some (requested calls)) None
  /\ Forall (fun sent => sent = []
                         \/ exists v, sent = [VideoIdDetected v; FetchComments v])
       calls.
Proof.
  intros H. pose proof (detections_requested ids None) as Hd. cbv zeta in Hd.
  rewrite H in Hd. cbn [fst snd] in Hd. tauto.
Qed.

Lemma content_script_requests_each_change_once_witness :
  let ids := [Some "a"; Some "a"; None; Some "b"; Some ""; Some "b"; Some "a"] in
  detections ids None
  = (Some "a",
     [[VideoIdDetected "a"; FetchComments "a"]; []; [];
      [VideoIdDetected "b"; FetchComments "b"]; []; [];
      [VideoIdDetected "a"; FetchComments "a"]])
  /\ requested (snd (detections ids None)) = ["a"; "b"; "a"]
  /\ noRepeat (requested (snd (detections ids None))).
Proof.
  intros ids.
  assert (H : detections ids None
              = (Some "a",
                 [[VideoIdDetected "a"; FetchComments "a"]; []; [];
                  [VideoIdDetected "b"; FetchComments "b"]; []; [];
                  [VideoIdDetected "a"; FetchComments "a"]])) by reflexivity.
  split; [exact H |]. split; [reflexivity |].
  rewrite H. cbn [snd].
  exact (proj1 (content_script_requests_each_change_once ids _ _ H)).
Defined.

(** X28.  Of the two messages that the content script sends for a video, the
    listener of the background script ignores the first: it logs it, sends no
    response and does not keep the channel open. The second is a trigger that
    carries its video id. *)
Theorem detected_message_is_ignored {RT : Runtime} (env : Env) (fuel : nat)
    (videoId lastVideoId : option string) (w : World) (m : Sent) :
  In m (snd (notifyBackground videoId lastVideoId)) ->
  match m with
  | VideoIdDetected v =>
      onMessage env fuel (asRequest m) w
      = Some (Return false,
              logged w (EvLog Info "Received message from content script:"))
  | FetchComments v =>
      action (asRequest m) = "fetchComments"
      /\ Background.videoId (asRequest m) = Some v /\ v <> ""
  end.
Proof.
  destruct (notifyBackground_cases videoId lastVideoId)
    as [[E _] | (v & -> & Hne & Hlast & E)]; rewrite E; cbn [snd].
  - intros [].
  - intros [<- | [<- | []]]; [reflexivity | repeat split; assumption].
Qed.

Lemma detected_message_is_ignored_witness :
  In (VideoIdDetected "a") (snd (notifyBackground (Some "a") None))
  /\ onMessage (RT := sampleRuntime) (envOf downNet) 0
       (asRequest (VideoIdDetected "a")) world0
     = Some (Return false,
             logged world0 (EvLog Info "Received message from content script:")).
Proof.
  assert (H : In (VideoIdDetected "a") (snd (notifyBackground (Some "a") None)))
    by (left; reflexivity).
  split; [exact H |].
  exact (detected_message_is_ignored (RT := sampleRuntime) (envOf downNet) 0
           (Some "a") None world0 (VideoIdDetected "a") H).
Defined.

End ContentFacts.
